(** * LLM web-search automation: capture, correlation and batch sequencing

    A shallow embedding of the two Puppeteer batch runners of the repository
    (the ChatGPT runner, [GPT/index.js], and the Claude runner,
    [Claude/index.js]), of the chat remover that goes with the first
    ([GPT/delete_chats.js]) and of the offline reconstructor their design
    document describes, with the properties that document states about
    them and further properties of the code.

    Conventions of the embedding.

    - A JavaScript string is modelled by its UTF-8 encoding, one [ascii] per
      byte.  [Buffer.byteLength(s, 'utf8')] is then the length of the model
      string, concatenation and [===] on well-formed strings are
      concatenation and equality of the encodings.
    - Everything the scripts do not control (what the browser answers, how
      long it takes, what the CSV parser returns, the clock's rendering of a
      date) is an [Env]: a record of functions, those that describe the
      browser indexed by the number of interactions performed so far.
      Every behaviour of the outside world is some [Env].
    - The scripts' effects (clock, file system, console, the calls made on
      the page, their [let] variables) live in a [World] that a monad [M]
      of environment, state and exceptions threads through the code.
    - An error is modelled by its message.

    The file has the model first (strings, the network archive, the
    outside world, the monad, the code the runners share, the two runners,
    the reconstructor, the vocabulary of the statements, some sample
    environments and the chat remover), then the properties. *)

From Stdlib Require Import ZArith String Ascii List Lia Bool.
From stdpp Require Import base option list gmap strings pretty.

Open Scope string_scope.
Open Scope Z_scope.

(** ** Strings *)

(** The line feed ['\n'] and the double quote of the template literals. *)
Definition nl : string := String (ascii_of_nat 10) EmptyString.
Definition dq : string := String (ascii_of_nat 34) EmptyString.

(** [hay.includes(needle)]. *)
Fixpoint includes (hay needle : string) : bool :=
  String.prefix needle hay ||
  match hay with
  | EmptyString => false
  | String _ rest => includes rest needle
  end.

(** [s.split(sep)] for a one-character separator: always at least one piece. *)
Fixpoint split (sep : ascii) (s : string) : list string :=
  match s with
  | EmptyString => [EmptyString]
  | String c rest =>
      if Ascii.eqb c sep then EmptyString :: split sep rest
      else match split sep rest with
           | piece :: pieces => String c piece :: pieces
           | [] => [String c EmptyString]
           end
  end.

(** [pieces.join(sep)]. *)
Fixpoint join (sep : string) (pieces : list string) : string :=
  match pieces with
  | [] => EmptyString
  | [piece] => piece
  | piece :: rest => piece +:+ sep +:+ join sep rest
  end.

(** ECMAScript white space and line terminators, as UTF-8 byte sequences of
    one, two and three bytes. *)
Definition ws1 (c : ascii) : bool :=
  let n := N_of_ascii c in
  ((9 <=? n) && (n <=? 13) || (n =? 32))%N.

Definition ws2 (c1 c2 : ascii) : bool :=
  ((N_of_ascii c1 =? 194) && (N_of_ascii c2 =? 160))%N.

Definition ws3 (c1 c2 c3 : ascii) : bool :=
  let '(a, b, c) := (N_of_ascii c1, N_of_ascii c2, N_of_ascii c3) in
  ((a =? 225) && (b =? 154) && (c =? 128)
   || (a =? 226) && (b =? 128)
      && ((128 <=? c) && (c <=? 138) || (c =? 168) || (c =? 169) || (c =? 175))
   || (a =? 226) && (b =? 129) && (c =? 159)
   || (a =? 227) && (b =? 128) && (c =? 128)
   || (a =? 239) && (b =? 187) && (c =? 191))%N.

Fixpoint trimStart (s : string) : string :=
  match s with
  | EmptyString => s
  | String c1 r1 =>
      if ws1 c1 then trimStart r1
      else match r1 with
           | EmptyString => s
           | String c2 r2 =>
               if ws2 c1 c2 then trimStart r2
               else match r2 with
                    | EmptyString => s
                    | String c3 r3 => if ws3 c1 c2 c3 then trimStart r3 else s
                    end
           end
  end.

(** [t.trim() === '']. *)
Definition blank (t : string) : bool := String.eqb (trimStart t) EmptyString.

Fixpoint trimEnd (s : string) : string :=
  match s with
  | EmptyString => s
  | String c rest => if blank s then EmptyString else String c (trimEnd rest)
  end.

Definition trim (s : string) : string := trimEnd (trimStart s).

(** [s.toLowerCase()] on the ASCII letters (other bytes are kept). *)
Definition lowerAscii (c : ascii) : ascii :=
  let n := N_of_ascii c in
  if ((65 <=? n) && (n <=? 90))%N then ascii_of_N (n + 32) else c.

Fixpoint toLowerCase (s : string) : string :=
  match s with
  | EmptyString => EmptyString
  | String c rest => String (lowerAscii c) (toLowerCase rest)
  end.

(** [s.slice(0, n)], counted in bytes of the model string. *)
Definition slice0 (n : nat) (s : string) : string := String.substring 0 n s.

(** [s.replace(/\n/g, ' ')]. *)
Fixpoint replaceNewlines (s : string) : string :=
  match s with
  | EmptyString => EmptyString
  | String c rest =>
      String (if Ascii.eqb c (ascii_of_nat 10) then " "%char else c) (replaceNewlines rest)
  end.

(** [Buffer.byteLength(s, 'utf8')]. *)
Definition Buffer_byteLength (s : string) : Z := Z.of_nat (String.length s).

(** ** The network archive (HAR) *)

(** Only the fields the scripts touch are named; the others ride along as
    rendered name/value pairs.  A field that is absent (or not of the
    expected JSON type) is [None], which is how [?.] and [===] see it. *)
Record Content := mkContent {
  mimeType : option string;
  text : option string;
  size : option Z;
  contentFields : list (string * string)
}.

Record Response := mkResponse {
  content : option Content;
  responseFields : list (string * string)
}.

Record Entry := mkEntry {
  response : option Response;
  entryFields : list (string * string)
}.

Record Har := mkHar {
  entries : list Entry;
  logFields : list (string * string)
}.

(** [entry.response?.content?.mimeType === 'text/event-stream'] *)
Definition isEventStream (entry : Entry) : bool :=
  bool_decide ((response entry ≫= content) ≫= mimeType = Some "text/event-stream").

(** [entry.response.content.text = sseText;
     entry.response.content.size = Buffer.byteLength(sseText, 'utf8');] *)
Definition setStreamBody (sseText : string) (entry : Entry) : Entry :=
  match response entry with
  | Some r =>
      match content r with
      | Some c =>
          mkEntry
            (Some (mkResponse
                     (Some (mkContent (mimeType c) (Some sseText)
                                      (Some (Buffer_byteLength sseText))
                                      (contentFields c)))
                     (responseFields r)))
            (entryFields entry)
      | None => entry
      end
  | None => entry
  end.

(** The correlation loop:
    [for (const entry of harJson.log.entries) { if (...) { ...; break; } }] *)
Fixpoint injectSSE (sseText : string) (es : list Entry) : list Entry :=
  match es with
  | [] => []
  | entry :: rest =>
      if isEventStream entry then setStreamBody sseText entry :: rest
      else entry :: injectSSE sseText rest
  end.

Definition correlate (sseText : string) (h : Har) : Har :=
  mkHar (injectSSE sseText (entries h)) (logFields h).

(** ** The outside world *)

(** What a file holds.  A trace file is kept as the archive its JSON text
    parses to ([JSON.parse] after [JSON.stringify] is the identity on such
    values); every other file is text. *)
Inductive File :=
  | TextFile (s : string)
  | HarFile (h : Har).

(** One row of [parse(content, { columns: true, ... })]: the cells of the
    row under the header's column names. *)
Definition Row := list (string * string).

(** The behaviour of everything outside the scripts.  The functions that
    describe the browser are indexed by the number of interactions already
    made, so that each call may be answered differently. *)
Record Env := mkEnv {
  (** milliseconds the n-th interaction takes *)
  latency : nat -> N;
  (** [Some msg]: the n-th interaction rejects with an Error of that message *)
  failure : nat -> option string;
  (** the [innerText] of the elements a DOM query matches at step n *)
  innerTexts : nat -> list string;
  (** whether the element looked for at step n exists *)
  present : nat -> bool;
  (** the body [response.text()] yields at step n *)
  streamBody : nat -> string;
  (** the archive the recorder writes when stopped at step n *)
  recorded : nat -> Har;
  (** [Some msg]: writing or creating that path fails with that message *)
  denied : string -> option string;
  (** csv-parse: [inl msg] when it throws, else the rows *)
  parse : string -> string + list Row;
  (** the message [JSON.parse] (or the walk to [.log.entries]) fails with on
      a text that is no archive *)
  notAnArchive : string -> string;
  (** [new Date(ms).toISOString()] *)
  toISOString : Z -> string;
  (** [path.resolve(p)] *)
  resolve : string -> string;
  (** the JSON text of an archive *)
  render : Har -> string
}.

(** Calls made on the browser, the page, its elements and the recorder. *)
Inductive Call :=
  | Launch (userDataDir : string)
  | Pages
  | Close
  | SetUserAgent (agent : string)
  | Goto (url : string)
  | WaitForSelector (selector : string) (timeout : Z)
  | WaitForFunction (what : string) (timeout : Z)
  | Query (selector : string)
  | QueryAll (selector : string)
  | Click (selector : string)
  | ElementDo (what : string)
  | KeyDown (key : string)
  | KeyPress (key : string)
  | KeyUp (key : string)
  | EditorClick (delay : Z)
  | EditorType (content : string) (delay : Z)
  | EditorPress (key : string)
  | AwaitResponse (timeout : Z)
  | ResponseText
  | EvalTexts (selector : string)
  | HarStart (path : string)
  | HarStop.

Inductive Level := LOG | WARN | ERROR.

(** The state the scripts act on. *)
Record World := mkWorld {
  (** [Date.now()] *)
  clock : Z;
  (** interactions made so far *)
  tick : nat;
  files : gmap string File;
  dirs : gset string;
  console : list (Level * string);
  calls : list Call;
  (** [let finalAnswer], [let sseText] of the prompt being processed *)
  finalAnswer : string;
  sseText : string
}.

Inductive Result (A : Type) :=
  | Returned (a : A)
  | Thrown (e : string)
  | Diverged.
Arguments Returned {A} a.
Arguments Thrown {A} e.
Arguments Diverged {A}.

(** ** The monad of the scripts: environment, state, exceptions *)

Definition M (A : Type) : Type := Env -> World -> Result A * World.

#[global] Instance M_ret : MRet M := fun A a _ w => (Returned a, w).

#[global] Instance M_bind : MBind M := fun A B f m env w =>
  match m env w with
  | (Returned a, w') => f a env w'
  | (Thrown e, w') => (Thrown e, w')
  | (Diverged, w') => (Diverged, w')
  end.

Definition throw {A} (e : string) : M A := fun _ w => (Thrown e, w).

Definition diverge {A} : M A := fun _ w => (Diverged, w).

Definition ask : M Env := fun env w => (Returned env, w).

Definition get : M World := fun _ w => (Returned w, w).

Definition modify (f : World -> World) : M unit := fun _ w => (Returned tt, f w).

(** [try { body } catch (e) { handler }] *)
Definition try_catch {A} (body : M A) (handler : string -> M A) : M A :=
  fun env w =>
    match body env w with
    | (Thrown e, w') => handler e env w'
    | other => other
    end.

(** [try { body } finally { finalizer }]: the finalizer runs on return and on
    throw; its own exception replaces the pending completion. *)
Definition try_finally {A} (body : M A) (finalizer : M unit) : M A :=
  fun env w =>
    match body env w with
    | (Diverged, w') => (Diverged, w')
    | (completion, w') =>
        match finalizer env w' with
        | (Returned _, w'') => (completion, w'')
        | (Thrown e, w'') => (Thrown e, w'')
        | (Diverged, w'') => (Diverged, w'')
        end
    end.

(** [promise.catch(() => fallback)] *)
Definition catch_with {A} (body : M A) (fallback : A) : M A :=
  try_catch body (fun _ => mret fallback).

(** [for (let idx = start; ...; idx++) body(idx, items[idx])] and [for ... of]. *)
Fixpoint for_each {A} (idx : nat) (items : list A) (body : nat -> A -> M unit) : M unit :=
  match items with
  | [] => mret tt
  | item :: rest => body idx item;; for_each (S idx) rest body
  end.

(** [items.map(f)] for an effectful [f], left to right. *)
Fixpoint map_each {A B} (f : A -> M B) (items : list A) : M (list B) :=
  match items with
  | [] => mret []
  | item :: rest => b ← f item; bs ← map_each f rest; mret (b :: bs)
  end.

(** *** Field updates *)

Definition advance (ms : Z) (w : World) : World :=
  mkWorld (clock w + ms) (tick w) (files w) (dirs w) (console w) (calls w)
          (finalAnswer w) (sseText w).

Definition record_call (c : Call) (w : World) : World :=
  mkWorld (clock w) (S (tick w)) (files w) (dirs w) (console w) (calls w ++ [c])
          (finalAnswer w) (sseText w).

Definition put_file (path : string) (f : File) (w : World) : World :=
  mkWorld (clock w) (tick w) (<[path := f]> (files w)) (dirs w) (console w) (calls w)
          (finalAnswer w) (sseText w).

Definition put_dir (path : string) (w : World) : World :=
  mkWorld (clock w) (tick w) (files w) ({[path]} ∪ dirs w) (console w) (calls w)
          (finalAnswer w) (sseText w).

Definition print (l : Level) (line : string) (w : World) : World :=
  mkWorld (clock w) (tick w) (files w) (dirs w) (console w ++ [(l, line)]) (calls w)
          (finalAnswer w) (sseText w).

Definition set_finalAnswer (s : string) (w : World) : World :=
  mkWorld (clock w) (tick w) (files w) (dirs w) (console w) (calls w) s (sseText w).

Definition set_sseText (s : string) (w : World) : World :=
  mkWorld (clock w) (tick w) (files w) (dirs w) (console w) (calls w) (finalAnswer w) s.

(** *** Primitives *)

(** One call on the browser: it is recorded, takes the time the environment
    says, and either rejects or resolves.  The step number it returns is
    where the environment's answer to it is found.  Every call settles: a
    wait the page would leave pending for ever (one with [timeout: 0]) has
    no outcome here, and the statements that need such waits to end say so
    ([unboundedWaitsFound]).  What the browser writes of its own, its
    profile, is not among [files]. *)
Definition interact (c : Call) : M nat := fun env w =>
  let n := tick w in
  let w' := advance (Z.of_N (latency env n)) (record_call c w) in
  match failure env n with
  | Some msg => (Thrown msg, w')
  | None => (Returned n, w')
  end.

(** The delay of a timer of Node: [ms] milliseconds, and 1 when [ms] is below
    1 or above 2^31 - 1. *)
Definition nap (ms : Z) : Z := if bool_decide (1 <= ms <= 2147483647) then ms else 1.

(** [await sleep(ms)] *)
Definition sleep (ms : Z) : M unit := modify (advance (nap ms)).

Definition Date_now : M Z := w ← get; mret (clock w).

(** [new Date().toISOString()] *)
Definition Date_toISOString : M string := env ← ask; w ← get; mret (toISOString env (clock w)).

Definition console_log (line : string) : M unit := modify (print LOG line).
Definition console_warn (line : string) : M unit := modify (print WARN line).
Definition console_error (line : string) : M unit := modify (print ERROR line).

Definition fs_existsSync (path : string) : M bool :=
  w ← get; mret (bool_decide (is_Some (files w !! path)) || bool_decide (path ∈ dirs w)).

(** [fs.mkdirSync(path, { recursive: true })] of a directory whose parent
    exists: the directory alone is made.  That is the case of the scripts,
    whose output directories have plain names ([plainName]). *)
Definition fs_mkdirSync (path : string) : M unit :=
  env ← ask;
  match denied env path with
  | Some msg => throw msg
  | None => modify (put_dir path)
  end.

Definition fs_readFileSync (path : string) : M File :=
  w ← get;
  match files w !! path with
  | Some f => mret f
  | None =>
      if bool_decide (path ∈ dirs w)
      then throw "EISDIR: illegal operation on a directory, read"
      else throw ("ENOENT: no such file or directory, open '" +:+ path +:+ "'")
  end.

(** The text of a file, as [readFileSync(path, 'utf8')] returns it. *)
Definition fileText (f : File) : M string :=
  match f with
  | TextFile s => mret s
  | HarFile h => env ← ask; mret (render env h)
  end.

Definition fs_writeFileSync (path : string) (data : File) : M unit :=
  env ← ask;
  match denied env path with
  | Some msg => throw msg
  | None => modify (put_file path data)
  end.

(** [JSON.parse(text)] followed by the walk to [harJson.log.entries]. *)
Definition JSON_parse (f : File) : M Har :=
  match f with
  | HarFile h => mret h
  | TextFile s => env ← ask; throw (notAnArchive env s)
  end.

(** Node's [path] on plain relative names: no [.] or [..] segment and no
    doubled separator to normalise. *)
Definition path_join (dir name : string) : string := dir +:+ "/" +:+ name.

Definition path_basename (p : string) : string :=
  List.last (split "/"%char p) EmptyString.

Definition path_resolve (p : string) : M string :=
  env ← ask; mret (resolve env p).

(** ** Code the two runners share *)

(** [if (!fs.existsSync(p)) fs.mkdirSync(p, { recursive: true })] *)
Definition ensureDir (p : string) : M unit :=
  there ← fs_existsSync p;
  if there : bool then mret tt else fs_mkdirSync p.

(** [row.query], [undefined] when the row has no such cell. *)
Fixpoint cell (name : string) (row : Row) : option string :=
  match row with
  | [] => None
  | (k, v) :: rest => if String.eqb k name then Some v else cell name rest
  end.

(** [loadCsvPrompts(csvFile)]: requires a [query] header. *)
Definition loadCsvPrompts (csvFile : string) : M (list string) :=
  there ← fs_existsSync csvFile;
  if negb there then throw ("Missing CSV file: " +:+ csvFile) else
  content ← fs_readFileSync csvFile ≫= fileText;
  env ← ask;
  records ←
    match parse env content with
    | inl msg => throw ("Failed to parse CSV (" +:+ csvFile +:+ "): " +:+ msg)
    | inr rows => mret rows
    end;
  match records with
  | [] => throw ("CSV has no data rows: " +:+ csvFile)
  | first :: _ =>
      if negb (bool_decide (is_Some (cell "query" first)))
      then throw ("CSV does not have a 'query' header column: " +:+ csvFile)
      else mret (map (fun r => match cell "query" r with
                               | None => EmptyString
                               | Some q => q
                               end) records)
  end.

(** [JSON.stringify] of a string: the quoted text with the escapes of the
    standard. *)
Definition hexDigit (n : N) : ascii :=
  if (n <? 10)%N then ascii_of_N (48 + n) else ascii_of_N (87 + n).

Definition escapeChar (c : ascii) : string :=
  let n := N_of_ascii c in
  if (n =? 34)%N then "\" +:+ dq
  else if (n =? 92)%N then "\\"
  else if (n =? 8)%N then "\b"
  else if (n =? 12)%N then "\f"
  else if (n =? 10)%N then "\n"
  else if (n =? 13)%N then "\r"
  else if (n =? 9)%N then "\t"
  else if (n <? 32)%N
       then "\u00" +:+ String (hexDigit (n / 16)) (String (hexDigit (n mod 16)) EmptyString)
  else String c EmptyString.

Fixpoint escapeString (s : string) : string :=
  match s with
  | EmptyString => EmptyString
  | String c rest => escapeChar c +:+ escapeString rest
  end.

Definition JSON_stringify_string (s : string) : string := dq +:+ escapeString s +:+ dq.

(** [JSON.stringify({ idx: i + 1, query: q })] *)
Definition promptJson (i : nat) (q : string) : string :=
  "{" +:+ dq +:+ "idx" +:+ dq +:+ ":" +:+ pretty (S i) +:+ ","
      +:+ dq +:+ "query" +:+ dq +:+ ":" +:+ JSON_stringify_string q +:+ "}".

(** [savePromptsCatalog(outDir, csvFile, prompts)]: prompts.jsonl,
    prompts.txt and source_meta.txt. *)
Definition savePromptsCatalog (outDir csvFile : string) (prompts : list string) : M unit :=
  ensureDir outDir;;
  let jsonlPath := path_join outDir "prompts.jsonl" in
  let txtPath := path_join outDir "prompts.txt" in
  let metaPath := path_join outDir "source_meta.txt" in
  fs_writeFileSync jsonlPath
    (TextFile (join nl (imap promptJson prompts) +:+ nl));;
  fs_writeFileSync txtPath
    (TextFile (join nl (imap (fun i q => "#" +:+ pretty (S i) +:+ nl +:+ q +:+ nl) prompts)));;
  source ← path_resolve csvFile;
  saved ← Date_toISOString;
  fs_writeFileSync metaPath
    (TextFile ("CSV Source: " +:+ source +:+ nl +:+
               "Total Prompts: " +:+ pretty (length prompts) +:+ nl +:+
               "Saved: " +:+ saved +:+ nl));;
  console_log ("📦 Saved prompts catalog to:" +:+ nl +:+ "  - " +:+ jsonlPath +:+ nl +:+
               "  - " +:+ txtPath +:+ nl +:+ "  - " +:+ metaPath).

(** The polling loop of the completion detectors
    ([waitForResponseStability], [waitForClaudeStability]); [read] is how
    the runner reads the rendered answer, [lastText] and [stableSince] are
    the loop's variables.  [fuel] bounds the iterations. *)
Fixpoint stabilityLoop (fuel : nat) (read : M string)
    (stabilityMs maxTimeout pollInterval start : Z)
    (lastText : string) (stableSince : Z) : M string :=
  t ← Date_now;
  if bool_decide (t - start < maxTimeout) then
    match fuel with
    | O => diverge
    | S fuel' =>
        current ← read;
        if String.eqb current lastText then
          t' ← Date_now;
          if bool_decide (t' - stableSince >= stabilityMs) then mret current
          else
            sleep pollInterval;;
            stabilityLoop fuel' read stabilityMs maxTimeout pollInterval start
                          lastText stableSince
        else
          t' ← Date_now;
          sleep pollInterval;;
          stabilityLoop fuel' read stabilityMs maxTimeout pollInterval start
                        current t'
    end
  else mret lastText.

(** Every turn of the loop sleeps for at least a millisecond, so it cannot
    turn more often than [maxTimeout] times. *)
Definition waitForStability (read : M string)
    (stabilityMs maxTimeout pollInterval : Z) : M string :=
  start ← Date_now;
  stableSince ← Date_now;
  stabilityLoop (Z.to_nat maxTimeout) read stabilityMs maxTimeout pollInterval
                start EmptyString stableSince.

(** Stopping the recorder: it writes the archive to the path it was started
    with. *)
Definition har_stop (harFilename : string) : M unit :=
  n ← interact HarStop;
  env ← ask;
  fs_writeFileSync harFilename (HarFile (recorded env n)).

(** [// Stop HAR] *)
Definition stopHar (harFilename : string) : M unit :=
  try_catch
    (har_stop harFilename;;
     console_log ("✅ HAR saved to " +:+ harFilename))
    (fun e => console_warn ("Failed to stop HAR cleanly: " +:+ e)).

(** [// Inject SSE into HAR] *)
Definition injectSseIntoHar (harFilename sse : string) : M unit :=
  try_catch
    (harJson ← fs_readFileSync harFilename ≫= JSON_parse;
     fs_writeFileSync harFilename (HarFile (correlate sse harJson));;
     console_log ("✅ HAR updated with SSE at " +:+ harFilename))
    (fun e => console_error ("Failed to inject SSE into HAR: " +:+ e)).

Definition placeholder : string := "[no answer captured]".

(** [finalAnswer || '[no answer captured]'] *)
Definition orPlaceholder (answer : string) : string :=
  if String.eqb answer EmptyString then placeholder else answer.

Definition header (promptText stamp : string) : string :=
  "Prompt: " +:+ promptText +:+ nl +:+ "Timestamp: " +:+ stamp +:+ nl +:+ nl.

(** [// Save final answer] *)
Definition saveAnswer (answerFilename promptText answer : string) : M unit :=
  try_catch
    (stamp ← Date_toISOString;
     fs_writeFileSync answerFilename
       (TextFile (header promptText stamp +:+ orPlaceholder answer));;
     console_log ("✅ Answer saved to " +:+ answerFilename))
    (fun e => console_warn ("Failed to write answer file: " +:+ e)).

(** The [finally] block of a prompt. *)
Definition finishPrompt (harFilename answerFilename promptText : string) : M unit :=
  stopHar harFilename;;
  w ← get;
  injectSseIntoHar harFilename (sseText w);;
  w ← get;
  saveAnswer answerFilename promptText (finalAnswer w).

(** The report after the detector returned. *)
Definition reportAnswer (idx : nat) (answer : string) : M unit :=
  if String.eqb answer EmptyString || blank answer
  then console_warn ("Prompt " +:+ pretty (S idx) +:+ " produced no detectable answer before timeout.")
  else console_log ("Captured answer (truncated): " +:+
                    replaceNewlines (slice0 250 answer) +:+ "...").

(** [// Capture SSE]: awaits the promise of [page.waitForResponse].  The
    runners make that promise before they type the prompt; what a promise
    left unawaited does to the process is outside these scripts, and the
    statements about what a run goes on to do are kept to the runs in
    which the typing came to its end in time ([typedInTime]). *)
Definition captureSse : M unit :=
  try_catch
    (interact (AwaitResponse 120000);;
     n ← interact ResponseText;
     env ← ask;
     modify (set_sseText (streamBody env n)))
    (fun e => console_warn ("⚠️ SSE response not captured: " +:+ e)).

(** The statements of the loop body before its [try]: the banner, the
    recorder's start and the two [let]s. *)
Definition opening (label : string) (total idx : nat)
    (promptText harFilename : string) : M unit :=
  console_log (nl +:+ "=== [" +:+ label +:+ "] Prompt " +:+ pretty (S idx) +:+ "/" +:+
               pretty total +:+ ": " +:+ dq +:+ promptText +:+ dq +:+ " ===");;
  interact (HarStart harFilename);;
  modify (set_finalAnswer EmptyString);;
  modify (set_sseText EmptyString).

(** The [try { attempt } catch (err) { ... } finally { ... }] of the loop body. *)
Definition guarded (attempt : M unit) (idx : nat)
    (harFilename answerFilename promptText : string) : M unit :=
  try_finally
    (try_catch
       attempt
       (fun e => console_error ("Error processing prompt " +:+ pretty (S idx) +:+ ": " +:+ e)))
    (finishPrompt harFilename answerFilename promptText).

Definition userAgent : string :=
  "Mozilla/5.0 (Windows NT 10.0; Win64; x64) AppleWebKit/537.36 (KHTML, like Gecko) Chrome/114.0.0.0 Safari/537.36".

(** [const safeBase = `prompt-${idx + 1}`] and the two file names made of it. *)
Definition harName (harsDir : string) (idx : nat) : string :=
  path_join harsDir ("network-logs-prompt-" +:+ pretty (S idx) +:+ ".har").

Definition answerName (responsesDir : string) (idx : nat) : string :=
  path_join responsesDir ("response-prompt-" +:+ pretty (S idx) +:+ ".txt").

(** [const [category, ...modelParts] = path.basename(outDir).split('_')],
    the parts joined by [_] again. *)
Definition category (outDir : string) : string :=
  hd EmptyString (split "_"%char (path_basename outDir)).

Definition modelParts (outDir : string) : string :=
  join "_" (tl (split "_"%char (path_basename outDir))).

Record Job := mkJob { file : string; outDir : string }.

(** The main flow of both scripts, over the runner's [processPromptsBatch]
    and its browser profile; [loadJob] is the function mapped over
    [csvJobs] before the browser is launched. *)
Definition loadJob (job : Job) : M (Job * list string) :=
  prompts ← loadCsvPrompts (file job);
  console_log ("Loaded " +:+ pretty (length prompts) +:+ " prompts from " +:+ file job);;
  savePromptsCatalog (outDir job) (file job) prompts;;
  mret (job, prompts).

Definition mainFlow (userDataDir : string)
    (processPromptsBatch : list string -> string -> M unit)
    (csvJobs : list Job) : M unit :=
  jobData ← map_each loadJob csvJobs;
  interact (Launch userDataDir);;
  try_finally
    (try_catch
       (interact Pages;;
        for_each 0 jobData (fun _ '(job, prompts) =>
          console_log (nl +:+ "==============================");;
          console_log ("▶ Processing CSV: " +:+ file job);;
          console_log ("▶ Output Dir:    " +:+ outDir job);;
          console_log ("==============================" +:+ nl);;
          processPromptsBatch prompts (outDir job)))
       (fun e => console_error ("Fatal error in main flow: " +:+ e)))
    (try_catch
       (interact Close;;
        console_log "Browser closed.")
       (fun e => console_warn ("Error closing browser: " +:+ e))).

(** ** The ChatGPT runner ([GPT/index.js]) *)

Module GPT.

(** [waitForRoleWithText(page, role, text, timeout = 5000)] *)
Definition waitForRoleWithText (role text : string) (timeout : Z) : M unit :=
  n ← interact (WaitForFunction ("[role='" +:+ role +:+ "'] " +:+ text) timeout);
  env ← ask;
  if present env n then mret tt
  else throw ("Element [role='" +:+ role +:+ "'] with text " +:+ dq +:+ text +:+ dq +:+ " not found").

(** The errors [safeClick] takes for a render race. *)
Definition transient (msg : string) : bool :=
  includes msg "detached frame" ||
  includes msg "Node is detached" ||
  includes msg "Execution context was destroyed" ||
  includes msg "TimeoutError".

(** The [for] loop of [safeClick], with [remaining] attempts to go. *)
Fixpoint safeClickLoop (remaining : nat) (selector : string) (timeout : Z) : M unit :=
  match remaining with
  | O => throw ("safeClick failed for selector " +:+ selector)
  | S remaining' =>
      try_catch
        (interact (WaitForSelector selector timeout);;
         interact (Click selector);;
         mret tt)
        (fun msg =>
           if transient msg
           then sleep 500;; safeClickLoop remaining' selector timeout
           else throw msg)
  end.

(** [safeClick(page, selector, options = { attempts: 3, waitFor: { timeout: 10000 } })] *)
Definition safeClick (selector : string) : M unit := safeClickLoop 3 selector 10000.

Definition expanded : string := "aria-expanded === 'true'".

(** [enableWebSearch(page)] *)
Definition enableWebSearch : M unit :=
  safeClick "button[data-testid='composer-plus-btn']";;
  interact (WaitForSelector "[role='menu']" 10000);;
  waitForRoleWithText "menuitem" "More" 8000;;
  interact (ElementDo "scrollIntoView");;
  interact (ElementDo "hover");;
  sleep 250;;
  try_catch
    (interact (WaitForFunction expanded 1200);; mret tt)
    (fun _ =>
       interact (ElementDo "focus");;
       interact (KeyPress "ArrowRight");;
       interact (WaitForFunction expanded 2000);;
       mret tt);;
  sleep 250;;
  waitForRoleWithText "menuitemradio" "Web search" 8000;;
  interact (ElementDo "hover");;
  interact (ElementDo "click");;
  mret tt.

(** [page.$$eval('p', els => els.map(e => e.innerText).filter(t => t.trim() !== ''))]
    joined by blank lines. *)
Definition visibleText (texts : list string) : string :=
  join (nl +:+ nl) (filter (fun t => negb (blank t)) texts).

Definition readParagraphs : M string :=
  n ← interact (EvalTexts "p");
  env ← ask;
  mret (visibleText (innerTexts env n)).

(** [waitForResponseStability(page, { stabilityMs, maxTimeout, pollInterval })] *)
Definition waitForResponseStability (stabilityMs maxTimeout pollInterval : Z) : M string :=
  waitForStability readParagraphs stabilityMs maxTimeout pollInterval.

Definition editor : string := "div.ProseMirror#prompt-textarea".

(** [// Type + submit] *)
Definition typeAndSubmit (promptText : string) : M unit :=
  interact (WaitForSelector editor 15000);;
  interact (EditorClick 100);;
  interact (KeyDown "Control");;
  interact (KeyPress "A");;
  interact (KeyUp "Control");;
  interact (EditorType promptText 50);;
  interact (EditorPress "Enter");;
  mret tt.

(** The [try] block of a prompt: up to the detector, and from it. *)
Definition submitAndCapture (promptText : string) : M unit :=
  enableWebSearch;;
  typeAndSubmit promptText;;
  captureSse.

Definition attempt (idx : nat) (promptText : string) : M unit :=
  submitAndCapture promptText;;
  answer ← waitForResponseStability 3000 60000 1000;
  modify (set_finalAnswer answer);;
  reportAnswer idx answer;;
  sleep 1000.

(** [// Start a new chat] *)
Definition newChat : M unit :=
  interact (KeyDown "Control");;
  interact (KeyDown "Shift");;
  interact (KeyPress "O");;
  interact (KeyUp "Shift");;
  interact (KeyUp "Control");;
  sleep 3000.

(** The body of the [for] loop of [processPromptsBatch]. *)
Definition processPrompt (label harsDir responsesDir : string) (total : nat)
    (idx : nat) (promptText : string) : M unit :=
  let harFilename := harName harsDir idx in
  let answerFilename := answerName responsesDir idx in
  opening label total idx promptText harFilename;;
  guarded (attempt idx promptText) idx harFilename answerFilename promptText;;
  newChat.

(** [const model = modelParts.join('_')] *)
Definition model (outDir : string) : string := modelParts outDir.

Definition harsDirOf (outDir : string) : string :=
  path_join outDir (category outDir +:+ "_hars_" +:+ model outDir).

Definition responsesDirOf (outDir : string) : string :=
  path_join outDir (category outDir +:+ "_responses_" +:+ model outDir).

(** [processPromptsBatch(page, prompts, outDir)] *)
Definition processPromptsBatch (prompts : list string) (outDir : string) : M unit :=
  ensureDir outDir;;
  let harsDir := harsDirOf outDir in
  let responsesDir := responsesDirOf outDir in
  ensureDir harsDir;;
  ensureDir responsesDir;;
  interact (SetUserAgent userAgent);;
  interact (Goto "https://chatgpt.com/");;
  sleep 10000;;
  interact (WaitForSelector editor 0);;
  for_each 0 prompts
    (processPrompt (path_basename outDir) harsDir responsesDir (length prompts)).

Definition modelName : string := "gpt-5".
Definition datasetRunNum : string := "1".

Definition csvJobs : list Job :=
  [ mkJob "./dataset/ORCAS-I-gold_label_Abstain.csv"
          ("abstain_" +:+ modelName +:+ "_" +:+ datasetRunNum) ].

(** The script's main flow. *)
Definition main (jobs : list Job) : M unit :=
  mainFlow "./puppeteer-profile" processPromptsBatch jobs.

End GPT.

(** ** The Claude runner ([Claude/index.js]) *)

Module Claude.

Definition PREFERRED_MENU_LABEL : string := "Opus 4.1".

(** [claude.selectors] *)
Definition editor : string :=
  "div.ProseMirror[role=" +:+ dq +:+ "textbox" +:+ dq +:+ "][aria-label=" +:+ dq +:+
  "Write your prompt to Claude" +:+ dq +:+ "]".
Definition sendButton : string :=
  "button[aria-label=" +:+ dq +:+ "Send message" +:+ dq +:+ "]".
Definition answerTextNodes : string := "div.font-claude-response .standard-markdown p".
Definition newChatButton : string :=
  "a[aria-label=" +:+ dq +:+ "New chat" +:+ dq +:+ "][href=" +:+ dq +:+ "/new" +:+ dq +:+ "]".
Definition modelDropdownBtn : string :=
  "button[data-testid=" +:+ dq +:+ "model-selector-dropdown" +:+ dq +:+ "]".
Definition menuContent : string :=
  "[role=" +:+ dq +:+ "menu" +:+ dq +:+ "][data-state=" +:+ dq +:+ "open" +:+ dq +:+ "]".
Definition menuItem : string :=
  menuContent +:+ " [role=" +:+ dq +:+ "menuitem" +:+ dq +:+ "]".

(** [claude.enableWeb]: nothing to do. *)
Definition enableWeb : M unit := mret tt.

(** The index the [page.$$eval] callback of [selectModel] computes: the
    first item whose trimmed lower-case text contains the needle. *)
Fixpoint menuIndex (i : nat) (texts : list string) (needle : string) : option nat :=
  match texts with
  | [] => None
  | txt :: rest =>
      if includes (toLowerCase (trim txt)) (toLowerCase needle) then Some i
      else menuIndex (S i) rest needle
  end.

(** [claude.selectModel(page, modelLabel, { timeout = 20000 })] *)
Definition selectModel (modelLabel : string) : M unit :=
  if String.eqb modelLabel EmptyString then mret tt else
  btn ← catch_with (interact (WaitForSelector modelDropdownBtn 20000);; mret true) false;
  if negb btn then mret tt else
  catch_with (interact (ElementDo "click");; mret tt) tt;;
  catch_with (interact (WaitForSelector menuContent 5000);; mret tt) tt;;
  n ← interact (EvalTexts menuItem);
  env ← ask;
  match menuIndex 0 (innerTexts env n) modelLabel with
  | Some index =>
      k ← interact (QueryAll menuItem);
      if bool_decide (index < length (innerTexts env k))%nat then
        catch_with (interact (ElementDo "click");; mret tt) tt;;
        sleep 400
      else throw "Cannot read properties of undefined (reading 'click')"
  | None =>
      console_warn ("⚠️ Model menu item not found for: " +:+ dq +:+ modelLabel +:+ dq)
  end.

(** [claude.submitPrompt(page, text)] *)
Definition submitPrompt (content : string) : M unit :=
  interact (WaitForSelector editor 15000);;
  interact (EditorClick 80);;
  interact (KeyDown "Control");;
  interact (KeyPress "A");;
  interact (KeyUp "Control");;
  interact (EditorType content 40);;
  interact (Click sendButton);;
  mret tt.

(** [claude.readVisibleText(page)]: the paragraphs of the latest response
    block, the empty string when the evaluation fails. *)
Definition visibleText (texts : list string) : string :=
  join (nl +:+ nl)
       (filter (fun t => negb (String.eqb t EmptyString) && negb (blank t)) texts).

Definition readVisibleText : M string :=
  catch_with
    (n ← interact (EvalTexts answerTextNodes);
     env ← ask;
     mret (visibleText (innerTexts env n)))
    EmptyString.

(** [claude.newChat(page)] *)
Definition newChat : M unit :=
  n ← interact (Query newChatButton);
  env ← ask;
  if present env n then interact (ElementDo "click");; mret tt else mret tt.

(** [waitForClaudeStability(page, { stabilityMs, maxTimeout, pollInterval })] *)
Definition waitForClaudeStability (stabilityMs maxTimeout pollInterval : Z) : M string :=
  waitForStability readVisibleText stabilityMs maxTimeout pollInterval.

(** What the runner sends for a catalog query. *)
Definition promptOf (query : string) : string := "Search the web for: " +:+ query.

(** The [try] block of a prompt: up to the detector, and from it. *)
Definition submitAndCapture (promptText : string) : M unit :=
  enableWeb;;
  submitPrompt promptText;;
  captureSse.

Definition attempt (idx : nat) (promptText : string) : M unit :=
  submitAndCapture promptText;;
  answer ← waitForClaudeStability 3000 60000 1000;
  modify (set_finalAnswer answer);;
  reportAnswer idx answer;;
  sleep 1000.

(** [// Start a new chat for the next prompt] *)
Definition resetSession : M unit :=
  try_catch
    (newChat;;
     sleep 2000;;
     interact (WaitForSelector editor 15000);;
     catch_with (selectModel PREFERRED_MENU_LABEL) tt)
    (fun e =>
       console_warn ("New chat click failed; attempting fallback reload: " +:+ e);;
       interact (Goto "https://claude.ai/new");;
       sleep 5000;;
       interact (WaitForSelector editor 0);;
       catch_with (selectModel PREFERRED_MENU_LABEL) tt).

(** The body of the [for] loop of [processPromptsBatch]. *)
Definition processPrompt (label harsDir responsesDir : string) (total : nat)
    (idx : nat) (query : string) : M unit :=
  let promptText := promptOf query in
  let harFilename := harName harsDir idx in
  let answerFilename := answerName responsesDir idx in
  opening label total idx promptText harFilename;;
  guarded (attempt idx promptText) idx harFilename answerFilename promptText;;
  resetSession.

(** [modelParts.join('_') || 'claude'] *)
Definition model (outDir : string) : string :=
  let m := modelParts outDir in
  if String.eqb m EmptyString then "claude" else m.

Definition harsDirOf (outDir : string) : string :=
  path_join outDir (category outDir +:+ "_hars_" +:+ model outDir).

Definition responsesDirOf (outDir : string) : string :=
  path_join outDir (category outDir +:+ "_responses_" +:+ model outDir).

(** [processPromptsBatch(page, prompts, outDir, startIdx = 0)] *)
Definition processPromptsBatch (prompts : list string) (outDir : string) : M unit :=
  ensureDir outDir;;
  let harsDir := harsDirOf outDir in
  let responsesDir := responsesDirOf outDir in
  ensureDir harsDir;;
  ensureDir responsesDir;;
  interact (SetUserAgent userAgent);;
  interact (Goto "https://claude.ai/");;
  sleep 10000;;
  interact (WaitForSelector editor 0);;
  catch_with (selectModel PREFERRED_MENU_LABEL) tt;;
  for_each 0 prompts
    (processPrompt (path_basename outDir) harsDir responsesDir (length prompts)).

Definition modelName : string := "opus-4.1".
Definition datasetRunNum : string := "1".

Definition csvJobs : list Job :=
  [ mkJob "./dataset/ORCAS-I-gold_label_Factual.csv"
          ("factual_" +:+ modelName +:+ "_" +:+ datasetRunNum) ].

(** The script's main flow. *)
Definition main (jobs : list Job) : M unit :=
  mainFlow "./puppeteer-profile-claude" processPromptsBatch jobs.

End Claude.

(** ** The offline reconstructor

    [reconstruct_answers.py] is not among the sources at hand; this section
    follows its description in the design document. *)

Section Reconstructor.

(** Modelled from the spec: what the payload of a data record of
    [reconstruct_answers.py] (not among the sources) stands for: an
    incremental text delta, a heartbeat or control marker, or the terminal
    marker. *)
Inductive Payload :=
  | Delta (delta : string)
  | Control
  | Terminal.

(** Modelled from the spec: the adapter-specific schema of a payload, that
    is, how [reconstruct_answers.py] (not among the sources) reads one. *)
Variable decode : string -> Payload.

(** Modelled from the spec: the event records of a stream body, in
    [reconstruct_answers.py] (not among the sources).  Records are runs of
    lines separated by empty lines. *)
Fixpoint eventRecords (lines current : list string) : list (list string) :=
  match lines with
  | [] => match current with [] => [] | _ => [rev current] end
  | line :: rest =>
      if String.eqb line EmptyString
      then match current with
           | [] => eventRecords rest []
           | _ => rev current :: eventRecords rest []
           end
      else eventRecords rest (line :: current)
  end.

(** Modelled from the spec: what a [data:] line of a record holds, in
    [reconstruct_answers.py] (not among the sources); [None] for a line of
    another kind. *)
Definition dataOf (line : string) : option string :=
  if String.prefix "data:" line
  then Some (trimStart (String.substring 5 (String.length line - 5) line))
  else None.

(** Modelled from the spec: the payload of a record of
    [reconstruct_answers.py] (not among the sources), its data lines joined
    and decoded. *)
Definition payloadOf (record : list string) : option Payload :=
  match omap dataOf record with
  | [] => None
  | datas => Some (decode (join nl datas))
  end.

(** Modelled from the spec: the reassembly of [reconstruct_answers.py] (not
    among the sources): deltas in order, control records skipped, up to the
    terminal marker. *)
Fixpoint assemble (payloads : list Payload) : string :=
  match payloads with
  | [] => EmptyString
  | Delta delta :: rest => delta +:+ assemble rest
  | Control :: rest => assemble rest
  | Terminal :: _ => EmptyString
  end.

(** Modelled from the spec: the reconstruction of [reconstruct_answers.py]
    (not among the sources) from one archive: the streaming entry is found
    as the correlator finds it. *)
Definition reconstruct (h : Har) : option string :=
  entry ← List.find isEventStream (entries h);
  body ← (response entry ≫= content) ≫= text;
  Some (assemble (omap payloadOf (eventRecords (split (ascii_of_nat 10) body) []))).

(** Modelled from the spec: the replacement of the placeholder by
    [reconstruct_answers.py] (not among the sources): every occurrence of
    the needle, left to right. *)
Fixpoint replaceAllFrom (skip : nat) (needle by_ s : string) : string :=
  match s with
  | EmptyString => EmptyString
  | String c rest =>
      match skip with
      | S skip' => replaceAllFrom skip' needle by_ rest
      | O =>
          if String.prefix needle s
          then by_ +:+ replaceAllFrom (String.length needle - 1) needle by_ rest
          else String c (replaceAllFrom 0 needle by_ rest)
      end
  end.

(** Modelled from the spec: what [reconstruct_answers.py] (not among the
    sources) reads to reconstruct the answer of a trace file: that file
    alone. *)
Definition reconstructedText (tracePath : string) (fs : gmap string File) : option string :=
  match fs !! tracePath with
  | Some (HarFile h) => reconstruct h
  | _ => None
  end.

(** Modelled from the spec: one run of [reconstruct_answers.py] (not among
    the sources) on a trace file and its response artifact: the
    reconstructed text replaces the placeholder in the artifact. *)
Definition reconstructPass (tracePath responsePath : string)
    (fs : gmap string File) : gmap string File :=
  match reconstructedText tracePath fs, fs !! responsePath with
  | Some answer, Some (TextFile artifact) =>
      <[responsePath := TextFile (replaceAllFrom 0 placeholder answer artifact)]> fs
  | _, _ => fs
  end.

End Reconstructor.

(** ** Vocabulary of the statements about the detectors *)

(** The read at step [n] succeeds at once and shows [s]; [seen] is how the
    runner renders the texts it finds ([GPT.visibleText],
    [Claude.visibleText]). *)
Definition shows (seen : list string -> string) (env : Env) (n : nat) (s : string) : Prop :=
  failure env n = None /\ latency env n = 0%N /\ seen (innerTexts env n) = s.

(** The world after [k] polls that each read at once and then slept for
    the poll interval. *)
Definition polled (c : Call) (pollInterval : Z) (k : nat) (w : World) : World :=
  Nat.iter k (fun w => advance (nap pollInterval) (advance 0 (record_call c w))) w.

(** The two runners, for the statements that hold of both. *)
Inductive Runner := ChatGPT | ClaudeAI.

Definition detector (r : Runner) : Z -> Z -> Z -> M string :=
  match r with
  | ChatGPT => GPT.waitForResponseStability
  | ClaudeAI => Claude.waitForClaudeStability
  end.

Definition reader (r : Runner) : M string :=
  match r with
  | ChatGPT => GPT.readParagraphs
  | ClaudeAI => Claude.readVisibleText
  end.

Definition rendering (r : Runner) : list string -> string :=
  match r with
  | ChatGPT => GPT.visibleText
  | ClaudeAI => Claude.visibleText
  end.

Definition pollCall (r : Runner) : Call :=
  match r with
  | ChatGPT => EvalTexts "p"
  | ClaudeAI => EvalTexts Claude.answerTextNodes
  end.

(** ** Sample environments and worlds, for the examples *)

(** A browser in which every call succeeds at once and nothing is
    rendered, on a host that refuses no write. *)
Definition quiet : Env :=
  mkEnv (fun _ => 0%N) (fun _ => None) (fun _ => []) (fun _ => true)
        (fun _ => EmptyString) (fun _ => mkHar [] []) (fun _ => None)
        (fun _ => inr []) (fun _ => "Unexpected token") (fun _ => "2025-01-01T00:00:00.000Z")
        (fun p => "/home/user/" +:+ p) (fun _ => "{}").

(** [env], but showing [texts] to the DOM queries. *)
Definition rendering_texts (texts : nat -> list string) (env : Env) : Env :=
  mkEnv (latency env) (failure env) texts (present env) (streamBody env) (recorded env)
        (denied env) (parse env) (notAnArchive env) (toISOString env) (resolve env)
        (render env).

(** [env], but with the calls failing as [fails] says. *)
Definition failing (fails : nat -> option string) (env : Env) : Env :=
  mkEnv (latency env) fails (innerTexts env) (present env) (streamBody env) (recorded env)
        (denied env) (parse env) (notAnArchive env) (toISOString env) (resolve env)
        (render env).

(** [env], but with csv-parse answering [rows] on every text. *)
Definition parsing (rows : string + list Row) (env : Env) : Env :=
  mkEnv (latency env) (failure env) (innerTexts env) (present env) (streamBody env)
        (recorded env) (denied env) (fun _ => rows) (notAnArchive env) (toISOString env)
        (resolve env) (render env).

(** A page that shows [a] to the first three reads and [b] to the later ones. *)
Definition aaabbb : Env :=
  rendering_texts (fun n => if (n <? 3)%nat then ["a"] else ["b"]) quiet.

Definition startWorld : World :=
  mkWorld 0 0 ∅ ∅ [] [] EmptyString EmptyString.

(** What each runner sends for a catalog query, and the parts of its loop
    body. *)
Definition promptTextOf (r : Runner) (query : string) : string :=
  match r with
  | ChatGPT => query
  | ClaudeAI => Claude.promptOf query
  end.

Definition submitAndCaptureOf (r : Runner) : string -> M unit :=
  match r with
  | ChatGPT => GPT.submitAndCapture
  | ClaudeAI => Claude.submitAndCapture
  end.

Definition attemptOf (r : Runner) : nat -> string -> M unit :=
  match r with
  | ChatGPT => GPT.attempt
  | ClaudeAI => Claude.attempt
  end.

Definition sessionResetOf (r : Runner) : M unit :=
  match r with
  | ChatGPT => GPT.newChat
  | ClaudeAI => Claude.resetSession
  end.

Definition processPromptOf (r : Runner) :
    string -> string -> string -> nat -> nat -> string -> M unit :=
  match r with
  | ChatGPT => GPT.processPrompt
  | ClaudeAI => Claude.processPrompt
  end.

Definition processPromptsBatchOf (r : Runner) : list string -> string -> M unit :=
  match r with
  | ChatGPT => GPT.processPromptsBatch
  | ClaudeAI => Claude.processPromptsBatch
  end.

Definition mainOf (r : Runner) : list Job -> M unit :=
  match r with
  | ChatGPT => GPT.main
  | ClaudeAI => Claude.main
  end.

#[global] Instance Call_eq_dec : EqDecision Call.
Proof. solve_decision. Defined.

Definition isEditorType (c : Call) : bool :=
  match c with
  | EditorType _ _ => true
  | _ => false
  end.

(** A page that answers every read with one paragraph. *)
Definition answering : Env := rendering_texts (fun _ => ["Paris."]) quiet.

(** [env], but with the call of step [k] failing on a detached node. *)
Definition detachedAt (k : nat) (env : Env) : Env :=
  failing (fun n => if (n =? k)%nat then Some "Node is detached from document" else None) env.


(** Sample archive: a page, the streaming exchange with the empty body the
    recorder left, and a second streaming exchange. *)
Definition pageEntry : Entry :=
  mkEntry (Some (mkResponse (Some (mkContent (Some "text/html") (Some "<html></html>")
                                             (Some 13) []))
                            [("status", "200")]))
          [("request", "GET /")].

Definition streamEntry (body : string) : Entry :=
  mkEntry (Some (mkResponse (Some (mkContent (Some "text/event-stream") (Some body)
                                             (Some (Buffer_byteLength body)) []))
                            [("status", "200")]))
          [("request", "POST /conversation")].

Definition sampleHar : Har :=
  mkHar [pageEntry; streamEntry EmptyString; streamEntry "data: other"] [("version", "1.2")].

Definition plainHar : Har := mkHar [pageEntry] [("version", "1.2")].

(** A world whose only file is the trace [trace.har], holding [h]. *)
Definition withTrace (h : Har) : World :=
  mkWorld 0 0 {["trace.har" := HarFile h]} ∅ [] [] EmptyString EmptyString.

(** A sample schema of payloads: [[DONE]] ends the stream, [ping] is a
    heartbeat, anything else is a text delta. *)
Definition sampleDecode (payload : string) : Payload :=
  if String.eqb payload "[DONE]" then Terminal
  else if String.eqb payload "ping" then Control
  else Delta payload.

Definition helloStream : string :=
  "data: Hel" +:+ nl +:+ nl +:+ "data: ping" +:+ nl +:+ nl +:+ "data: lo" +:+ nl +:+ nl +:+
  "data: [DONE]" +:+ nl +:+ nl +:+ "data: ignored" +:+ nl.

(** The text of a file, as [fileText] yields it. *)
Definition textOf (env : Env) (f : File) : string :=
  match f with
  | TextFile s => s
  | HarFile h => render env h
  end.

(** A catalog source that cannot be loaded: the file is missing, or no row
    csv-parse makes of it has a [query] cell (which is what a header
    without that column gives). *)
Definition missing (w : World) (csvFile : string) : Prop :=
  files w !! csvFile = None /\ csvFile ∉ dirs w.

Definition lacksQuery (env : Env) (w : World) (csvFile : string) : Prop :=
  exists f rows, files w !! csvFile = Some f /\ parse env (textOf env f) = inr rows /\
    forall row, row ∈ rows -> cell "query" row = None.

(** A world whose only file is the catalog [prompts.csv]. *)
Definition withCatalog : World :=
  mkWorld 0 0 {["prompts.csv" := TextFile "id,text"]} ∅ [] [] EmptyString EmptyString.

(** A page whose answer never shows in the DOM, while the stream that
    carries it is captured and the recorder leaves the streaming entry with
    an empty body. *)
Definition capturing : Env :=
  mkEnv (fun _ => 0%N) (fun _ => None) (fun _ => []) (fun _ => true)
        (fun _ => helloStream) (fun _ => mkHar [pageEntry; streamEntry EmptyString] [])
        (fun _ => None) (fun _ => inr []) (fun _ => "Unexpected token")
        (fun _ => "2025-01-01T00:00:00.000Z") (fun p => "/home/user/" +:+ p)
        (fun _ => "{}").

(** ** Footprints of a script *)

(** [respects R m]: every run of [m] ends in a world related to the one it
    started in. *)
Definition respects (R : relation World) {A} (m : M A) : Prop :=
  forall env w, R w (m env w).2.

(** [total m]: no run of [m] diverges. *)
Definition total {A} (m : M A) : Prop :=
  forall env w, (m env w).1 <> Diverged.

(** [keeps p]: the projection [p] of the world is left as it was. *)
Definition keeps {B} (p : World -> B) : relation World := fun w w' => p w' = p w.

(** [appending P]: calls were added, all of them satisfying [P]. *)
Definition appending (P : Call -> Prop) : relation World :=
  fun w w' => exists l, calls w' = (calls w ++ l)%list /\ Forall P l.

(** [later]: the clock did not go back. *)
Definition later : relation World := fun w w' => clock w <= clock w'.

(** The last character of a string. *)
Fixpoint lastChar (s : string) : option ascii :=
  match s with
  | EmptyString => None
  | String c rest =>
      match lastChar rest with
      | None => Some c
      | Some d => Some d
      end
  end.
(** ** The chat remover ([GPT/delete_chats.js]) *)

Module DeleteChats.

Definition chatRow : string := "a[href^=" +:+ dq +:+ "/c/" +:+ dq +:+ "]".
Definition optionsButton : string :=
  "button[data-testid$=" +:+ dq +:+ "-options" +:+ dq +:+ "]".
Definition menuContent : string := "[data-radix-menu-content]".
Definition dialog : string :=
  "[role=" +:+ dq +:+ "dialog" +:+ dq +:+ "], [data-state=" +:+ dq +:+ "open" +:+ dq +:+ "]".

(** [deleteOnce()]: [false] when there is no chat row, or none with a box.
    At the step of a [boundingBox] call, [present] tells whether the row
    has a box; the mouse is moved to the centre of that box; the two
    [page.evaluate] calls click the menu's delete item and the dialog's
    confirmation inside the page. *)
Definition deleteOnce : M bool :=
  n ← interact (Query chatRow);
  env ← ask;
  if negb (present env n) then mret false else
  b ← interact (ElementDo "boundingBox");
  box ← (if present env b then mret true
         else
           try_catch (interact (ElementDo "scrollIntoView");; mret tt) (fun _ => mret tt);;
           sleep 50;;
           b' ← interact (ElementDo "boundingBox");
           mret (present env b'));
  if negb box then mret false else
  interact (ElementDo "mouse.move");;
  sleep 100;;
  try_catch (interact (WaitForSelector optionsButton 2000);; mret tt)
            (fun _ => throw "options-not-visible");;
  interact (Click optionsButton);;
  interact (WaitForSelector menuContent 5000);;
  interact (ElementDo "evaluate: click Delete");;
  interact (WaitForSelector dialog 5000);;
  interact (ElementDo "evaluate: confirm Delete");;
  sleep 1000;;
  mret true.

(** The errors the loop retries once. *)
Definition retryable (msg : string) : bool :=
  includes msg "detached" || includes msg "options-not-visible".

(** One turn of the [while (true)] loop, up to its last [sleep]: [true]
    when the turn breaks out of the loop. *)
Definition turn : M bool :=
  try_catch
    (ok ← deleteOnce;
     if negb ok then mret true
     else console_log "🗑 Deleted one chat";; mret false)
    (fun e =>
       if retryable e then
         try_catch
           (sleep 150;;
            ok ← deleteOnce;
            if negb ok then mret true
            else console_log "🗑 Deleted one chat (after retry)";; mret false)
           (fun e2 =>
              console_warn ("⚠️ Skipping one due to rapid re-render: " +:+ e2);;
              mret false)
       else console_warn ("⚠️ Skipping one: " +:+ e);; mret false).

(** [while (true) { ... await sleep(100); }]; [fuel] bounds the turns. *)
Fixpoint deleteLoop (fuel : nat) : M unit :=
  match fuel with
  | O => diverge
  | S fuel' =>
      stop ← turn;
      if stop : bool then mret tt else sleep 100;; deleteLoop fuel'
  end.

(** The script. *)
Definition main (fuel : nat) : M unit :=
  interact (Launch "./puppeteer-profile");;
  interact Pages;;
  interact (Goto "https://chatgpt.com/");;
  interact (WaitForSelector chatRow 60000);;
  deleteLoop fuel;;
  console_log "✅ Done (no more visible chats).";;
  interact Close;;
  mret tt.

End DeleteChats.

(** ** Vocabulary of the statements about the recorder and the remover *)

(** The calls on the recorder: [har.start] and [har.stop]. *)
Definition isRecorderCall (c : Call) : bool :=
  match c with
  | HarStart _ | HarStop => true
  | _ => false
  end.

(** The call that opens a [deleteOnce]: the query for the first chat row. *)
Definition isRowQuery (c : Call) : bool :=
  bool_decide (c = Query DeleteChats.chatRow).

(** The line feed, as a character. *)
Definition lf : ascii := ascii_of_nat 10.

(** [env], but with no element found by any query. *)
Definition finding_nothing (env : Env) : Env :=
  mkEnv (latency env) (failure env) (innerTexts env) (fun _ => false) (streamBody env)
        (recorded env) (denied env) (parse env) (notAnArchive env) (toISOString env)
        (resolve env) (render env).

(** [untouched p]: the path [p] holds the same file, or none, and is a
    directory or not, as before. *)
Definition untouched (p : string) : relation World :=
  fun w w' => files w' !! p = files w !! p /\ (p ∈ dirs w' <-> p ∈ dirs w).

(** The strings made of ASCII characters alone (bytes below 128): on these
    [toLowerCase] is [String.prototype.toLowerCase] and [trim] is
    [String.prototype.trim]. *)
Definition asciiOnly (s : string) : bool :=
  forallb (fun c => (N_of_ascii c <? 128)%N) (list_ascii_of_string s).

(** The rows csv-parse makes, with [columns: true] and
    [relax_column_count: true], of the catalog [id,query] with the short
    row [1] and the row [2,largest ocean]: a short row has no cell for the
    columns it leaves out. *)
Definition shortFirstRow : list Row :=
  [ [("id", "1")]; [("id", "2"); ("query", "largest ocean")] ].

(** A world whose only file is that catalog. *)
Definition withShortFirstRow : World :=
  mkWorld 0 0
    {["prompts.csv" :=
        TextFile ("id,query" +:+ nl +:+ "1" +:+ nl +:+ "2,largest ocean" +:+ nl)]}
    ∅ [] [] EmptyString EmptyString.

(** ** The response promise

    Both runners create the promise of [page.waitForResponse], with its
    timeout of 120 s, before they type the prompt, and await it once the
    prompt is sent.  A promise that rejects while nothing awaits it ends
    the Node process; the scripts above have no such exit, so the
    statements about what a run goes on to do are about the runs in which
    every typing sequence came to its end before the timeout. *)

(** The calls of the typing sequences: [submitPrompt] of the Claude runner
    and the [// Type + submit] block of the ChatGPT runner. *)
Definition isTypingCall (c : Call) : bool :=
  match c with
  | WaitForSelector s t =>
      bool_decide (t = 15000) && (String.eqb s GPT.editor || String.eqb s Claude.editor)
  | EditorClick _ | EditorType _ _ | EditorPress _ => true
  | KeyDown k | KeyUp k => String.eqb k "Control"
  | KeyPress k => String.eqb k "A"
  | Click s => String.eqb s Claude.sendButton
  | _ => false
  end.

(** The typing sequence of a runner. *)
Definition typingOf (r : Runner) : string -> M unit :=
  match r with
  | ChatGPT => GPT.typeAndSubmit
  | ClaudeAI => Claude.submitPrompt
  end.

(** Calls made one after the other, up to the first that rejects. *)
Fixpoint calling (cs : list Call) : M unit :=
  match cs with
  | [] => mret tt
  | c :: rest => interact c;; calling rest
  end.



(** ** Paths as the file system sees them

    The files of a world are kept by the spelling of their path.  On the
    spellings below that is safe: a relative path with no empty, [.] or
    [..] segment is the only such spelling of its file, and it is what
    [path.join] makes of plain names. *)
Definition plainSegment (s : string) : bool :=
  negb (String.eqb s EmptyString) && negb (String.eqb s ".") && negb (String.eqb s "..").

Definition normalised (p : string) : bool := forallb plainSegment (split "/"%char p).

(** A plain name: one segment.  [fs.mkdirSync(name, { recursive: true })]
    then makes that directory alone, its parent being the working
    directory. *)
Definition plainName (s : string) : bool := plainSegment s && negb (includes s "/").

(** The directory the [userDataDir] of a runner names, in which the
    browser keeps its profile. *)
Definition profileDir (r : Runner) : string :=
  match r with
  | ChatGPT => "puppeteer-profile"
  | ClaudeAI => "puppeteer-profile-claude"
  end.

(** * Properties *)

(** ** Runs of the monad *)

Lemma run_bind {A B} (m : M A) (f : A -> M B) env w :
  (m ≫= f) env w =
  match m env w with
  | (Returned a, w') => f a env w'
  | (Thrown e, w') => (Thrown e, w')
  | (Diverged, w') => (Diverged, w')
  end.
Proof. reflexivity. Qed.

Lemma run_bind_returned {A B} (m : M A) (f : A -> M B) env w a w' :
  m env w = (Returned a, w') -> (m ≫= f) env w = f a env w'.
Proof. intros H. rewrite run_bind, H. reflexivity. Qed.

Lemma run_bind_thrown {A B} (m : M A) (f : A -> M B) env w e w' :
  m env w = (Thrown e, w') -> (m ≫= f) env w = (Thrown e, w').
Proof. intros H. rewrite run_bind, H. reflexivity. Qed.

Lemma run_try_catch_returned {A} (m : M A) h env w a w' :
  m env w = (Returned a, w') -> try_catch m h env w = (Returned a, w').
Proof. intros H. unfold try_catch. rewrite H. reflexivity. Qed.

Lemma run_try_catch_thrown {A} (m : M A) h env w e w' :
  m env w = (Thrown e, w') -> try_catch m h env w = h e env w'.
Proof. intros H. unfold try_catch. rewrite H. reflexivity. Qed.

(** ** Footprints: what a script leaves related *)

Section Respects.
Context (R : relation World) `{!PreOrder R}.

Lemma respects_ret {A} (a : A) : respects R (mret a).
Proof. intros env w. reflexivity. Qed.

Lemma respects_throw {A} e : respects R (@throw A e).
Proof. intros env w. reflexivity. Qed.

Lemma respects_diverge {A} : respects R (@diverge A).
Proof. intros env w. reflexivity. Qed.

Lemma respects_ask : respects R ask.
Proof. intros env w. reflexivity. Qed.

Lemma respects_get : respects R get.
Proof. intros env w. reflexivity. Qed.

Lemma respects_modify f : (forall w, R w (f w)) -> respects R (modify f).
Proof. intros H env w. apply H. Qed.

Lemma respects_interact c :
  (forall w ms, R w (advance (Z.of_N ms) (record_call c w))) -> respects R (interact c).
Proof.
  intros H env w. unfold interact.
  destruct (failure env (tick w)); apply H.
Qed.

Lemma respects_bind {A B} (m : M A) (f : A -> M B) :
  respects R m -> (forall a, respects R (f a)) -> respects R (m ≫= f).
Proof.
  intros Hm Hf env w. rewrite run_bind.
  specialize (Hm env w). destruct (m env w) as [[a|e|] w']; simpl in *; try done.
  etransitivity; [exact Hm|apply Hf].
Qed.

Lemma respects_try_catch {A} (m : M A) h :
  respects R m -> (forall e, respects R (h e)) -> respects R (try_catch m h).
Proof.
  intros Hm Hh env w. unfold try_catch.
  specialize (Hm env w). destruct (m env w) as [[a|e|] w']; simpl in *; try done.
  etransitivity; [exact Hm|apply Hh].
Qed.

Lemma respects_catch_with {A} (m : M A) a :
  respects R m -> respects R (catch_with m a).
Proof. intros Hm. apply respects_try_catch; [done|]. intros e. apply respects_ret. Qed.

Lemma respects_try_finally {A} (m : M A) fin :
  respects R m -> respects R fin -> respects R (try_finally m fin).
Proof.
  intros Hm Hf env w. unfold try_finally.
  specialize (Hm env w). destruct (m env w) as [[a|e|] w']; simpl in *; try done.
  - specialize (Hf env w'). destruct (fin env w') as [[[]|e'|] w'']; simpl in *;
      (etransitivity; [exact Hm|exact Hf]).
  - specialize (Hf env w'). destruct (fin env w') as [[[]|e'|] w'']; simpl in *;
      (etransitivity; [exact Hm|exact Hf]).
Qed.


Lemma respects_map_each {A B} (f : A -> M B) items :
  (forall item, respects R (f item)) -> respects R (map_each f items).
Proof.
  intros Hf. induction items as [|item rest IH]; simpl.
  - apply respects_ret.
  - apply respects_bind; [apply Hf|]. intros b.
    apply respects_bind; [apply IH|]. intros bs. apply respects_ret.
Qed.

End Respects.

Section Total.

Lemma total_ret {A} (a : A) : total (mret a).
Proof. intros env w. done. Qed.

Lemma total_throw {A} e : total (@throw A e).
Proof. intros env w. done. Qed.

Lemma total_ask : total ask.
Proof. intros env w. done. Qed.

Lemma total_get : total get.
Proof. intros env w. done. Qed.

Lemma total_modify f : total (modify f).
Proof. intros env w. done. Qed.

Lemma total_interact c : total (interact c).
Proof. intros env w. unfold interact. destruct (failure env (tick w)); done. Qed.

Lemma total_bind {A B} (m : M A) (f : A -> M B) :
  total m -> (forall a, total (f a)) -> total (m ≫= f).
Proof.
  intros Hm Hf env w. rewrite run_bind.
  specialize (Hm env w). destruct (m env w) as [[a|e|] w']; simpl in *; try done.
  apply Hf.
Qed.

Lemma total_try_catch {A} (m : M A) h :
  total m -> (forall e, total (h e)) -> total (try_catch m h).
Proof.
  intros Hm Hh env w. unfold try_catch.
  specialize (Hm env w). destruct (m env w) as [[a|e|] w']; simpl in *; try done.
  apply Hh.
Qed.

Lemma total_catch_with {A} (m : M A) a : total m -> total (catch_with m a).
Proof. intros Hm. apply total_try_catch; [done|]. intros e. apply total_ret. Qed.

Lemma total_try_finally {A} (m : M A) fin :
  total m -> total fin -> total (try_finally m fin).
Proof.
  intros Hm Hf env w. unfold try_finally.
  specialize (Hm env w). destruct (m env w) as [[a|e|] w']; simpl in *; try done.
  - specialize (Hf env w'). destruct (fin env w') as [[[]|e'|] w'']; simpl in *; done.
  - specialize (Hf env w'). destruct (fin env w') as [[[]|e'|] w'']; simpl in *; done.
Qed.

Lemma total_for_each {A} (body : nat -> A -> M unit) items :
  (forall i item, total (body i item)) ->
  forall idx, total (for_each idx items body).
Proof.
  intros Hb. induction items as [|item rest IH]; intros idx; simpl.
  - apply total_ret.
  - apply total_bind; [apply Hb|]. intros _. apply IH.
Qed.

Lemma total_map_each {A B} (f : A -> M B) items :
  (forall item, total (f item)) -> total (map_each f items).
Proof.
  intros Hf. induction items as [|item rest IH]; simpl.
  - apply total_ret.
  - apply total_bind; [apply Hf|]. intros b.
    apply total_bind; [apply IH|]. intros bs. apply total_ret.
Qed.

End Total.

(** *** The relations used below *)

#[global] Instance keeps_preorder {B} (p : World -> B) : PreOrder (keeps p).
Proof.
  split.
  - intros w. reflexivity.
  - intros w1 w2 w3 H12 H23. unfold keeps in *. congruence.
Qed.

#[global] Instance appending_preorder (P : Call -> Prop) : PreOrder (appending P).
Proof.
  split.
  - intros w. exists []. split; [by rewrite app_nil_r|constructor].
  - intros w1 w2 w3 (l1 & E1 & F1) (l2 & E2 & F2). exists (l1 ++ l2)%list. split.
    + rewrite E2, E1, app_assoc. reflexivity.
    + apply Forall_app. done.
Qed.

Lemma appending_call P c w ms : P c -> appending P w (advance ms (record_call c w)).
Proof. intros H. exists [c]. split; [reflexivity|]. by constructor. Qed.

Lemma appending_same P w w' : calls w' = calls w -> appending P w w'.
Proof. intros H. exists []. split; [by rewrite app_nil_r|constructor]. Qed.

#[global] Instance later_preorder : PreOrder later.
Proof.
  split.
  - intros w. unfold later. lia.
  - intros w1 w2 w3. unfold later. lia.
Qed.

(** *** Automation *)

Ltac unfold_script :=
  unfold sleep, Date_now, Date_toISOString, console_log, console_warn, console_error,
    fs_existsSync, fs_mkdirSync, fs_readFileSync, fs_writeFileSync, fileText,
    JSON_parse, path_resolve, ensureDir, har_stop, stopHar, injectSseIntoHar,
    saveAnswer, finishPrompt, reportAnswer, captureSse, opening, guarded,
    loadCsvPrompts, savePromptsCatalog, loadJob,
    GPT.waitForRoleWithText, GPT.safeClick, GPT.enableWebSearch, GPT.readParagraphs,
    GPT.typeAndSubmit, GPT.submitAndCapture, GPT.newChat,
    Claude.enableWeb, Claude.selectModel, Claude.submitPrompt, Claude.readVisibleText,
    Claude.newChat, Claude.submitAndCapture, Claude.resetSession.

Lemma respects_for_each_in (R : relation World) `{!PreOrder R} {A}
    (body : nat -> A -> M unit) items :
  (forall i item, item ∈ items -> respects R (body i item)) ->
  forall idx, respects R (for_each idx items body).
Proof.
  induction items as [|item rest IH]; intros Hb idx; simpl.
  - apply (respects_ret R).
  - apply (respects_bind R).
    + apply Hb. by left.
    + intros _. apply IH. intros i x Hx. apply Hb. by right.
Qed.

(** One step of a footprint proof, by the shape of the script. *)
Ltac respects_step side :=
  lazymatch goal with
  | |- respects ?R (mret _) => apply (respects_ret R)
  | |- respects ?R (throw _) => apply (respects_throw R)
  | |- respects ?R diverge => apply (respects_diverge R)
  | |- respects ?R ask => apply (respects_ask R)
  | |- respects ?R get => apply (respects_get R)
  | |- respects ?R (modify _) => apply (respects_modify R); intros ?; side
  | |- respects ?R (interact _) => apply (respects_interact R); intros ? ?; side
  | |- respects ?R (catch_with _ _) => apply (respects_catch_with R)
  | |- respects ?R (try_catch _ _) => apply (respects_try_catch R); [|intros ?]
  | |- respects ?R (try_finally _ _) => apply (respects_try_finally R)
  | |- respects ?R (for_each _ _ _) => apply (respects_for_each_in R); intros ? ? ?
  | |- respects ?R (map_each _ _) => apply (respects_map_each R); intros ?
  | |- respects ?R (_ ≫= _) => apply (respects_bind R); [|intros ?]
  | |- respects _ (match ?x with _ => _ end) => destruct x
  | |- respects _ (let _ := _ in _) => cbv zeta
  | |- respects _ _ => first [ assumption | progress unfold_script ]
  end.

Ltac total_step :=
  lazymatch goal with
  | |- total (mret _) => apply total_ret
  | |- total (throw _) => apply total_throw
  | |- total ask => apply total_ask
  | |- total get => apply total_get
  | |- total (modify _) => apply total_modify
  | |- total (interact _) => apply total_interact
  | |- total (catch_with _ _) => apply total_catch_with
  | |- total (try_catch _ _) => apply total_try_catch; [|intros ?]
  | |- total (try_finally _ _) => apply total_try_finally
  | |- total (for_each _ _ _) => apply total_for_each; intros ? ?
  | |- total (map_each _ _) => apply total_map_each; intros ?
  | |- total (_ ≫= _) => apply total_bind; [|intros ?]
  | |- total (match ?x with _ => _ end) => destruct x
  | |- total (let _ := _ in _) => cbv zeta
  | |- total _ => first [ assumption | progress unfold_script ]
  end.

Lemma respects_safeClickLoop (R : relation World) `{!PreOrder R} selector timeout :
  (forall c w ms, R w (advance (Z.of_N ms) (record_call c w))) ->
  (forall w ms, R w (advance ms w)) ->
  forall remaining, respects R (GPT.safeClickLoop remaining selector timeout).
Proof.
  intros Hcall Hadv. induction remaining as [|k IH]; simpl.
  - apply (respects_throw R).
  - repeat respects_step ltac:(first [apply Hcall | apply Hadv]).
Qed.

Lemma total_safeClickLoop selector timeout remaining :
  total (GPT.safeClickLoop remaining selector timeout).
Proof. induction remaining as [|k IH]; simpl; repeat total_step. Qed.

Lemma respects_stabilityLoop (R : relation World) `{!PreOrder R} read sMs mT pI start :
  (forall w ms, R w (advance ms w)) ->
  respects R read ->
  forall fuel lastText since,
    respects R (stabilityLoop fuel read sMs mT pI start lastText since).
Proof.
  intros Hadv Hread. induction fuel as [|fuel IH]; intros lastText since; simpl.
  - repeat respects_step ltac:(apply Hadv).
  - repeat respects_step ltac:(apply Hadv); apply IH.
Qed.

(** The loops, then whatever is left, by unfolding. *)
Ltac respects_with side :=
  repeat first
    [ lazymatch goal with
      | |- respects ?R (GPT.safeClickLoop _ _ _) =>
          apply (respects_safeClickLoop R); [intros ? ? ?; side|intros ? ?; side]
      | |- respects ?R (stabilityLoop _ _ _ _ _ _ _ _) =>
          apply (respects_stabilityLoop R); [intros ? ?; side|]
      end
    | respects_step side
    | progress unfold waitForStability, GPT.waitForResponseStability,
        Claude.waitForClaudeStability, GPT.attempt, Claude.attempt ].

(** *** The detector always returns *)

(** One turn of the polling loop, run. *)
Lemma run_stabilityLoop fuel read sMs mT pI start lastText since env w :
  stabilityLoop fuel read sMs mT pI start lastText since env w =
  if bool_decide (clock w - start < mT) then
    match fuel with
    | O => (Diverged, w)
    | S fuel' =>
        match read env w with
        | (Returned current, w1) =>
            if String.eqb current lastText then
              if bool_decide (clock w1 - since >= sMs) then (Returned current, w1)
              else stabilityLoop fuel' read sMs mT pI start lastText since env
                                 (advance (nap pI) w1)
            else stabilityLoop fuel' read sMs mT pI start current (clock w1) env
                               (advance (nap pI) w1)
        | (Thrown e, w1) => (Thrown e, w1)
        | (Diverged, w1) => (Diverged, w1)
        end
    end
  else (Returned lastText, w).
Proof.
  destruct fuel as [|fuel]; simpl; rewrite run_bind; simpl;
    case_bool_decide; try reflexivity.
  rewrite run_bind. destruct (read env w) as [[current|e|] w1]; try reflexivity.
  destruct (String.eqb current lastText); rewrite run_bind; simpl.
  - case_bool_decide; reflexivity.
  - reflexivity.
Qed.

Lemma stabilityLoop_total read sMs mT pI start :
  respects later read -> total read ->
  forall fuel env w lastText since,
    mT - (clock w - start) <= Z.of_nat fuel ->
    (stabilityLoop fuel read sMs mT pI start lastText since env w).1 <> Diverged.
Proof.
  intros Hlater Hread.
  assert (Hnap : 1 <= nap pI) by (unfold nap; case_bool_decide; lia).
  induction fuel as [|fuel IH]; intros env w lastText since Hfuel;
    rewrite run_stabilityLoop; case_bool_decide as Htime; try done; try lia.
  pose proof (Hlater env w) as Hl. pose proof (Hread env w) as Hr.
  destruct (read env w) as [[current|e|] w1]; simpl in *; try done.
  unfold later in Hl.
  destruct (String.eqb current lastText); [case_bool_decide; [done|]|];
    apply IH; simpl; lia.
Qed.

Lemma total_waitForStability read sMs mT pI :
  respects later read -> total read -> total (waitForStability read sMs mT pI).
Proof.
  intros Hlater Hread env w. unfold waitForStability.
  rewrite run_bind. simpl. rewrite run_bind. simpl.
  apply stabilityLoop_total; [done..|]. lia.
Qed.

Ltac total_go :=
  repeat first
    [ lazymatch goal with
      | |- total (GPT.safeClickLoop _ _ _) => apply total_safeClickLoop
      | |- total (waitForStability _ _ _ _) => apply total_waitForStability
      end
    | total_step
    | progress unfold GPT.waitForResponseStability, Claude.waitForClaudeStability,
        GPT.attempt, Claude.attempt ].

Lemma later_advance w ms : 0 <= ms -> later w (advance ms w).
Proof. unfold later. simpl. lia. Qed.

Lemma later_call c w (ms : N) : later w (advance (Z.of_N ms) (record_call c w)).
Proof. unfold later. simpl. lia. Qed.

Lemma later_readParagraphs : respects later GPT.readParagraphs.
Proof. respects_with ltac:(apply later_call). Qed.

Lemma later_readVisibleText : respects later Claude.readVisibleText.
Proof. respects_with ltac:(apply later_call). Qed.

Lemma total_GPT_attempt idx promptText : total (GPT.attempt idx promptText).
Proof. total_go; first [apply later_readParagraphs | total_go]. Qed.


(** ** The blocks of the [finally] *)

Ltac run_blocks :=
  cbv [stopHar injectSseIntoHar saveAnswer har_stop try_catch interact
       fs_readFileSync fs_writeFileSync JSON_parse Date_toISOString
       console_log console_warn console_error
       mbind M_bind mret M_ret ask get modify throw].

Lemma stopHar_run harFilename env w :
  exists w', stopHar harFilename env w = (Returned tt, w') /\
    finalAnswer w' = finalAnswer w /\ sseText w' = sseText w /\
    calls w' = (calls w ++ [HarStop])%list.
Proof.
  run_blocks.
  destruct (failure env (tick w)); [|destruct (denied env harFilename)];
    eexists; (split; [reflexivity|]); simpl; auto.
Qed.

Lemma injectSseIntoHar_run harFilename sse env w :
  exists w', injectSseIntoHar harFilename sse env w = (Returned tt, w') /\
    finalAnswer w' = finalAnswer w /\ calls w' = calls w.
Proof.
  run_blocks.
  destruct (files w !! harFilename) as [[s|h]|];
    [|destruct (denied env harFilename)|destruct (bool_decide (harFilename ∈ dirs w))];
    eexists; (split; [reflexivity|]); simpl; auto.
Qed.

Lemma saveAnswer_run answerFilename promptText answer env w :
  exists w', saveAnswer answerFilename promptText answer env w = (Returned tt, w') /\
    calls w' = calls w /\
    (denied env answerFilename = None ->
     files w' !! answerFilename =
       Some (TextFile (header promptText (toISOString env (clock w)) +:+ orPlaceholder answer))).
Proof.
  run_blocks.
  destruct (denied env answerFilename);
    eexists; (split; [reflexivity|]); simpl; (split; [reflexivity|]); [done|].
  intros _. apply lookup_insert_eq.
Qed.

(** The [finally] block always completes: it stops the recorder and makes
    no other call, and it saves the answer it finds in [finalAnswer]. *)
Lemma finishPrompt_run harFilename answerFilename promptText env w :
  exists w' (t : Z), finishPrompt harFilename answerFilename promptText env w = (Returned tt, w') /\
    calls w' = (calls w ++ [HarStop])%list /\
    (denied env answerFilename = None ->
     files w' !! answerFilename =
       Some (TextFile (header promptText (toISOString env t)
                       +:+ orPlaceholder (finalAnswer w)))).
Proof.
  unfold finishPrompt.
  destruct (stopHar_run harFilename env w) as (w1 & E1 & F1 & S1 & K1).
  destruct (injectSseIntoHar_run harFilename (sseText w1) env w1) as (w2 & E2 & F2 & K2).
  destruct (saveAnswer_run answerFilename promptText (finalAnswer w2) env w2)
    as (w3 & E3 & K3 & H3).
  exists w3, (clock w2).
  split; [|split].
  - rewrite (run_bind_returned _ _ _ _ _ _ E1).
    rewrite run_bind. simpl.
    rewrite (run_bind_returned _ _ _ _ _ _ E2).
    rewrite run_bind. simpl. exact E3.
  - congruence.
  - intros Hd. rewrite (H3 Hd). rewrite F2, F1. reflexivity.
Qed.

(** The guarded part of the loop body when its [try] block is known to
    complete, by returning or by throwing. *)
Lemma guarded_run (attempt : M unit) idx harFilename answerFilename promptText env w r w1 :
  attempt env w = (r, w1) -> r <> Diverged ->
  exists w' (t : Z),
    guarded attempt idx harFilename answerFilename promptText env w = (Returned tt, w') /\
    calls w' = (calls w1 ++ [HarStop])%list /\
    (denied env answerFilename = None ->
     files w' !! answerFilename =
       Some (TextFile (header promptText (toISOString env t)
                       +:+ orPlaceholder (finalAnswer w1)))).
Proof.
  intros Hrun Hr. unfold guarded, try_finally, try_catch. rewrite Hrun.
  destruct r as [[]|e|]; [| |done].
  - destruct (finishPrompt_run harFilename answerFilename promptText env w1)
      as (w' & stamp & E & C & F).
    exists w', stamp. rewrite E. auto.
  - cbv [console_error modify].
    match goal with |- context [finishPrompt _ _ _ env ?w] =>
      destruct (finishPrompt_run harFilename answerFilename promptText env w)
        as (w' & stamp & E & C & F) end.
    exists w', stamp. rewrite E. auto.
Qed.

(** ** Correlation *)

Lemma setStreamBody_streaming sse entry :
  isEventStream entry = true ->
  exists r c, response entry = Some r /\ content r = Some c /\
    mimeType c = Some "text/event-stream" /\
    setStreamBody sse entry =
      mkEntry (Some (mkResponse
                       (Some (mkContent (mimeType c) (Some sse) (Some (Buffer_byteLength sse))
                                        (contentFields c)))
                       (responseFields r)))
              (entryFields entry).
Proof.
  unfold isEventStream, setStreamBody. intros H. apply bool_decide_eq_true in H.
  destruct (response entry) as [r|] eqn:Hr; [|done]. simpl in H.
  destruct (content r) as [c|] eqn:Hc; [|done]. simpl in H.
  exists r, c. done.
Qed.

Lemma injectSSE_first sse es k entry :
  es !! k = Some entry ->
  isEventStream entry = true ->
  (forall j e, (j < k)%nat -> es !! j = Some e -> isEventStream e = false) ->
  injectSSE sse es = <[k := setStreamBody sse entry]> es.
Proof.
  revert k. induction es as [|e0 es IH]; intros k Hk Hs Hfirst; [done|].
  destruct k as [|k]; simpl in *.
  - injection Hk as ->. rewrite Hs. reflexivity.
  - rewrite (Hfirst 0%nat e0); [|lia|done]. f_equal.
    apply IH; [done..|]. intros j e Hj He. apply (Hfirst (S j)); [lia|done].
Qed.

Lemma injectSSE_miss sse es :
  (forall e, e ∈ es -> isEventStream e = false) -> injectSSE sse es = es.
Proof.
  induction es as [|e0 es IH]; intros H; [done|]. simpl.
  rewrite (H e0); [|by left]. f_equal. apply IH. intros e He. apply H. by right.
Qed.

(** C1. For every trace file and every captured stream text [sse] (the empty
    one too), the correlation block rewrites the file so that the first
    entry whose response content has the MIME type text/event-stream holds
    [sse] as its body text and the UTF-8 byte length of [sse] as its size; that
    entry's other fields, every other entry, and the rest of the archive
    are as they were. *)
Theorem C1_correlation_rewrites_first_streaming_entry
    env w harFilename sse (h : Har) (k : nat) (entry : Entry) :
  files w !! harFilename = Some (HarFile h) ->
  denied env harFilename = None ->
  entries h !! k = Some entry ->
  isEventStream entry = true ->
  (forall j e, (j < k)%nat -> entries h !! j = Some e -> isEventStream e = false) ->
  exists h' entry',
    files (injectSseIntoHar harFilename sse env w).2 !! harFilename = Some (HarFile h') /\
    entries h' !! k = Some entry' /\
    (response entry' ≫= content) ≫= text = Some sse /\
    (response entry' ≫= content) ≫= size = Some (Buffer_byteLength sse) /\
    (response entry' ≫= content) ≫= mimeType = (response entry ≫= content) ≫= mimeType /\
    contentFields <$> (response entry' ≫= content) =
      contentFields <$> (response entry ≫= content) /\
    responseFields <$> response entry' = responseFields <$> response entry /\
    entryFields entry' = entryFields entry /\
    (forall j, j <> k -> entries h' !! j = entries h !! j) /\
    length (entries h') = length (entries h) /\
    logFields h' = logFields h.
Proof.
  intros Hfile Hden Hk Hs Hfirst.
  destruct (setStreamBody_streaming sse entry Hs) as (r & c & Hr & Hc & Hm & Hset).
  exists (correlate sse h), (setStreamBody sse entry).
  assert (Hinj := injectSSE_first sse (entries h) k entry Hk Hs Hfirst).
  assert (Hlt : (k < length (entries h))%nat) by (eapply lookup_lt_Some; eauto).
  split.
  { run_blocks. rewrite Hfile, Hden. simpl. apply lookup_insert_eq. }
  unfold correlate. simpl. rewrite Hinj.
  split; [by apply list_lookup_insert_eq|].
  rewrite Hset, Hr. simpl. rewrite Hc. simpl.
  repeat split; try done.
  - intros j Hj. by apply list_lookup_insert_ne.
  - apply length_insert.
Qed.

(** ** The completion detector *)

Lemma clock_polled c pI k w : clock (polled c pI k w) = clock w + Z.of_nat k * nap pI.
Proof.
  unfold polled. induction k as [|k IH]; [simpl; lia|].
  rewrite Nat.iter_succ. cbn [clock advance record_call]. rewrite IH. lia.
Qed.

Lemma tick_polled c pI k w : tick (polled c pI k w) = (k + tick w)%nat.
Proof.
  unfold polled. induction k as [|k IH]; [done|].
  rewrite Nat.iter_succ. cbn [tick advance record_call]. rewrite IH. lia.
Qed.

Lemma polled_succ c pI k w :
  polled c pI (S k) w = polled c pI k (polled c pI 1 w).
Proof. unfold polled. rewrite Nat.iter_succ_r. reflexivity. Qed.

Lemma clock_settled c w : clock (advance 0 (record_call c w)) = clock w.
Proof. simpl. lia. Qed.

Lemma nap_id pI : 1 <= pI <= 2147483647 -> nap pI = pI.
Proof. intros H. unfold nap. by rewrite bool_decide_eq_true_2. Qed.

Section Detector.

Variables (read : M string) (call : Call) (seen : list string -> string).

Hypothesis read_run : forall env w,
  failure env (tick w) = None ->
  read env w = (Returned (seen (innerTexts env (tick w))),
                advance (Z.of_N (latency env (tick w))) (record_call call w)).

Variables (env : Env) (sMs mT pI : Z).

(** A poll that finds the text changed: the loop goes on with the new text
    and the stability timer reset to the time of the poll. *)
Lemma loop_change start fuel lastText since w s :
  shows seen env (tick w) s -> s <> lastText ->
  clock w - start < mT ->
  stabilityLoop (S fuel) read sMs mT pI start lastText since env w =
    stabilityLoop fuel read sMs mT pI start s (clock w) env (polled call pI 1 w).
Proof.
  intros (Hf & Hl & Hs) Hne Htime.
  rewrite run_stabilityLoop, bool_decide_eq_true_2 by done.
  rewrite (read_run env w Hf), Hl, Hs.
  apply String.eqb_neq in Hne. rewrite Hne.
  cbn [clock advance record_call Z.of_N]. rewrite Z.add_0_r. reflexivity.
Qed.

(** A poll that finds the text unchanged for the stability window: the
    detector returns it. *)
Lemma loop_settle start fuel lastText since w :
  shows seen env (tick w) lastText ->
  clock w - start < mT -> sMs <= clock w - since ->
  stabilityLoop (S fuel) read sMs mT pI start lastText since env w =
    (Returned lastText, advance 0 (record_call call w)).
Proof.
  intros (Hf & Hl & Hs) Htime Hstable.
  rewrite run_stabilityLoop, bool_decide_eq_true_2 by done.
  rewrite (read_run env w Hf), Hl, Hs, String.eqb_refl.
  cbn [clock advance record_call Z.of_N]. rewrite Z.add_0_r.
  rewrite bool_decide_eq_true_2 by lia. reflexivity.
Qed.

(** Polls that find the text unchanged, but not for long enough yet. *)
Lemma loop_waiting start k : forall fuel lastText since w,
  (forall i, (i < k)%nat -> shows seen env (i + tick w) lastText) ->
  (forall j, (j < k)%nat -> clock w + Z.of_nat j * nap pI - start < mT) ->
  (forall j, (j < k)%nat -> clock w + Z.of_nat j * nap pI - since < sMs) ->
  stabilityLoop (k + fuel) read sMs mT pI start lastText since env w =
    stabilityLoop fuel read sMs mT pI start lastText since env (polled call pI k w).
Proof.
 
  induction k as [|k IH]; intros fuel lastText since w Hshow Htime Hwait; [done|].
  destruct (Hshow 0%nat ltac:(lia)) as (Hf & Hl & Hs). simpl in Hf, Hl, Hs.
  specialize (Htime 0%nat ltac:(lia)) as Ht0. specialize (Hwait 0%nat ltac:(lia)) as Hw0.
  simpl in Ht0, Hw0. rewrite Z.add_0_r in Ht0, Hw0.
  replace (S k + fuel)%nat with (S (k + fuel)) by lia.
  rewrite run_stabilityLoop, bool_decide_eq_true_2 by done.
  rewrite (read_run env w Hf), Hl, Hs, String.eqb_refl.
  cbn [clock advance record_call Z.of_N]. rewrite Z.add_0_r.
  rewrite bool_decide_eq_false_2 by lia.
  rewrite polled_succ. apply IH.
  - intros i Hi. rewrite tick_polled. replace (i + (1 + tick w))%nat with (S i + tick w)%nat by lia.
    apply Hshow. lia.
  - intros j Hj. rewrite clock_polled. specialize (Htime (S j) ltac:(lia)). lia.
  - intros j Hj. rewrite clock_polled. specialize (Hwait (S j) ltac:(lia)). lia.
Qed.

(** A source that shows one text [s] from the first poll on: the detector
    returns [s] at the first poll at which [s] has been there for the
    stability window, [n] polls after the first. *)
Lemma steady w s n :
  1 <= pI <= 2147483647 ->
  (forall i, (i <= n)%nat -> shows seen env (i + tick w) s) ->
  s = EmptyString \/ (1 <= n)%nat ->
  (forall j, (j < n)%nat -> Z.of_nat j * pI < sMs) ->
  sMs <= Z.of_nat n * pI ->
  Z.of_nat n * pI < mT ->
  exists w', stabilityLoop (Z.to_nat mT) read sMs mT pI (clock w) EmptyString (clock w) env w = (Returned s, w') /\
    clock w' = clock w + Z.of_nat n * pI.
Proof.
  intros HpI Hshow Hn Hwait Hstable Htime.
  assert (Hnap := nap_id pI HpI).
  assert (exists fuel, Z.to_nat mT = (n + S fuel)%nat) as [fuel ->].
  { exists (Z.to_nat mT - n - 1)%nat. nia. }
  destruct (decide (s = EmptyString)) as [->|Hs].
  - rewrite loop_waiting.
    + rewrite loop_settle.
      * eexists. split; [reflexivity|]. rewrite clock_settled.
        rewrite clock_polled. lia.
      * rewrite tick_polled. apply Hshow. lia.
      * rewrite clock_polled. lia.
      * rewrite clock_polled. lia.
    + intros i Hi. apply Hshow. lia.
    + intros j Hj. rewrite Hnap. nia.
    + intros j Hj. rewrite Hnap. specialize (Hwait j Hj). lia.
  - destruct Hn as [?|Hn]; [done|].
    destruct n as [|n]; [lia|].
    replace (S n + S fuel)%nat with (S (n + S fuel)) by lia.
    rewrite (loop_change _ _ _ _ _ s); [| apply (Hshow 0%nat); lia | done | lia].
    rewrite loop_waiting.
    + rewrite loop_settle.
      * eexists. split; [reflexivity|]. rewrite clock_settled.
        rewrite !clock_polled. lia.
      * rewrite !tick_polled. replace (n + (1 + tick w))%nat with (S n + tick w)%nat by lia.
        apply Hshow. lia.
      * rewrite !clock_polled. lia.
      * rewrite !clock_polled. lia.
    + intros i Hi. rewrite tick_polled.
      replace (i + (1 + tick w))%nat with (S i + tick w)%nat by lia. apply Hshow. lia.
    + intros j Hj. rewrite clock_polled, Hnap. nia.
    + intros j Hj. rewrite clock_polled, Hnap. specialize (Hwait (S j) ltac:(lia)). lia.
Qed.

(** A source that shows [a] at the first three polls and [b] from the
    fourth on, watched with a stability window of three poll intervals:
    [a] is never there for long enough, [b] is at the seventh poll. *)
Lemma settles_on_second w a b :
  1 <= pI <= 2147483647 -> sMs = 3 * pI -> 6 * pI < mT -> a <> b ->
  (forall i, (i < 3)%nat -> shows seen env (i + tick w) a) ->
  (forall i, (3 <= i <= 6)%nat -> shows seen env (i + tick w) b) ->
  exists w', stabilityLoop (Z.to_nat mT) read sMs mT pI (clock w) EmptyString (clock w) env w
               = (Returned b, w') /\
    clock w' = clock w + 6 * pI.
Proof.
  intros HpI HsMs Htime Hab Ha Hb.
  assert (Hnap := nap_id pI HpI).
  assert (exists fA fB fC fD, Z.to_nat mT = (3 + fA)%nat /\ fA = S fB /\
            fB = (2 + fC)%nat /\ fC = S fD) as (fA & fB & fC & fD & -> & HA & HB & HC).
  { exists (Z.to_nat mT - 3)%nat, (Z.to_nat mT - 4)%nat, (Z.to_nat mT - 6)%nat,
      (Z.to_nat mT - 7)%nat. lia. }
  assert (stabilityLoop (3 + fA) read sMs mT pI (clock w) EmptyString (clock w) env w
          = stabilityLoop fA read sMs mT pI (clock w) a (clock w) env
              (polled call pI 3 w)) as ->.
  { destruct (decide (a = EmptyString)) as [->|Hne].
    - apply loop_waiting.
      + intros i Hi. apply Ha. lia.
      + intros j Hj. rewrite Hnap. nia.
      + intros j Hj. rewrite Hnap. nia.
    - change (3 + fA)%nat with (S (2 + fA)).
      rewrite (loop_change _ _ _ _ _ a); [| apply (Ha 0%nat); lia | done | lia].
      rewrite (polled_succ _ _ 2). apply loop_waiting.
      + intros i Hi. rewrite tick_polled.
        replace (i + (1 + tick w))%nat with (S i + tick w)%nat by lia. apply Ha. lia.
      + intros j Hj. rewrite clock_polled, Hnap. nia.
      + intros j Hj. rewrite clock_polled, Hnap. nia. }
  rewrite HA.
  rewrite (loop_change _ _ _ _ _ b);
    [| rewrite tick_polled; apply Hb; lia | done | rewrite clock_polled, Hnap; lia].
  rewrite HB, loop_waiting.
  - rewrite HC, loop_settle.
    + eexists. split; [reflexivity|]. rewrite clock_settled.
      rewrite !clock_polled, Hnap. lia.
    + rewrite !tick_polled. replace (2 + (1 + (3 + tick w)))%nat with (6 + tick w)%nat by lia.
      apply Hb. lia.
    + rewrite !clock_polled, Hnap. lia.
    + rewrite !clock_polled, Hnap. lia.
  - intros i Hi. rewrite !tick_polled.
    replace (i + (1 + (3 + tick w)))%nat with ((4 + i) + tick w)%nat by lia. apply Hb. lia.
  - intros j Hj. rewrite !clock_polled, Hnap. nia.
  - intros j Hj. rewrite !clock_polled, Hnap. nia.
Qed.

End Detector.

Lemma readParagraphs_run env w :
  failure env (tick w) = None ->
  GPT.readParagraphs env w =
    (Returned (GPT.visibleText (innerTexts env (tick w))),
     advance (Z.of_N (latency env (tick w))) (record_call (EvalTexts "p") w)).
Proof.
  intros Hf. cbv [GPT.readParagraphs interact mbind M_bind mret M_ret ask]. rewrite Hf.
  reflexivity.
Qed.

Lemma readVisibleText_run env w :
  failure env (tick w) = None ->
  Claude.readVisibleText env w =
    (Returned (Claude.visibleText (innerTexts env (tick w))),
     advance (Z.of_N (latency env (tick w)))
             (record_call (EvalTexts Claude.answerTextNodes) w)).
Proof.
  intros Hf.
  cbv [Claude.readVisibleText catch_with try_catch interact mbind M_bind mret M_ret ask].
  rewrite Hf. reflexivity.
Qed.

Lemma run_waitForStability read sMs mT pI env w :
  waitForStability read sMs mT pI env w =
    stabilityLoop (Z.to_nat mT) read sMs mT pI (clock w) EmptyString (clock w) env w.
Proof. reflexivity. Qed.

Lemma reader_run r env w :
  failure env (tick w) = None ->
  reader r env w =
    (Returned (rendering r (innerTexts env (tick w))),
     advance (Z.of_N (latency env (tick w))) (record_call (pollCall r) w)).
Proof. destruct r; [apply readParagraphs_run|apply readVisibleText_run]. Qed.

Lemma detector_run r sMs mT pI env w :
  detector r sMs mT pI env w =
    stabilityLoop (Z.to_nat mT) (reader r) sMs mT pI (clock w) EmptyString (clock w) env w.
Proof. destruct r; reflexivity. Qed.

(** C2, as the code has it.  A page shows [a] to the first three polls and
    [b] to the next ones, each read is instantaneous and the polls are one
    interval apart.  With a stability window of two intervals the detector
    returns [a], at the third poll: [a] has then been unchanged for two
    intervals.  It returns [b] when the window is three intervals. *)
Theorem C2_window_of_two_ticks_settles_on_a r env w a b pI mT :
  1 <= pI <= 2147483647 ->
  a <> b ->
  (forall i, (i < 3)%nat -> shows (rendering r) env (i + tick w) a) ->
  (forall i, (3 <= i <= 6)%nat -> shows (rendering r) env (i + tick w) b) ->
  6 * pI < mT ->
  (exists w', detector r (2 * pI) mT pI env w = (Returned a, w') /\
              clock w' = clock w + 2 * pI) /\
  (exists w', detector r (3 * pI) mT pI env w = (Returned b, w') /\
              clock w' = clock w + 6 * pI).
Proof.
  intros HpI Hab Ha Hb Htime. rewrite !detector_run. split.
  - assert (H1 : forall i, (i <= 2)%nat -> shows (rendering r) env (i + tick w) a)
      by (intros i Hi; apply Ha; lia).
    assert (H2 : a = EmptyString \/ (1 <= 2)%nat) by (right; lia).
    assert (H3 : forall j, (j < 2)%nat -> Z.of_nat j * pI < 2 * pI) by (intros j Hj; nia).
    destruct (steady (reader r) (pollCall r) (rendering r) (reader_run r)
                env (2 * pI) mT pI w a 2 HpI H1 H2 H3 ltac:(lia) ltac:(lia))
      as (w' & E & C).
    exists w'. split; [exact E|lia].
  - apply (settles_on_second (reader r) (pollCall r) (rendering r) (reader_run r)
             env (3 * pI) mT pI w a b); done.
Qed.

(** The sample page of C2, watched by the ChatGPT detector with a poll
    interval of 1 ms. *)
Lemma C2_witness :
  (exists w', detector ChatGPT (2 * 1) 60000 1 aaabbb startWorld = (Returned "a", w') /\
              clock w' = clock startWorld + 2 * 1) /\
  (exists w', detector ChatGPT (3 * 1) 60000 1 aaabbb startWorld = (Returned "b", w') /\
              clock w' = clock startWorld + 6 * 1).
Proof.
  apply (C2_window_of_two_ticks_settles_on_a ChatGPT aaabbb startWorld "a" "b" 1 60000).
  - lia.
  - discriminate.
  - intros i Hi. repeat split; try reflexivity.
    simpl. replace (i + 0 <? 3)%nat with true; [reflexivity|].
    symmetry. apply Nat.ltb_lt. lia.
  - intros i Hi. repeat split; try reflexivity.
    simpl. replace (i + 0 <? 3)%nat with false; [reflexivity|].
    symmetry. apply Nat.ltb_ge. lia.
  - lia.
Defined.

(** C2 as stated fails: on the snapshots a, a, a, b, b, b at one tick per
    poll, with a stability window of 2 ticks, both detectors return "a"
    and not "b". *)
Lemma C2_counterexample :
  (GPT.waitForResponseStability 2 60000 1 aaabbb startWorld).1 = Returned "a" /\
  (Claude.waitForClaudeStability 2 60000 1 aaabbb startWorld).1 = Returned "a" /\
  (GPT.waitForResponseStability 2 60000 1 aaabbb startWorld).1 <> Returned "b".
Proof. vm_compute. repeat split; discriminate. Qed.

(** C3, as the code has it.  A poll that finds the text changed, to or from
    the empty text as well, resets the stability timer and returns
    nothing.  The empty text is otherwise a text like any other: when the
    page shows nothing from the first poll on, the detector returns the
    empty text at the first poll at which the stability window has
    passed, [n] polls after the first, and before [maxTimeout]. *)
Theorem C3_empty_text_settles_like_any_other r env w sMs mT pI (n : nat) :
  1 <= pI <= 2147483647 ->
  (forall i, (i <= n)%nat -> shows (rendering r) env (i + tick w) EmptyString) ->
  (forall j, (j < n)%nat -> Z.of_nat j * pI < sMs) ->
  sMs <= Z.of_nat n * pI ->
  Z.of_nat n * pI < mT ->
  (forall fuel start since lastText s w0,
     shows (rendering r) env (tick w0) s -> s <> lastText ->
     clock w0 - start < mT ->
     stabilityLoop (S fuel) (reader r) sMs mT pI start lastText since env w0 =
     stabilityLoop fuel (reader r) sMs mT pI start s (clock w0) env
                   (polled (pollCall r) pI 1 w0)) /\
  (exists w', detector r sMs mT pI env w = (Returned EmptyString, w') /\
              clock w' = clock w + Z.of_nat n * pI /\
              clock w' - clock w < mT).
Proof.
  intros HpI Hshow Hwait Hstable Htime. split.
  - intros fuel start since lastText s w0 Hs Hne Ht.
    apply (loop_change (reader r) (pollCall r) (rendering r) (reader_run r)); done.
  - rewrite detector_run.
    destruct (steady (reader r) (pollCall r) (rendering r) (reader_run r)
                env sMs mT pI w EmptyString n HpI Hshow (or_introl eq_refl)
                Hwait Hstable Htime) as (w' & E & C).
    exists w'. split; [exact E|]. split; [exact C|lia].
Qed.

(** A page that renders nothing, watched with the runners' parameters: the
    detector returns the empty text after 3 s. *)
Lemma C3_witness :
  (forall fuel start since lastText s w0,
     shows (rendering ChatGPT) quiet (tick w0) s -> s <> lastText ->
     clock w0 - start < 60000 ->
     stabilityLoop (S fuel) (reader ChatGPT) 3000 60000 1000 start lastText since quiet w0 =
     stabilityLoop fuel (reader ChatGPT) 3000 60000 1000 start s (clock w0) quiet
                   (polled (pollCall ChatGPT) 1000 1 w0)) /\
  (exists w', detector ChatGPT 3000 60000 1000 quiet startWorld = (Returned EmptyString, w') /\
              clock w' = clock startWorld + Z.of_nat 3 * 1000 /\
              clock w' - clock startWorld < 60000).
Proof.
  apply (C3_empty_text_settles_like_any_other ChatGPT quiet startWorld 3000 60000 1000 3).
  - lia.
  - intros i Hi. repeat split; reflexivity.
  - intros j Hj. lia.
  - lia.
  - lia.
Defined.

(** C3 as stated fails: on a page that renders nothing, both detectors
    return the empty text after the stability window of 3 s, 57 s before
    [maxTimeout]. *)
Lemma C3_counterexample :
  (let '(r, w') := GPT.waitForResponseStability 3000 60000 1000 quiet startWorld in
   r = Returned EmptyString /\ clock w' - clock startWorld = 3000) /\
  (let '(r, w') := Claude.waitForClaudeStability 3000 60000 1000 quiet startWorld in
   r = Returned EmptyString /\ clock w' - clock startWorld = 3000).
Proof. vm_compute. repeat split. Qed.

(** ** The loop body *)

(** From here on the polling loop is used through its lemmas, never unfolded
    on its numerals. *)
#[global] Arguments stabilityLoop : simpl never.
#[global] Arguments waitForStability : simpl never.

Lemma length_append (a b : string) :
  String.length (a +:+ b) = (String.length a + String.length b)%nat.
Proof.
  induction a as [|x a IH]; [reflexivity|].
  change (S (String.length (a +:+ b)) = S (String.length a + String.length b)).
  by rewrite IH.
Qed.

Lemma append_assoc (a b c : string) : (a +:+ b) +:+ c = a +:+ (b +:+ c).
Proof.
  induction a as [|x a IH]; [reflexivity|].
  change (String x ((a +:+ b) +:+ c) = String x (a +:+ (b +:+ c))). by rewrite IH.
Qed.

(** The runners' parts are told apart by rewriting, not by computing. *)
Lemma runner_parts :
  (detector ChatGPT = GPT.waitForResponseStability /\
   detector ClaudeAI = Claude.waitForClaudeStability) /\
  (submitAndCaptureOf ChatGPT = GPT.submitAndCapture /\
   submitAndCaptureOf ClaudeAI = Claude.submitAndCapture) /\
  (attemptOf ChatGPT = GPT.attempt /\ attemptOf ClaudeAI = Claude.attempt) /\
  (sessionResetOf ChatGPT = GPT.newChat /\ sessionResetOf ClaudeAI = Claude.resetSession) /\
  (processPromptOf ChatGPT = GPT.processPrompt /\
   processPromptOf ClaudeAI = Claude.processPrompt) /\
  (processPromptsBatchOf ChatGPT = GPT.processPromptsBatch /\
   processPromptsBatchOf ClaudeAI = Claude.processPromptsBatch) /\
  (promptTextOf ChatGPT = (fun query => query) /\ promptTextOf ClaudeAI = Claude.promptOf).
Proof. repeat split; reflexivity. Qed.

Ltac runner_rewrite :=
  destruct runner_parts as
    ((Hd1 & Hd2) & (Hs1 & Hs2) & (Ha1 & Ha2) & (Hr1 & Hr2) & (Hp1 & Hp2) & (Hb1 & Hb2)
     & (Ht1 & Ht2));
  rewrite ?Hd1, ?Hd2, ?Hs1, ?Hs2, ?Ha1, ?Ha2, ?Hr1, ?Hr2, ?Hp1, ?Hp2, ?Hb1, ?Hb2,
    ?Ht1, ?Ht2;
  clear Hd1 Hd2 Hs1 Hs2 Ha1 Ha2 Hr1 Hr2 Hp1 Hp2 Hb1 Hb2 Ht1 Ht2.


Lemma reportAnswer_run idx answer env w :
  exists w', reportAnswer idx answer env w = (Returned tt, w') /\
    finalAnswer w' = finalAnswer w.
Proof.
  unfold reportAnswer.
  destruct (String.eqb answer EmptyString || blank answer); eexists; split; reflexivity.
Qed.

(** The rest of the [try] block once the detector has returned: the answer
    is in [finalAnswer] and nothing throws any more. *)
Lemma attempt_returns r idx promptText env ws w1 answer w2 :
  submitAndCaptureOf r promptText env ws = (Returned tt, w1) ->
  detector r 3000 60000 1000 env w1 = (Returned answer, w2) ->
  exists w3, attemptOf r idx promptText env ws = (Returned tt, w3) /\
    finalAnswer w3 = answer.
Proof.
  assert (Hgen : forall (pre : M unit) (det : M string),
    pre env ws = (Returned tt, w1) -> det env w1 = (Returned answer, w2) ->
    exists w3,
      (pre;; answer ← det; modify (set_finalAnswer answer);; reportAnswer idx answer;;
       sleep 1000) env ws = (Returned tt, w3) /\ finalAnswer w3 = answer).
  { intros pre det H1 H2.
    destruct (reportAnswer_run idx answer env (set_finalAnswer answer w2)) as (w3 & E3 & F3).
    exists (advance (nap 1000) w3). split; [|simpl; rewrite F3; reflexivity].
    rewrite (run_bind_returned _ _ _ _ _ _ H1).
    rewrite (run_bind_returned _ _ _ _ _ _ H2).
    rewrite run_bind. cbn [modify].
    rewrite (run_bind_returned _ _ _ _ _ _ E3). reflexivity. }
  destruct r; runner_rewrite; apply Hgen.
Qed.




Lemma files_sessionReset r : respects (keeps files) (sessionResetOf r).
Proof. destruct r; runner_rewrite; respects_with ltac:(reflexivity). Qed.

Lemma run_processPrompt r label harsDir responsesDir total idx query env w ws :
  opening label total idx (promptTextOf r query) (harName harsDir idx) env w = (Returned tt, ws) ->
  processPromptOf r label harsDir responsesDir total idx query env w =
    (guarded (attemptOf r idx (promptTextOf r query)) idx (harName harsDir idx)
             (answerName responsesDir idx) (promptTextOf r query);;
     sessionResetOf r) env ws.
Proof.
  destruct r; runner_rewrite; intros H;
    [unfold GPT.processPrompt|unfold Claude.processPrompt]; cbv zeta;
    rewrite (run_bind_returned _ _ _ _ _ _ H); reflexivity.
Qed.

(** *** The files of a prompt are its own *)

Lemma append_inj_r (a b c : string) : a +:+ c = b +:+ c -> a = b.
Proof.
  revert b. induction a as [|x a IH]; intros [|y b] H.
  - reflexivity.
  - apply (f_equal String.length) in H. rewrite !length_append in H.
    cbn [String.length] in H. lia.
  - apply (f_equal String.length) in H. rewrite !length_append in H.
    cbn [String.length] in H. lia.
  - change (String x (a +:+ c) = String y (b +:+ c)) in H.
    injection H as -> H. f_equal. by apply IH.
Qed.

Lemma lastChar_append (a b : string) c : lastChar b = Some c -> lastChar (a +:+ b) = Some c.
Proof.
  intros Hb. induction a as [|x a IH]; [exact Hb|].
  change (lastChar (String x (a +:+ b)) = Some c). cbn [lastChar]. by rewrite IH.
Qed.

Lemma answerName_inj responsesDir i j :
  answerName responsesDir i = answerName responsesDir j -> i = j.
Proof.
  unfold answerName, path_join. intros H.
  do 3 apply String.app_inj in H. apply append_inj_r in H.
  apply pretty_nat_inj in H. lia.
Qed.

Lemma harName_answerName harsDir responsesDir i j :
  harName harsDir i <> answerName responsesDir j.
Proof.
  intros H. apply (f_equal lastChar) in H.
  assert (Hr : lastChar (harName harsDir i) = Some "r"%char)
    by (unfold harName, path_join; do 4 apply lastChar_append; reflexivity).
  assert (Ht : lastChar (answerName responsesDir j) = Some "t"%char)
    by (unfold answerName, path_join; do 4 apply lastChar_append; reflexivity).
  rewrite Hr, Ht in H. discriminate.
Qed.

(** The loop body of another prompt leaves the response file of prompt
    [idx] alone. *)
Lemma processPrompt_keeps_response r label harsDir responsesDir total idx j query :
  j <> idx ->
  respects (keeps (fun w => files w !! answerName responsesDir idx))
           (processPromptOf r label harsDir responsesDir total j query).
Proof.
  intros Hj.
  assert (Ha : answerName responsesDir j <> answerName responsesDir idx)
    by (intros H; by apply answerName_inj in H).
  assert (Hh := harName_answerName harsDir responsesDir j idx).
  destruct r; runner_rewrite; [unfold GPT.processPrompt|unfold Claude.processPrompt];
    respects_with ltac:(first [reflexivity | by apply lookup_insert_ne]).
Qed.

Lemma respects_for_each_from (R : relation World) `{!PreOrder R} {A}
    (body : nat -> A -> M unit) items :
  forall start, (forall i item, (start <= i)%nat -> respects R (body i item)) ->
  respects R (for_each start items body).
Proof.
  induction items as [|item rest IH]; intros start Hb; simpl.
  - apply (respects_ret R).
  - apply (respects_bind R).
    + apply Hb. lia.
    + intros _. apply IH. intros i x Hi. apply Hb. lia.
Qed.

(** Neither do the loop bodies of the prompts after it. *)
Lemma later_prompts_keep_response r label harsDir responsesDir total idx rest env w :
  files (for_each (S idx) rest (processPromptOf r label harsDir responsesDir total) env w).2
    !! answerName responsesDir idx
  = files w !! answerName responsesDir idx.
Proof.
  apply (respects_for_each_from (keeps (fun w => files w !! answerName responsesDir idx))).
  intros i item Hi. apply processPrompt_keeps_response. lia.
Qed.

(** The rest of a batch, from the loop body of prompt [idx] on: what the
    body leaves in the response file of [idx] is what the batch leaves. *)
Lemma batch_keeps_response r label harsDir responsesDir total idx query rest env w :
  files (for_each idx (query :: rest) (processPromptOf r label harsDir responsesDir total)
           env w).2 !! answerName responsesDir idx
  = files (processPromptOf r label harsDir responsesDir total idx query env w).2
      !! answerName responsesDir idx.
Proof.
  cbn [for_each]. rewrite run_bind.
  destruct (processPromptOf r label harsDir responsesDir total idx query env w)
    as [[[]|e|] wA]; try reflexivity.
  apply later_prompts_keep_response.
Qed.

(** What the loop body leaves in the response file when the detector has
    returned. *)
Lemma body_leaves_detector_text
    r env w label harsDir responsesDir total idx query ws w1 answer w2 :
  opening label total idx (promptTextOf r query) (harName harsDir idx) env w
    = (Returned tt, ws) ->
  submitAndCaptureOf r (promptTextOf r query) env ws = (Returned tt, w1) ->
  detector r 3000 60000 1000 env w1 = (Returned answer, w2) ->
  denied env (answerName responsesDir idx) = None ->
  exists t : Z,
    files (processPromptOf r label harsDir responsesDir total idx query env w).2
      !! answerName responsesDir idx =
    Some (TextFile (header (promptTextOf r query) (toISOString env t)
                    +:+ orPlaceholder answer)).
Proof.
  intros Hopen Hsub Hdet Hden.
  rewrite (run_processPrompt _ _ _ _ _ _ _ _ _ _ Hopen).
  destruct (attempt_returns r idx _ env ws w1 answer w2 Hsub Hdet) as (w3 & E3 & F3).
  destruct (guarded_run _ idx (harName harsDir idx) (answerName responsesDir idx)
              (promptTextOf r query) env ws _ w3 E3 ltac:(done))
    as (w' & stamp & Eg & Cg & Fg).
  rewrite (run_bind_returned _ _ _ _ _ _ Eg).
  exists stamp.
  by rewrite (files_sessionReset r env w'), (Fg Hden), F3.
Qed.

(** C4. When the [try] block of a prompt reaches the completion detector
    and the detector returns a text, the response file of the prompt (the
    write permitting) is the header
    [Prompt: <text>\nTimestamp: <ISO-8601>\n\n] followed by exactly that
    text when it is not empty, and by the placeholder
    [[no answer captured]] when it is; and so it stays, whatever prompts
    the batch goes on with. *)
Theorem C4_response_file_holds_the_detector_text
    r env w label harsDir responsesDir total idx query rest ws w1 answer w2 :
  opening label total idx (promptTextOf r query) (harName harsDir idx) env w
    = (Returned tt, ws) ->
  submitAndCaptureOf r (promptTextOf r query) env ws = (Returned tt, w1) ->
  detector r 3000 60000 1000 env w1 = (Returned answer, w2) ->
  denied env (answerName responsesDir idx) = None ->
  exists t : Z,
    files (for_each idx (query :: rest) (processPromptOf r label harsDir responsesDir total)
             env w).2 !! answerName responsesDir idx =
    Some (TextFile ("Prompt: " +:+ promptTextOf r query +:+ nl +:+
                    "Timestamp: " +:+ toISOString env t +:+ nl +:+ nl +:+
                    (if String.eqb answer EmptyString then "[no answer captured]"
                     else answer))).
Proof.
  intros Hopen Hsub Hdet Hden.
  destruct (body_leaves_detector_text r env w label harsDir responsesDir total idx query
              ws w1 answer w2 Hopen Hsub Hdet Hden) as (t & Ht).
  exists t. rewrite batch_keeps_response, Ht.
  unfold header, orPlaceholder, placeholder.
  by rewrite !append_assoc.
Qed.

(** A batch of two prompts of the ChatGPT runner on a page that answers
    "Paris.": the response file of the first holds the header and that
    text. *)
Lemma C4_witness :
  exists t : Z,
    files (for_each 0 ["capital of France"; "largest ocean"]
             (processPromptOf ChatGPT "abstain_gpt-5_1" "hars" "responses" 2)
             answering startWorld).2
      !! answerName "responses" 0 =
    Some (TextFile ("Prompt: " +:+ promptTextOf ChatGPT "capital of France" +:+ nl +:+
                    "Timestamp: " +:+ toISOString answering t +:+ nl +:+ nl +:+
                    (if String.eqb "Paris." EmptyString then "[no answer captured]"
                     else "Paris."))).
Proof.
  pose (ws := (opening "abstain_gpt-5_1" 2 0 "capital of France" (harName "hars" 0)
                 answering startWorld).2).
  pose (w1 := (GPT.submitAndCapture "capital of France" answering ws).2).
  pose (w2 := (GPT.waitForResponseStability 3000 60000 1000 answering w1).2).
  apply (C4_response_file_holds_the_detector_text ChatGPT answering startWorld
           "abstain_gpt-5_1" "hars" "responses" 2 0 "capital of France" ["largest ocean"]
           ws w1 "Paris." w2).
  - vm_compute. reflexivity.
  - vm_compute. reflexivity.
  - vm_compute. reflexivity.
  - reflexivity.
Defined.

(** ** No retry at the level of a prompt *)






(** The sample archive, correlated with a captured stream: the entry at
    index 1 is the one rewritten. *)
Lemma C1_witness :
  exists h' entry',
    files (injectSseIntoHar "trace.har" "data: hi" quiet (withTrace sampleHar)).2
      !! "trace.har" = Some (HarFile h') /\
    entries h' !! 1%nat = Some entry' /\
    (response entry' ≫= content) ≫= text = Some "data: hi" /\
    (response entry' ≫= content) ≫= size = Some (Buffer_byteLength "data: hi") /\
    (response entry' ≫= content) ≫= mimeType =
      (response (streamEntry EmptyString) ≫= content) ≫= mimeType /\
    contentFields <$> (response entry' ≫= content) =
      contentFields <$> (response (streamEntry EmptyString) ≫= content) /\
    responseFields <$> response entry' = responseFields <$> response (streamEntry EmptyString) /\
    entryFields entry' = entryFields (streamEntry EmptyString) /\
    (forall j, j <> 1%nat -> entries h' !! j = entries sampleHar !! j) /\
    length (entries h') = length (entries sampleHar) /\
    logFields h' = logFields sampleHar.
Proof.
  apply (C1_correlation_rewrites_first_streaming_entry quiet (withTrace sampleHar)
           "trace.har" "data: hi" sampleHar 1 (streamEntry EmptyString)).
  - reflexivity.
  - reflexivity.
  - reflexivity.
  - reflexivity.
  - intros j e Hj He. destruct j as [|j]; [|lia].
    injection He as <-. reflexivity.
Defined.

(** C6, as the code has it.  When no entry of the trace is the streaming
    exchange, the correlation block logs no warning: it rewrites the trace
    with every entry as it was and logs the same line as after a match
    (an error line when the trace cannot be written); the file system is
    left as it was, and the block returns, so that the loop goes on. *)
Theorem C6_correlation_miss_is_not_reported env w harFilename sse (h : Har) :
  files w !! harFilename = Some (HarFile h) ->
  (forall e, e ∈ entries h -> isEventStream e = false) ->
  exists w' level line,
    injectSseIntoHar harFilename sse env w = (Returned tt, w') /\
    files w' = files w /\
    console w' = (console w ++ [(level, line)])%list /\
    level <> WARN /\
    (denied env harFilename = None ->
     level = LOG /\ line = "✅ HAR updated with SSE at " +:+ harFilename).
Proof.
  intros Hfile Hmiss.
  assert (Hsame : correlate sse h = h).
  { unfold correlate. rewrite (injectSSE_miss _ _ Hmiss). by destruct h. }
  run_blocks. rewrite Hfile. simpl. rewrite Hsame.
  destruct (denied env harFilename) as [msg|].
  - eexists _, ERROR, _. repeat split; try reflexivity; done.
  - eexists _, LOG, _. repeat split; try reflexivity; try done.
    simpl. by apply insert_id.
Qed.

(** A trace with no streaming entry. *)
Lemma C6_witness :
  exists w' level line,
    injectSseIntoHar "trace.har" "data: hi" quiet (withTrace plainHar) = (Returned tt, w') /\
    files w' = files (withTrace plainHar) /\
    console w' = (console (withTrace plainHar) ++ [(level, line)])%list /\
    level <> WARN /\
    (denied quiet "trace.har" = None ->
     level = LOG /\ line = "✅ HAR updated with SSE at " +:+ "trace.har").
Proof.
  apply (C6_correlation_miss_is_not_reported quiet (withTrace plainHar) "trace.har"
           "data: hi" plainHar).
  - reflexivity.
  - intros e He. apply list_elem_of_singleton in He as ->. reflexivity.
Defined.

(** C6 as stated fails: on a trace with no streaming entry the block logs
    one line, the success line of a match, and no warning. *)
Lemma C6_counterexample :
  console (injectSseIntoHar "trace.har" "data: hi" quiet (withTrace plainHar)).2 =
    [(LOG, "✅ HAR updated with SSE at trace.har")] /\
  ~ exists line,
      (WARN, line) ∈ console (injectSseIntoHar "trace.har" "data: hi" quiet
                                (withTrace plainHar)).2.
Proof.
  split; [reflexivity|]. intros [line H].
  change (console _) with [(LOG, "✅ HAR updated with SSE at trace.har")] in H.
  apply list_elem_of_singleton in H. discriminate.
Qed.

(** ** Offline reconstruction *)

(** The sample stream reassembles to its deltas up to the terminal marker. *)
Example reconstruct_hello :
  reconstruct sampleDecode
    (mkHar [pageEntry; streamEntry helloStream] []) = Some "Hello".
Proof. reflexivity. Qed.



(** What a run of the reconstructor makes of that artifact. *)
Example reconstructPass_hello :
  reconstructPass sampleDecode "trace.har" "response.txt"
    {[ "trace.har" := HarFile (mkHar [streamEntry helloStream] []);
       "response.txt" := TextFile (header "greet" "2025-01-01T00:00:00.000Z" +:+ placeholder) ]}
    !! "response.txt"
  = Some (TextFile (header "greet" "2025-01-01T00:00:00.000Z" +:+ "Hello")).
Proof. vm_compute. reflexivity. Qed.

(** ** Loading the catalog *)

Lemma lookup_map {A B} (f : A -> B) (l : list A) (i : nat) :
  map f l !! i = f <$> (l !! i).
Proof. revert i. induction l as [|x l IH]; intros [|i]; simpl; auto. Qed.

Lemma run_fileText env w f : fileText f env w = (Returned (textOf env f), w).
Proof. destruct f; reflexivity. Qed.

Ltac run_load :=
  cbv [loadCsvPrompts fs_existsSync fs_readFileSync mbind M_bind mret M_ret ask get throw].

Lemma loadCsvPrompts_missing csvFile env w :
  missing w csvFile ->
  loadCsvPrompts csvFile env w = (Thrown ("Missing CSV file: " +:+ csvFile), w).
Proof.
  intros [Hf Hd]. run_load. rewrite Hf.
  rewrite (bool_decide_eq_false_2 (is_Some None)) by (intros [? ?]; done).
  rewrite bool_decide_eq_false_2 by done. reflexivity.
Qed.

Lemma loadCsvPrompts_parsed csvFile env w f rows :
  files w !! csvFile = Some f -> parse env (textOf env f) = inr rows ->
  loadCsvPrompts csvFile env w =
    match rows with
    | [] => (Thrown ("CSV has no data rows: " +:+ csvFile), w)
    | first :: _ =>
        if negb (bool_decide (is_Some (cell "query" first)))
        then (Thrown ("CSV does not have a 'query' header column: " +:+ csvFile), w)
        else (Returned (map (fun r => match cell "query" r with
                                      | None => EmptyString
                                      | Some q => q
                                      end) rows), w)
    end.
Proof.
  intros Hf Hp. run_load. rewrite Hf.
  rewrite (bool_decide_eq_true_2 (is_Some (Some f))) by eauto.
  cbn [orb negb]. rewrite Hf, run_fileText, Hp.
  destruct rows as [|first rest]; [reflexivity|].
  destruct (negb (bool_decide (is_Some (cell "query" first)))); reflexivity.
Qed.

Lemma loadCsvPrompts_lacksQuery csvFile env w :
  lacksQuery env w csvFile ->
  exists e, loadCsvPrompts csvFile env w = (Thrown e, w).
Proof.
  intros (f & rows & Hf & Hp & Hno). rewrite (loadCsvPrompts_parsed _ _ _ _ _ Hf Hp).
  destruct rows as [|first rest]; [eauto|].
  rewrite (Hno first) by (by left).
  rewrite (bool_decide_eq_false_2 (is_Some None)) by (intros [? ?]; done).
  eauto.
Qed.

Lemma calls_loadJob job : respects (keeps calls) (loadJob job).
Proof. respects_with ltac:(reflexivity). Qed.

(** The main flow aborts on the first job whose catalog does not load:
    nothing of that job, and nothing after it, happens. *)
Lemma mainFlow_aborts userDataDir batch pre job post env w done w1 e w2 :
  map_each loadJob pre env w = (Returned done, w1) ->
  loadCsvPrompts (file job) env w1 = (Thrown e, w2) ->
  mainFlow userDataDir batch (pre ++ job :: post) env w = (Thrown e, w2) /\
  calls w1 = calls w.
Proof.
  intros Hpre Hload. split.
  - unfold mainFlow. apply run_bind_thrown.
    revert w done Hpre. induction pre as [|j pre IH]; intros w done Hpre.
    + injection Hpre as _ <-. cbn [app map_each]. apply run_bind_thrown.
      unfold loadJob. by apply run_bind_thrown.
    + cbn [app map_each] in *. rewrite run_bind in Hpre. rewrite run_bind.
      destruct (loadJob j env w) as [[b|e'|] wj]; try discriminate.
      rewrite run_bind in Hpre. rewrite run_bind.
      destruct (map_each loadJob pre env wj) as [[bs|e'|] wk] eqn:Hk; try discriminate.
      injection Hpre as _ <-. by rewrite (IH wj bs Hk).
  - pose proof (respects_map_each (keeps calls) loadJob pre calls_loadJob env w) as H.
    rewrite Hpre in H. exact H.
Qed.

(** When the catalog of a job is a missing file, or lacks the [query]
    column, the main flow of either runner throws while loading it, before
    the browser is launched: the world it leaves is the one the jobs before
    it left, with no call made on a browser and no directory or file of
    that job. *)
Lemma bad_catalog_is_fatal_before_launch
    r env w (pre post : list Job) (job : Job) done w1 :
  map_each loadJob pre env w = (Returned done, w1) ->
  missing w1 (file job) \/ lacksQuery env w1 (file job) ->
  exists e, loadCsvPrompts (file job) env w1 = (Thrown e, w1) /\
            mainOf r (pre ++ job :: post) env w = (Thrown e, w1) /\
            calls w1 = calls w.
Proof.
  intros Hpre Hbad.
  assert (exists e, loadCsvPrompts (file job) env w1 = (Thrown e, w1)) as [e He].
  { destruct Hbad as [Hm|Hl].
    - eexists. by apply loadCsvPrompts_missing.
    - by apply loadCsvPrompts_lacksQuery. }
  exists e. split; [exact He|].
  destruct r; apply (mainFlow_aborts _ _ _ _ _ _ _ _ _ _ _ Hpre He).
Qed.

(** It is the first row that decides.  A source whose first row has a cell
    under [query] loads: one prompt per row, the cell under [query], and
    the empty string for a row without that cell; nothing else changes. *)
Lemma loadCsvPrompts_loads csvFile env w f first rest :
  files w !! csvFile = Some f ->
  parse env (textOf env f) = inr (first :: rest) ->
  is_Some (cell "query" first) ->
  loadCsvPrompts csvFile env w =
    (Returned (map (fun r => default EmptyString (cell "query" r)) (first :: rest)), w).
Proof.
  intros Hf Hp Hq. rewrite (loadCsvPrompts_parsed _ _ _ _ _ Hf Hp).
  rewrite bool_decide_eq_true_2 by done. cbn [negb].
  reflexivity.
Qed.

(** A source whose first row has no cell under [query] is refused as one
    without the column, whatever cells the rows after it have. *)
Lemma loadCsvPrompts_first_row_decides csvFile env w f first rest :
  files w !! csvFile = Some f ->
  parse env (textOf env f) = inr (first :: rest) ->
  cell "query" first = None ->
  loadCsvPrompts csvFile env w =
    (Thrown ("CSV does not have a 'query' header column: " +:+ csvFile), w).
Proof.
  intros Hf Hp Hq. rewrite (loadCsvPrompts_parsed _ _ _ _ _ Hf Hp), Hq.
  rewrite (bool_decide_eq_false_2 (is_Some None)) by (intros [? ?]; done).
  reflexivity.
Qed.

(** C8.  The catalog [id,query] whose first row is the short row [1] and
    whose second row is [2,largest ocean] has the [query] column, and the
    rows csv-parse makes of it (with [relax_column_count]) are a record
    without a [query] cell and a record with one.  [loadCsvPrompts] refuses
    it as a source without the column, and the main flow of either runner
    ends there, before the browser is launched and with nothing written;
    the same two rows in the other order load, the short row as the empty
    prompt. *)
Theorem C8_short_first_row_is_rejected :
  let env := parsing (inr shortFirstRow) quiet in
  let job := mkJob "prompts.csv" "abstain_gpt-5_1" in
  loadCsvPrompts "prompts.csv" env withShortFirstRow
    = (Thrown "CSV does not have a 'query' header column: prompts.csv", withShortFirstRow) /\
  (forall r, mainOf r [job] env withShortFirstRow
    = (Thrown "CSV does not have a 'query' header column: prompts.csv", withShortFirstRow)) /\
  loadCsvPrompts "prompts.csv" (parsing (inr (rev shortFirstRow)) quiet) withShortFirstRow
    = (Returned ["largest ocean"; EmptyString], withShortFirstRow).
Proof.
  intros env job.
  assert (Hload : loadCsvPrompts "prompts.csv" env withShortFirstRow
    = (Thrown "CSV does not have a 'query' header column: prompts.csv", withShortFirstRow)).
  { apply (loadCsvPrompts_first_row_decides _ _ _
             (TextFile ("id,query" +:+ nl +:+ "1" +:+ nl +:+ "2,largest ocean" +:+ nl))
             [("id", "1")] [[("id", "2"); ("query", "largest ocean")]]); reflexivity. }
  split; [exact Hload|]. split.
  - intros r.
    pose proof (fun dir batch =>
      proj1 (mainFlow_aborts dir batch [] job [] env withShortFirstRow []
               withShortFirstRow _ withShortFirstRow eq_refl Hload)) as Hmain.
    destruct r; apply Hmain.
  - apply (loadCsvPrompts_loads _ _ _
             (TextFile ("id,query" +:+ nl +:+ "1" +:+ nl +:+ "2,largest ocean" +:+ nl))
             [("id", "2"); ("query", "largest ocean")] [[("id", "1")]]);
      [reflexivity|reflexivity|by eexists].
Qed.

(** A catalog with a blank cell and a short row loads as empty prompts. *)
Example loadCsvPrompts_blank_cells :
  (loadCsvPrompts "prompts.csv"
     (parsing (inr [[("query", "capital of France")]; [("query", EmptyString)]; []]) quiet)
     withCatalog).1
  = Returned ["capital of France"; EmptyString; EmptyString].
Proof. reflexivity. Qed.

(** C10.  A catalog that parses to no row at all makes [loadCsvPrompts]
    throw, and with it the main flow of either runner, before the browser
    is launched. *)
Theorem C10_empty_catalog_is_fatal
    r env w (pre post : list Job) (job : Job) done w1 f :
  map_each loadJob pre env w = (Returned done, w1) ->
  files w1 !! file job = Some f ->
  parse env (textOf env f) = inr [] ->
  loadCsvPrompts (file job) env w1
    = (Thrown ("CSV has no data rows: " +:+ file job), w1) /\
  mainOf r (pre ++ job :: post) env w
    = (Thrown ("CSV has no data rows: " +:+ file job), w1) /\
  calls w1 = calls w.
Proof.
  intros Hpre Hf Hp.
  pose proof (loadCsvPrompts_parsed _ _ _ _ _ Hf Hp) as He.
  split; [exact He|].
  destruct r; apply (mainFlow_aborts _ _ _ _ _ _ _ _ _ _ _ Hpre He).
Qed.

(** A catalog with a header and no row, as the only job of the Claude
    runner. *)
Lemma C10_witness :
  let job := mkJob "prompts.csv" "factual_opus-4.1_1" in
  loadCsvPrompts (file job) quiet withCatalog
    = (Thrown ("CSV has no data rows: " +:+ file job), withCatalog) /\
  mainOf ClaudeAI ([] ++ job :: []) quiet withCatalog
    = (Thrown ("CSV has no data rows: " +:+ file job), withCatalog) /\
  calls withCatalog = calls withCatalog.
Proof.
  intros job.
  apply (C10_empty_catalog_is_fatal ClaudeAI quiet withCatalog [] [] job [] withCatalog
           (TextFile "id,text")); reflexivity.
Defined.

(** ** The prompt the Claude runner sends *)

(** The guarded part of the loop body always completes, and leaves a
    response file that starts with the header of the prompt. *)
Lemma guarded_completes (attempt : M unit) idx harFilename answerFilename promptText env w :
  total attempt ->
  exists w' (t : Z) body,
    guarded attempt idx harFilename answerFilename promptText env w = (Returned tt, w') /\
    (denied env answerFilename = None ->
     files w' !! answerFilename =
       Some (TextFile (header promptText (toISOString env t) +:+ body))).
Proof.
  intros Htotal.
  destruct (guarded_run attempt idx harFilename answerFilename promptText env w
              (attempt env w).1 (attempt env w).2) as (w' & t & E & _ & F).
  - by destruct (attempt env w).
  - apply Htotal.
  - exists w', t, (orPlaceholder (finalAnswer (attempt env w).2)). done.
Qed.

(** A batch of one query on a page that answers: what is typed, and what the
    response file holds. *)
Example claude_batch_of_one :
  let w' := (Claude.processPromptsBatch ["capital of France"] "factual_opus-4.1_1"
               answering startWorld).2 in
  filter isEditorType (calls w') = [EditorType "Search the web for: capital of France" 40] /\
  files w' !! "factual_opus-4.1_1/factual_responses_opus-4.1_1/response-prompt-1.txt" =
    Some (TextFile ("Prompt: Search the web for: capital of France" +:+ nl +:+
                    "Timestamp: 2025-01-01T00:00:00.000Z" +:+ nl +:+ nl +:+ "Paris.")).
Proof. vm_compute. split; reflexivity. Qed.

(** ** The pipeline, end to end *)

(** Both detectors return on every page: the loop sleeps at least a
    millisecond a turn and stops at [maxTimeout]. *)
Lemma detector_total r sMs mT pI : total (detector r sMs mT pI).
Proof.
  destruct r; runner_rewrite.
  - apply total_waitForStability; [apply later_readParagraphs|repeat total_step].
  - apply total_waitForStability; [apply later_readVisibleText|repeat total_step].
Qed.

(** A prompt whose answer is streamed but never rendered: the trace gets the
    captured stream, the response file the placeholder, and the offline
    pass then puts the reconstructed answer in its place. *)
Example capture_then_reconstruct :
  let fs := files (GPT.processPromptsBatch ["greet"] "abstain_gpt-5_1" capturing
                     startWorld).2 in
  let trace := "abstain_gpt-5_1/abstain_hars_gpt-5_1/network-logs-prompt-1.har" in
  let answer := "abstain_gpt-5_1/abstain_responses_gpt-5_1/response-prompt-1.txt" in
  fs !! trace = Some (HarFile (mkHar [pageEntry; streamEntry helloStream] [])) /\
  fs !! answer = Some (TextFile (header "greet" "2025-01-01T00:00:00.000Z"
                                 +:+ "[no answer captured]")) /\
  reconstructPass sampleDecode trace answer fs !! answer =
    Some (TextFile (header "greet" "2025-01-01T00:00:00.000Z" +:+ "Hello")).
Proof. vm_compute. repeat split; reflexivity. Qed.
(** ** Strings and paths *)

Lemma app_cons (c : ascii) (a b : string) : String c a +:+ b = String c (a +:+ b).
Proof. reflexivity. Qed.

Lemma app_nil (b : string) : EmptyString +:+ b = b.
Proof. reflexivity. Qed.

Lemma prefix_char (sep c : ascii) (rest : string) :
  String.prefix (String sep EmptyString) (String c rest) = Ascii.eqb c sep.
Proof.
  simpl. destruct (ascii_dec sep c) as [->|Hne].
  - rewrite Ascii.eqb_refl. by destruct rest.
  - symmetry. apply Ascii.eqb_neq. congruence.
Qed.

(** A string without the separator is one piece. *)
Lemma split_lacks (sep : ascii) (s : string) :
  includes s (String sep EmptyString) = false -> split sep s = [s].
Proof.
  induction s as [|c s IH]; [done|].
  cbn [includes split]. rewrite prefix_char.
  destruct (Ascii.eqb c sep); [done|]. cbn [orb]. intros H. by rewrite (IH H).
Qed.

(** The first separator ends the first piece. *)
Lemma split_at_first (sep : ascii) (a b : string) :
  includes a (String sep EmptyString) = false ->
  split sep (a +:+ String sep b) = a :: split sep b.
Proof.
  induction a as [|c a IH].
  - intros _. rewrite app_nil. cbn [split]. by rewrite Ascii.eqb_refl.
  - cbn [includes]. rewrite prefix_char, app_cons. cbn [split].
    destruct (Ascii.eqb c sep); [done|]. cbn [orb]. intros H. by rewrite (IH H).
Qed.

Lemma split_cons (sep : ascii) (s : string) :
  exists piece pieces, split sep s = piece :: pieces.
Proof.
  destruct s as [|c s]; [by eexists _, _|]. cbn [split].
  destruct (Ascii.eqb c sep); [by eexists _, _|].
  destruct (split sep s); by eexists _, _.
Qed.

Lemma join_cons (sep a b : string) (l : list string) :
  join sep (a :: b :: l) = a +:+ sep +:+ join sep (b :: l).
Proof. reflexivity. Qed.

(** Joining the pieces with the separator gives the string back. *)
Lemma join_split (sep : ascii) (s : string) :
  join (String sep EmptyString) (split sep s) = s.
Proof.
  induction s as [|c s IH]; [done|]. cbn [split].
  destruct (split_cons sep s) as (p & ps & E). rewrite E in IH |- *.
  destruct (Ascii.eqb_spec c sep) as [->|Hne].
  - rewrite join_cons, app_nil, app_cons, app_nil. by rewrite IH.
  - destruct ps as [|q ps].
    + cbn [join] in *. by rewrite IH.
    + rewrite join_cons in *. rewrite app_cons. by rewrite IH.
Qed.

Lemma outDir_parts outDir c m :
  path_basename outDir = c +:+ "_" +:+ m ->
  includes c "_" = false ->
  category outDir = c /\ modelParts outDir = m.
Proof.
  intros Hbase Hc. unfold category, modelParts. rewrite Hbase.
  change ("_" +:+ m) with (String "_"%char m).
  rewrite (split_at_first _ _ _ Hc). cbn [hd tl]. split; [done|].
  apply (join_split "_"%char).
Qed.

(** X1.  The name of the output directory is cut at its first underscore:
    what comes before is the category, everything after it (further
    underscores included) is the model, for which the Claude runner takes
    [claude] when it is empty; the traces go to the subdirectory
    [<category>_hars_<model>] and the responses to
    [<category>_responses_<model>]. *)
Theorem X1_outDir_is_cut_at_its_first_underscore outDir c m :
  path_basename outDir = c +:+ "_" +:+ m ->
  includes c "_" = false ->
  category outDir = c /\
  GPT.model outDir = m /\
  Claude.model outDir = (if String.eqb m EmptyString then "claude" else m) /\
  GPT.harsDirOf outDir = path_join outDir (c +:+ "_hars_" +:+ m) /\
  GPT.responsesDirOf outDir = path_join outDir (c +:+ "_responses_" +:+ m) /\
  Claude.harsDirOf outDir =
    path_join outDir (c +:+ "_hars_" +:+ (if String.eqb m EmptyString then "claude" else m)) /\
  Claude.responsesDirOf outDir =
    path_join outDir
      (c +:+ "_responses_" +:+ (if String.eqb m EmptyString then "claude" else m)).
Proof.
  intros Hbase Hc. destruct (outDir_parts outDir c m Hbase Hc) as [Hcat Hmod].
  unfold GPT.harsDirOf, GPT.responsesDirOf, Claude.harsDirOf, Claude.responsesDirOf,
    GPT.model, Claude.model.
  rewrite Hcat, Hmod. done.
Qed.

(** The output directory of the ChatGPT runner's job. *)
Lemma X1_witness :
  category "abstain_gpt-5_1" = "abstain" /\
  GPT.model "abstain_gpt-5_1" = "gpt-5_1" /\
  Claude.model "abstain_gpt-5_1" =
    (if String.eqb "gpt-5_1" EmptyString then "claude" else "gpt-5_1") /\
  GPT.harsDirOf "abstain_gpt-5_1" =
    path_join "abstain_gpt-5_1" ("abstain" +:+ "_hars_" +:+ "gpt-5_1") /\
  GPT.responsesDirOf "abstain_gpt-5_1" =
    path_join "abstain_gpt-5_1" ("abstain" +:+ "_responses_" +:+ "gpt-5_1") /\
  Claude.harsDirOf "abstain_gpt-5_1" =
    path_join "abstain_gpt-5_1"
      ("abstain" +:+ "_hars_" +:+
       (if String.eqb "gpt-5_1" EmptyString then "claude" else "gpt-5_1")) /\
  Claude.responsesDirOf "abstain_gpt-5_1" =
    path_join "abstain_gpt-5_1"
      ("abstain" +:+ "_responses_" +:+
       (if String.eqb "gpt-5_1" EmptyString then "claude" else "gpt-5_1")).
Proof.
  apply (X1_outDir_is_cut_at_its_first_underscore "abstain_gpt-5_1" "abstain" "gpt-5_1");
    reflexivity.
Defined.

(** X2.  A plain directory name without an underscore is its own category
    and leaves the model empty: the ChatGPT runner then writes to the
    subdirectories [<name>_hars_] and [<name>_responses_], the Claude
    runner to [<name>_hars_claude] and [<name>_responses_claude]. *)
Theorem X2_outDir_without_underscore outDir :
  includes outDir "/" = false ->
  includes outDir "_" = false ->
  category outDir = outDir /\
  GPT.model outDir = EmptyString /\
  Claude.model outDir = "claude" /\
  GPT.harsDirOf outDir = path_join outDir (outDir +:+ "_hars_") /\
  GPT.responsesDirOf outDir = path_join outDir (outDir +:+ "_responses_") /\
  Claude.harsDirOf outDir = path_join outDir (outDir +:+ "_hars_claude") /\
  Claude.responsesDirOf outDir = path_join outDir (outDir +:+ "_responses_claude").
Proof.
  intros Hplain H.
  assert (Hbase : path_basename outDir = outDir)
    by (unfold path_basename; by rewrite (split_lacks _ _ Hplain)).
  assert (Hcat : category outDir = outDir)
    by (unfold category; rewrite Hbase; by rewrite (split_lacks _ _ H)).
  assert (Hmod : modelParts outDir = EmptyString)
    by (unfold modelParts; rewrite Hbase; by rewrite (split_lacks _ _ H)).
  unfold GPT.harsDirOf, GPT.responsesDirOf, Claude.harsDirOf, Claude.responsesDirOf,
    GPT.model, Claude.model.
  rewrite Hcat, Hmod. done.
Qed.

Lemma X2_witness :
  category "scratch" = "scratch" /\
  GPT.model "scratch" = EmptyString /\
  Claude.model "scratch" = "claude" /\
  GPT.harsDirOf "scratch" = path_join "scratch" ("scratch" +:+ "_hars_") /\
  GPT.responsesDirOf "scratch" = path_join "scratch" ("scratch" +:+ "_responses_") /\
  Claude.harsDirOf "scratch" = path_join "scratch" ("scratch" +:+ "_hars_claude") /\
  Claude.responsesDirOf "scratch" = path_join "scratch" ("scratch" +:+ "_responses_claude").
Proof. apply (X2_outDir_without_underscore "scratch"); reflexivity. Defined.
(** ** Correlation, run again *)

Lemma setStreamBody_again s1 s2 entry :
  setStreamBody s2 (setStreamBody s1 entry) = setStreamBody s2 entry.
Proof.
  unfold setStreamBody.
  destruct (response entry) as [r|] eqn:Hr; [|by rewrite Hr].
  destruct (content r) as [c|] eqn:Hc; [done|]. by rewrite Hr, Hc.
Qed.

Lemma setStreamBody_stays_streaming s entry :
  isEventStream entry = true -> isEventStream (setStreamBody s entry) = true.
Proof.
  intros H. destruct (setStreamBody_streaming s entry H) as (r & c & _ & _ & Hm & ->).
  unfold isEventStream. simpl. by rewrite Hm, bool_decide_eq_true_2.
Qed.

Lemma injectSSE_again s1 s2 es : injectSSE s2 (injectSSE s1 es) = injectSSE s2 es.
Proof.
  induction es as [|entry rest IH]; [done|]. cbn [injectSSE].
  destruct (isEventStream entry) eqn:Hs; cbn [injectSSE].
  - by rewrite (setStreamBody_stays_streaming _ _ Hs), setStreamBody_again.
  - by rewrite Hs, IH.
Qed.

Lemma correlate_again s1 s2 h : correlate s2 (correlate s1 h) = correlate s2 h.
Proof. unfold correlate. simpl. by rewrite injectSSE_again. Qed.

(** X3.  Running the correlation block again on a trace it has already
    rewritten, with the same or with another stream text, rewrites the
    same entry: the files are as if only the last run had happened.  With
    the same text the block is idempotent. *)
Theorem X3_correlation_again_keeps_the_last_text env w harFilename s1 s2 (h : Har) :
  files w !! harFilename = Some (HarFile h) ->
  denied env harFilename = None ->
  files (injectSseIntoHar harFilename s2 env (injectSseIntoHar harFilename s1 env w).2).2
    = files (injectSseIntoHar harFilename s2 env w).2 /\
  files (injectSseIntoHar harFilename s2 env w).2 !! harFilename
    = Some (HarFile (correlate s2 h)) /\
  files (injectSseIntoHar harFilename s1 env (injectSseIntoHar harFilename s1 env w).2).2
    = files (injectSseIntoHar harFilename s1 env w).2.
Proof.
  intros Hfile Hden.
  assert (Hrun : forall s h0 w0, files w0 !! harFilename = Some (HarFile h0) ->
    files (injectSseIntoHar harFilename s env w0).2
      = <[harFilename := HarFile (correlate s h0)]> (files w0)).
  { intros s h0 w0 H0. run_blocks. rewrite H0, Hden. reflexivity. }
  assert (Hstep : forall a b,
    files (injectSseIntoHar harFilename b env (injectSseIntoHar harFilename a env w).2).2
      = files (injectSseIntoHar harFilename b env w).2).
  { intros a b.
    rewrite (Hrun b (correlate a h)), (Hrun a h), (Hrun b h); try done.
    - by rewrite correlate_again, insert_insert_eq.
    - rewrite (Hrun a h) by done. apply lookup_insert_eq. }
  repeat split.
  - apply Hstep.
  - rewrite (Hrun s2 h) by done. apply lookup_insert_eq.
  - apply Hstep.
Qed.

Lemma X3_witness :
  files (injectSseIntoHar "trace.har" "data: b" quiet
           (injectSseIntoHar "trace.har" "data: a" quiet (withTrace sampleHar)).2).2
    = files (injectSseIntoHar "trace.har" "data: b" quiet (withTrace sampleHar)).2 /\
  files (injectSseIntoHar "trace.har" "data: b" quiet (withTrace sampleHar)).2 !! "trace.har"
    = Some (HarFile (correlate "data: b" sampleHar)) /\
  files (injectSseIntoHar "trace.har" "data: a" quiet
           (injectSseIntoHar "trace.har" "data: a" quiet (withTrace sampleHar)).2).2
    = files (injectSseIntoHar "trace.har" "data: a" quiet (withTrace sampleHar)).2.
Proof.
  apply (X3_correlation_again_keeps_the_last_text quiet (withTrace sampleHar) "trace.har"
           "data: a" "data: b" sampleHar); reflexivity.
Defined.
(** ** The rendering of the paragraphs *)

Lemma visibleText_agree texts : Claude.visibleText texts = GPT.visibleText texts.
Proof.
  unfold Claude.visibleText, GPT.visibleText. f_equal.
  induction texts as [|t texts IH]; [done|].
  rewrite !filter_cons, IH.
  destruct t as [|c t]; [done|]. cbn [String.eqb negb andb]. done.
Qed.

Lemma join_is_empty sep pieces :
  join sep pieces = EmptyString -> Forall (fun piece => piece = EmptyString) pieces.
Proof.
  induction pieces as [|a [|b rest] IH]; intros H.
  - constructor.
  - constructor; [exact H|constructor].
  - rewrite join_cons in H. destruct a as [|x a]; [|discriminate H].
    rewrite app_nil in H. constructor; [done|]. apply IH.
    destruct sep as [|y sep]; [by rewrite app_nil in H|discriminate H].
Qed.

(** X4.  Both runners make the same text of the same paragraphs (the
    Claude reader's extra test for an empty paragraph changes nothing), and
    that text is empty exactly when every paragraph is blank. *)
Theorem X4_rendered_text_is_empty_iff_all_blank r texts :
  rendering r texts = GPT.visibleText texts /\
  (rendering r texts = EmptyString <-> forall t, t ∈ texts -> blank t = true).
Proof.
  assert (Hr : rendering r texts = GPT.visibleText texts)
    by (destruct r; [done|apply visibleText_agree]).
  split; [exact Hr|]. rewrite Hr. unfold GPT.visibleText. split.
  - intros H t Ht. apply join_is_empty in H.
    destruct (blank t) eqn:Hb; [done|].
    assert (Hin : t ∈ filter (fun t => negb (blank t)) texts).
    { apply list_elem_of_filter. split; [by rewrite Hb|done]. }
    rewrite Forall_forall in H. specialize (H t Hin). by rewrite H in Hb.
  - intros H.
    assert (filter (fun t => negb (blank t)) texts = []) as ->; [|done].
    clear Hr. induction texts as [|t texts IH]; [done|].
    rewrite filter_cons, (H t); [|by left]. cbn [negb].
    destruct (decide _) as [[]|_]. apply IH. intros u Hu. apply H. by right.
Qed.
(** ** The completion detector, on every page *)

(** The rule of the polling loop: what holds of its variables at the head of
    every turn ([Inv]) gives what holds of its completion ([Post]). *)
Section LoopRule.

Variables (read : M string) (env : Env) (sMs mT pI start : Z).
Variables (Inv : string -> Z -> World -> Prop) (Post : Result string -> World -> Prop).

Hypothesis timed_out : forall lastText since w,
  Inv lastText since w -> ~ clock w - start < mT -> Post (Returned lastText) w.

Hypothesis polled_once : forall lastText since w,
  Inv lastText since w -> clock w - start < mT ->
  match read env w with
  | (Returned current, w1) =>
      if String.eqb current lastText
      then if bool_decide (clock w1 - since >= sMs) then Post (Returned current) w1
           else Inv lastText since (advance (nap pI) w1)
      else Inv current (clock w1) (advance (nap pI) w1)
  | (Thrown e, w1) => Post (Thrown e) w1
  | (Diverged, w1) => Post Diverged w1
  end.

Hypothesis out_of_turns : forall w, Post Diverged w.

Lemma loop_rule fuel : forall lastText since w,
  Inv lastText since w ->
  Post (stabilityLoop fuel read sMs mT pI start lastText since env w).1
       (stabilityLoop fuel read sMs mT pI start lastText since env w).2.
Proof.
  induction fuel as [|fuel IH]; intros lastText since w Hinv;
    rewrite run_stabilityLoop; case_bool_decide as Htime;
    try (by apply (timed_out _ since)); try apply out_of_turns.
  pose proof (polled_once lastText since w Hinv Htime) as Hpoll.
  destruct (read env w) as [[current|e|] w1]; try exact Hpoll.
  destruct (String.eqb current lastText).
  - case_bool_decide; [exact Hpoll|]. by apply IH.
  - by apply IH.
Qed.

End LoopRule.

(** What a read of the page does, in either runner. *)
Lemma reader_facts r env w :
  tick (reader r env w).2 = S (tick w) /\
  clock (reader r env w).2 = clock w + Z.of_N (latency env (tick w)) /\
  match (reader r env w).1 with
  | Returned s =>
      (failure env (tick w) = None /\ s = rendering r (innerTexts env (tick w))) \/
      (r = ClaudeAI /\ s = EmptyString)
  | Thrown e => r = ChatGPT /\ failure env (tick w) = Some e
  | Diverged => False
  end.
Proof.
  destruct r;
    cbv [reader GPT.readParagraphs Claude.readVisibleText catch_with try_catch interact
         mbind M_bind mret M_ret ask];
    destruct (failure env (tick w)); simpl; auto.
Qed.

(** The value of a read, by the failure of its step. *)
Lemma reader_outcome r env w :
  (reader r env w).1 =
  match failure env (tick w) with
  | None => Returned (rendering r (innerTexts env (tick w)))
  | Some e => match r with ChatGPT => Thrown e | ClaudeAI => Returned EmptyString end
  end.
Proof.
  destruct r;
    cbv [reader GPT.readParagraphs Claude.readVisibleText catch_with try_catch interact
         mbind M_bind mret M_ret ask];
    destruct (failure env (tick w)); reflexivity.
Qed.

(** X5.  What a detector can come back with: it always comes back.  The
    text it returns is the text of one of its own polls, a step between the
    world it was started in and the world it ends in (on the Claude page a
    poll that failed counts as the empty text); it returns without a poll
    only when [maxTimeout] is not positive, and then the text is empty and
    nothing has happened.  The error it rejects with is the error of its
    last poll, and only the ChatGPT detector rejects. *)
Theorem X5_detector_returns_a_text_it_has_read r sMs mT pI env w :
  let w' := (detector r sMs mT pI env w).2 in
  match (detector r sMs mT pI env w).1 with
  | Returned s =>
      (mT <= 0 /\ s = EmptyString /\ w' = w) \/
      exists n, (tick w <= n < tick w')%nat /\
        ((failure env n = None /\ s = rendering r (innerTexts env n)) \/
         (r = ClaudeAI /\ failure env n <> None /\ s = EmptyString))
  | Thrown e =>
      r = ChatGPT /\ (tick w < tick w')%nat /\ failure env (pred (tick w')) = Some e
  | Diverged => False
  end.
Proof.
  pose proof (detector_total r sMs mT pI env w) as Htotal.
  rewrite detector_run in *.
  set (polled := fun (s : string) (w0 : World) =>
          exists n, (tick w <= n < tick w0)%nat /\
            ((failure env n = None /\ s = rendering r (innerTexts env n)) \/
             (r = ClaudeAI /\ failure env n <> None /\ s = EmptyString))).
  pose proof (loop_rule (reader r) env sMs mT pI (clock w)
    (fun lastText _ w0 => (lastText = EmptyString /\ w0 = w) \/ polled lastText w0)
    (fun res w1 => match res with
                  | Returned s => (mT <= 0 /\ s = EmptyString /\ w1 = w) \/ polled s w1
                  | Thrown e => r = ChatGPT /\ (tick w < tick w1)%nat /\
                                failure env (pred (tick w1)) = Some e
                  | Diverged => True
                  end)) as Hrule.
  cbv beta in Hrule.
  assert (Hout : forall lastText (since : Z) w0,
    (lastText = EmptyString /\ w0 = w) \/ polled lastText w0 ->
    ~ clock w0 - clock w < mT ->
    (mT <= 0 /\ lastText = EmptyString /\ w0 = w) \/ polled lastText w0).
  { intros lastText _ w0 [[-> ->]|Hp] Htime; [left; repeat split; lia|by right]. }
  assert (Hlater : forall s w0 w1, (tick w0 <= tick w1)%nat -> polled s w0 -> polled s w1).
  { intros s w0 w1 Hle (n & Hn & Hs). exists n. split; [lia|done]. }
  assert (Hpoll : forall lastText (since : Z) w0,
    (lastText = EmptyString /\ w0 = w) \/ polled lastText w0 -> clock w0 - clock w < mT ->
    match reader r env w0 with
    | (Returned current, w1) =>
        if String.eqb current lastText
        then if bool_decide (clock w1 - since >= sMs)
             then (mT <= 0 /\ current = EmptyString /\ w1 = w) \/ polled current w1
             else (lastText = EmptyString /\ advance (nap pI) w1 = w) \/
                  polled lastText (advance (nap pI) w1)
        else (current = EmptyString /\ advance (nap pI) w1 = w) \/
             polled current (advance (nap pI) w1)
    | (Thrown e, w1) => r = ChatGPT /\ (tick w < tick w1)%nat /\
                        failure env (pred (tick w1)) = Some e
    | (Diverged, w1) => True
    end).
  { intros lastText since w0 Hinv _.
    assert (Hle : (tick w <= tick w0)%nat).
    { destruct Hinv as [[_ ->]|(n & Hn & _)]; lia. }
    destruct (reader_facts r env w0) as (Htick & _ & Hres).
    pose proof (reader_outcome r env w0) as Hout0.
    destruct (reader r env w0) as [[current|e|] w1]; simpl in *; [| |done].
    - assert (Hc : polled current w1).
      { exists (tick w0). split; [lia|].
        destruct (failure env (tick w0)) as [e|] eqn:Hf; [|left; split; congruence].
        destruct r; [done|]. right. repeat split; congruence. }
      destruct (String.eqb_spec current lastText) as [->|_];
        [case_bool_decide|]; right; try done;
        apply (Hlater _ w1); simpl; try done; lia.
    - destruct Hres as [-> Hf]. rewrite Htick. simpl. repeat split; [lia|done]. }
  specialize (Hrule Hout Hpoll ltac:(done) (Z.to_nat mT) EmptyString (clock w) w
                ltac:(by left)).
  cbv zeta. destruct (stabilityLoop _ _ _ _ _ _ _ _ _ _) as [[s|e|] w']; done.
Qed.

(** The Claude reader turns a failed evaluation into the empty text, so the
    Claude detector never rejects. *)
Lemma claude_loop_returns sMs mT pI start env fuel lastText since w e :
  (stabilityLoop fuel Claude.readVisibleText sMs mT pI start lastText since env w).1
    <> Thrown e.
Proof.
  pose proof (loop_rule Claude.readVisibleText env sMs mT pI start
    (fun _ _ _ => True) (fun res _ => res <> Thrown e)) as Hrule.
  cbv beta in Hrule. apply Hrule; try done.
  intros l s w0 _ _.
  pose proof (reader_facts ClaudeAI env w0) as (_ & _ & Hres).
  change (reader ClaudeAI) with Claude.readVisibleText in Hres.
  destruct (Claude.readVisibleText env w0) as [[current|e'|] w1]; simpl in *.
  - destruct (String.eqb current l); [case_bool_decide|]; done.
  - by destruct Hres.
  - done.
Qed.

(** X6.  The Claude detector returns a text on every page, whatever fails in
    the browser: it never rejects. *)
Theorem X6_claude_detector_never_rejects sMs mT pI env w :
  exists s w', Claude.waitForClaudeStability sMs mT pI env w = (Returned s, w').
Proof.
  pose proof (detector_total ClaudeAI sMs mT pI env w) as Htotal.
  rewrite detector_run in Htotal. change (reader ClaudeAI) with Claude.readVisibleText in Htotal.
  unfold Claude.waitForClaudeStability. rewrite run_waitForStability.
  pose proof (claude_loop_returns sMs mT pI (clock w) env (Z.to_nat mT) EmptyString
                (clock w) w) as Hnothrow.
  destruct (stabilityLoop _ _ _ _ _ _ _ _ _ _) as [[s|e|] w']; [by eexists _, _| |done].
  by destruct (Hnothrow e).
Qed.

Lemma nap_positive pI : 1 <= nap pI.
Proof. unfold nap. case_bool_decide; lia. Qed.

(** X7.  A detector never returns sooner than the stability window, or than
    [maxTimeout] when that is shorter, after it was started. *)
Theorem X7_detector_waits_for_the_window r sMs mT pI env w s w' :
  detector r sMs mT pI env w = (Returned s, w') ->
  Z.min sMs mT <= clock w' - clock w.
Proof.
  rewrite detector_run.
  pose proof (loop_rule (reader r) env sMs mT pI (clock w)
    (fun _ since w0 => clock w <= since <= clock w0)
    (fun res w1 => match res with
                   | Returned _ => Z.min sMs mT <= clock w1 - clock w
                   | _ => True
                   end)) as Hrule.
  cbv beta in Hrule.
  specialize (Hrule ltac:(intros; simpl; lia)).
  assert (Hpoll : forall (lastText : string) since w0,
    clock w <= since <= clock w0 -> clock w0 - clock w < mT ->
    match reader r env w0 with
    | (Returned current, w1) =>
        if String.eqb current lastText
        then if bool_decide (clock w1 - since >= sMs) then Z.min sMs mT <= clock w1 - clock w
             else clock w <= since <= clock (advance (nap pI) w1)
        else clock w <= clock w1 <= clock (advance (nap pI) w1)
    | (Thrown e, w1) => True
    | (Diverged, w1) => True
    end).
  { intros lastText since w0 Hs _.
    destruct (reader_facts r env w0) as (_ & Hclock & _).
    pose proof (nap_positive pI).
    destruct (reader r env w0) as [[current|e|] w1]; simpl in *; try done.
    destruct (String.eqb current lastText); [case_bool_decide|]; lia. }
  specialize (Hrule Hpoll ltac:(done) (Z.to_nat mT) EmptyString (clock w) w ltac:(lia)).
  intros E. rewrite E in Hrule. exact Hrule.
Qed.

Lemma X7_witness :
  Z.min 3000 60000 <= clock (detector ChatGPT 3000 60000 1000 answering startWorld).2
                      - clock startWorld.
Proof.
  apply (X7_detector_waits_for_the_window ChatGPT 3000 60000 1000 answering startWorld
           "Paris.").
  vm_compute. reflexivity.
Defined.



(** X9.  With a [maxTimeout] that is not positive a detector returns the
    empty text at once: it does not look at the page and no time passes. *)
Theorem X9_detector_without_time_reads_nothing r sMs mT pI env w :
  mT <= 0 -> detector r sMs mT pI env w = (Returned EmptyString, w).
Proof.
  intros HmT. rewrite detector_run, run_stabilityLoop.
  rewrite bool_decide_eq_false_2 by lia. reflexivity.
Qed.

Lemma X9_witness : detector ClaudeAI 3000 0 1000 answering startWorld = (Returned EmptyString, startWorld).
Proof. apply X9_detector_without_time_reads_nothing. lia. Defined.

(** X10.  At any turn of the ChatGPT detector's loop, whatever text it has
    seen so far, a paragraph query that fails makes the detector reject
    with that error, the text seen so far being dropped; the Claude
    detector takes the same failure for an empty page and goes on. *)
Theorem X10_failed_poll_rejects_in_chatgpt_only
    sMs mT pI start fuel lastText since env w e :
  failure env (tick w) = Some e ->
  clock w - start < mT ->
  stabilityLoop (S fuel) GPT.readParagraphs sMs mT pI start lastText since env w
    = (Thrown e, advance (Z.of_N (latency env (tick w))) (record_call (EvalTexts "p") w)) /\
  Claude.readVisibleText env w
    = (Returned EmptyString,
       advance (Z.of_N (latency env (tick w)))
               (record_call (EvalTexts Claude.answerTextNodes) w)).
Proof.
  intros Hf Htime. split.
  - rewrite run_stabilityLoop, bool_decide_eq_true_2 by done.
    cbv [GPT.readParagraphs interact mbind M_bind mret M_ret ask]. by rewrite Hf.
  - cbv [Claude.readVisibleText catch_with try_catch interact mbind M_bind mret M_ret ask].
    by rewrite Hf.
Qed.

Lemma X10_witness :
  let env := detachedAt 0 answering in
  stabilityLoop 1 GPT.readParagraphs 3000 60000 1000 0 "Paris." 0 env startWorld
    = (Thrown "Node is detached from document",
       advance (Z.of_N (latency env (tick startWorld)))
               (record_call (EvalTexts "p") startWorld)) /\
  Claude.readVisibleText env startWorld
    = (Returned EmptyString,
       advance (Z.of_N (latency env (tick startWorld)))
               (record_call (EvalTexts Claude.answerTextNodes) startWorld)).
Proof.
  apply (X10_failed_poll_rejects_in_chatgpt_only 3000 60000 1000 0 0 "Paris." 0
           (detachedAt 0 answering) startWorld "Node is detached from document").
  - reflexivity.
  - reflexivity.
Defined.
(** ** The [finally] block, whatever fails *)

Lemma finishPrompt_footprint harFilename answerFilename promptText p :
  p <> harFilename -> p <> answerFilename ->
  respects (keeps (fun w => (files w !! p, dirs w, finalAnswer w, sseText w)))
           (finishPrompt harFilename answerFilename promptText).
Proof.
  intros Hh Ha.
  respects_with ltac:(first
    [ reflexivity
    | unfold keeps; simpl; by rewrite lookup_insert_ne ]).
Qed.

(** X11.  The [finally] block of a prompt never throws: whether or not the
    recorder stops, the trace can be read and the files can be written, it
    returns, having stopped the recorder once and made no other call on
    the page; it leaves every file but the prompt's trace and response
    file, the directories and the two variables of the prompt as they
    were. *)
Theorem X11_finally_block_always_completes harFilename answerFilename promptText env w :
  exists w', finishPrompt harFilename answerFilename promptText env w = (Returned tt, w') /\
    calls w' = (calls w ++ [HarStop])%list /\
    dirs w' = dirs w /\ finalAnswer w' = finalAnswer w /\ sseText w' = sseText w /\
    forall p, p <> harFilename -> p <> answerFilename -> files w' !! p = files w !! p.
Proof.
  destruct (finishPrompt_run harFilename answerFilename promptText env w)
    as (w' & t & E & C & _).
  exists w'. split; [exact E|]. split; [exact C|].
  assert (Hw : w' = (finishPrompt harFilename answerFilename promptText env w).2)
    by (by rewrite E).
  assert (Hnone : forall p, p <> harFilename -> p <> answerFilename ->
            (files w' !! p, dirs w', finalAnswer w', sseText w')
            = (files w !! p, dirs w, finalAnswer w, sseText w)).
  { intros p Hh Ha. rewrite Hw.
    apply (finishPrompt_footprint harFilename answerFilename promptText p Hh Ha env w). }
  set (fresh := harFilename +:+ answerFilename +:+ "x").
  assert (Hlen : forall a b : string,
            (String.length a < String.length b)%nat -> b <> a)
    by (intros a b Hl ->; lia).
  assert (Hf1 : fresh <> harFilename).
  { apply Hlen. unfold fresh. rewrite !length_append. simpl. lia. }
  assert (Hf2 : fresh <> answerFilename).
  { apply Hlen. unfold fresh. rewrite !length_append. simpl. lia. }
  pose proof (Hnone fresh Hf1 Hf2) as Hfresh. injection Hfresh as _ Hd Hfa Hs.
  repeat split; try done.
  intros p Hh Ha. specialize (Hnone p Hh Ha). by injection Hnone.
Qed.

(** X12.  When the recorder fails to stop and no trace file is there, the
    block warns, reports that the stream could not be put into the trace
    (there is none to read) and still saves the response file. *)
Theorem X12_answer_is_saved_without_a_trace
    harFilename answerFilename promptText env w msg :
  failure env (tick w) = Some msg ->
  files w !! harFilename = None ->
  harFilename ∉ dirs w ->
  denied env answerFilename = None ->
  exists w', finishPrompt harFilename answerFilename promptText env w = (Returned tt, w') /\
    console w' =
      (console w ++
       [(WARN, "Failed to stop HAR cleanly: " +:+ msg);
        (ERROR, "Failed to inject SSE into HAR: " +:+
                "ENOENT: no such file or directory, open '" +:+ harFilename +:+ "'");
        (LOG, "✅ Answer saved to " +:+ answerFilename)])%list /\
    files w' =
      <[answerFilename :=
          TextFile ("Prompt: " +:+ promptText +:+ nl +:+ "Timestamp: " +:+
                    toISOString env (clock w + Z.of_N (latency env (tick w))) +:+ nl +:+ nl +:+
                    (if String.eqb (finalAnswer w) EmptyString then "[no answer captured]"
                     else finalAnswer w))]> (files w).
Proof.
  intros Hf Hnone Hdir Hden.
  unfold finishPrompt. rewrite run_bind.
  assert (E1 : stopHar harFilename env w =
    (Returned tt, print WARN ("Failed to stop HAR cleanly: " +:+ msg)
                    (advance (Z.of_N (latency env (tick w))) (record_call HarStop w)))).
  { run_blocks. by rewrite Hf. }
  rewrite E1. rewrite run_bind. cbn [get]. rewrite run_bind.
  match goal with |- context [injectSseIntoHar _ _ env ?w0] => set (w1 := w0) end.
  assert (E2 : forall sse, injectSseIntoHar harFilename sse env w1 =
    (Returned tt, print ERROR ("Failed to inject SSE into HAR: " +:+
       "ENOENT: no such file or directory, open '" +:+ harFilename +:+ "'") w1)).
  { intros sse. run_blocks. subst w1. cbn [files dirs print advance record_call].
    rewrite Hnone. by rewrite bool_decide_eq_false_2. }
  rewrite E2. rewrite run_bind. cbn [get].
  eexists. split.
  { run_blocks. rewrite Hden. reflexivity. }
  subst w1. cbn. split; [by rewrite <- !app_assoc|].
  unfold header, orPlaceholder, placeholder. by rewrite !append_assoc.
Qed.

Lemma X12_witness :
  let env := failing (fun _ => Some "Target closed") quiet in
  exists w', finishPrompt "trace.har" "response.txt" "greet" env startWorld = (Returned tt, w') /\
    console w' =
      (console startWorld ++
       [(WARN, "Failed to stop HAR cleanly: " +:+ "Target closed");
        (ERROR, "Failed to inject SSE into HAR: " +:+
                "ENOENT: no such file or directory, open '" +:+ "trace.har" +:+ "'");
        (LOG, "✅ Answer saved to " +:+ "response.txt")])%list /\
    files w' =
      <["response.txt" :=
          TextFile ("Prompt: " +:+ "greet" +:+ nl +:+ "Timestamp: " +:+
                    toISOString env (clock startWorld + Z.of_N (latency env (tick startWorld)))
                    +:+ nl +:+ nl +:+
                    (if String.eqb (finalAnswer startWorld) EmptyString
                     then "[no answer captured]" else finalAnswer startWorld))]>
        (files startWorld).
Proof.
  apply (X12_answer_is_saved_without_a_trace "trace.har" "response.txt" "greet"
           (failing (fun _ => Some "Target closed") quiet) startWorld "Target closed").
  - reflexivity.
  - reflexivity.
  - set_solver.
  - reflexivity.
Defined.

(** X13.  When the recorder fails to stop and a trace of an earlier run is
    still at the prompt's path, the stream just captured is put into that
    old trace. *)
Theorem X13_stale_trace_gets_the_new_stream
    harFilename answerFilename promptText env w msg (old : Har) :
  failure env (tick w) = Some msg ->
  files w !! harFilename = Some (HarFile old) ->
  denied env harFilename = None ->
  harFilename <> answerFilename ->
  files (finishPrompt harFilename answerFilename promptText env w).2 !! harFilename
    = Some (HarFile (correlate (sseText w) old)).
Proof.
  intros Hf Hold Hden Hne.
  unfold finishPrompt. rewrite run_bind.
  assert (E1 : stopHar harFilename env w =
    (Returned tt, print WARN ("Failed to stop HAR cleanly: " +:+ msg)
                    (advance (Z.of_N (latency env (tick w))) (record_call HarStop w)))).
  { run_blocks. by rewrite Hf. }
  rewrite E1. rewrite run_bind. cbn [get]. rewrite run_bind.
  match goal with |- context [injectSseIntoHar _ _ env ?w0] => set (w1 := w0) end.
  assert (E2 : injectSseIntoHar harFilename (sseText w1) env w1 =
    (Returned tt, print LOG ("✅ HAR updated with SSE at " +:+ harFilename)
                    (put_file harFilename (HarFile (correlate (sseText w) old)) w1))).
  { run_blocks. subst w1. cbn [files dirs sseText print advance record_call].
    by rewrite Hold, Hden. }
  rewrite E2. rewrite run_bind. cbn [get].
  match goal with |- context [saveAnswer _ _ ?a env ?w0] =>
    set (ans := a); set (w2 := w0) end.
  assert (Hkeep : respects (keeps (fun w => files w !! harFilename))
                    (saveAnswer answerFilename promptText ans)).
  { respects_with ltac:(first
      [ reflexivity | unfold keeps; simpl; by rewrite lookup_insert_ne ]). }
  rewrite (Hkeep env w2). subst w2 w1. simpl. apply lookup_insert_eq.
Qed.

Lemma X13_witness :
  let env := failing (fun _ => Some "Target closed") quiet in
  files (finishPrompt "trace.har" "response.txt" "greet" env (withTrace sampleHar)).2
    !! "trace.har"
    = Some (HarFile (correlate (sseText (withTrace sampleHar)) sampleHar)).
Proof.
  apply (X13_stale_trace_gets_the_new_stream "trace.har" "response.txt" "greet"
           (failing (fun _ => Some "Target closed") quiet) (withTrace sampleHar)
           "Target closed" sampleHar); try reflexivity.
  discriminate.
Defined.
(** ** The batch and the main flow *)

Lemma opening_calls label total idx promptText harFilename env w ws :
  opening label total idx promptText harFilename env w = (Returned tt, ws) ->
  calls ws = (calls w ++ [HarStart harFilename])%list.
Proof.
  cbv [opening interact console_log modify mbind M_bind mret M_ret].
  destruct (failure env _); [discriminate|]. intros [= <-]. reflexivity.
Qed.

(** The calls of [safeClick] are on its selector. *)
Lemma appending_safeClickLoop (P : Call -> Prop) selector timeout :
  P (WaitForSelector selector timeout) -> P (Click selector) ->
  forall remaining, respects (appending P) (GPT.safeClickLoop remaining selector timeout).
Proof.
  intros Hwait Hclick. induction remaining as [|k IH]; simpl.
  - apply (respects_throw _).
  - repeat respects_step ltac:(first
      [ apply appending_same; reflexivity | by apply appending_call ]).
Qed.

Lemma attempt_no_recorder r idx promptText :
  respects (appending (fun c => isRecorderCall c = false)) (attemptOf r idx promptText).
Proof.
  destruct r; runner_rewrite;
    respects_with ltac:(first
      [ apply appending_same; reflexivity | apply appending_call; reflexivity ]).
  apply appending_safeClickLoop; reflexivity.
Qed.

Lemma sessionReset_no_recorder r :
  respects (appending (fun c => isRecorderCall c = false)) (sessionResetOf r).
Proof.
  destruct r; runner_rewrite;
    respects_with ltac:(first
      [ apply appending_same; reflexivity | apply appending_call; reflexivity ]).
Qed.




(** X15.  In the ChatGPT runner the keys that start a new chat are pressed
    outside the [try]: when one of them fails, the loop body rejects with
    that error and so does the loop, which starts no recorder and writes
    no response file for the prompts that were left. *)
Theorem X15_failed_new_chat_ends_the_chatgpt_batch
    env w label harsDir responsesDir total idx query rest ws e w3 :
  opening label total idx query (harName harsDir idx) env w = (Returned tt, ws) ->
  GPT.newChat env
    (guarded (GPT.attempt idx query) idx (harName harsDir idx) (answerName responsesDir idx)
             query env ws).2 = (Thrown e, w3) ->
  for_each idx (query :: rest) (GPT.processPrompt label harsDir responsesDir total) env w
    = (Thrown e, w3) /\
  (exists made, calls w3 = (calls w ++ made)%list /\
     forall j, j <> idx -> HarStart (harName harsDir j) ∉ made) /\
  (forall j, j <> idx ->
     files w3 !! answerName responsesDir j = files w !! answerName responsesDir j).
Proof.
  intros Hopen Hnew.
  pose proof (run_processPrompt ChatGPT label harsDir responsesDir total idx query env w ws)
    as Hrun.
  pose proof (X := guarded_run (GPT.attempt idx query) idx (harName harsDir idx)
              (answerName responsesDir idx) query env ws
              (GPT.attempt idx query env ws).1 (GPT.attempt idx query env ws).2).
  destruct X as (w2 & t & Eg & Cg & _).
  { by destruct (GPT.attempt idx query env ws). }
  { apply total_GPT_attempt. }
  rewrite Eg in Hnew. cbn [snd] in Hnew.
  assert (Hbody : GPT.processPrompt label harsDir responsesDir total idx query env w
                  = (Thrown e, w3)).
  { revert Hrun. runner_rewrite. intros Hrun. rewrite (Hrun Hopen).
    rewrite (run_bind_returned _ _ _ _ _ _ Eg). exact Hnew. }
  split; [|split].
  - cbn [for_each]. by rewrite (run_bind_thrown _ _ _ _ _ _ Hbody).
  - pose proof (attempt_no_recorder ChatGPT idx query env ws) as (during & Hd & Fd).
    pose proof (sessionReset_no_recorder ChatGPT env w2) as (after & Ha & Fa).
    revert Hd Fd Ha Fa. runner_rewrite. intros Hd Fd Ha Fa.
    rewrite Hnew in Ha. cbn [snd] in Ha.
    exists ([HarStart (harName harsDir idx)] ++ during ++ [HarStop] ++ after)%list.
    split.
    + rewrite Ha, Cg, Hd, (opening_calls _ _ _ _ _ _ _ _ Hopen). by rewrite <- !app_assoc.
    + intros j Hj Hin.
      apply elem_of_app in Hin as [Hin|Hin].
      { apply list_elem_of_singleton in Hin. injection Hin as Hin.
        unfold harName, path_join in Hin.
        do 3 apply String.app_inj in Hin. apply append_inj_r in Hin.
        apply pretty_nat_inj in Hin. lia. }
      apply elem_of_app in Hin as [Hin|Hin].
      { rewrite Forall_forall in Fd. by specialize (Fd _ Hin). }
      apply elem_of_app in Hin as [Hin|Hin].
      { apply list_elem_of_singleton in Hin. discriminate. }
      rewrite Forall_forall in Fa. by specialize (Fa _ Hin).
  - intros j Hj.
    pose proof (processPrompt_keeps_response ChatGPT label harsDir responsesDir total j idx
                  query ltac:(done) env w) as Hk.
    revert Hk. runner_rewrite. rewrite Hbody. done.
Qed.

Lemma X15_witness :
  let env := detachedAt 25 answering in
  let ws := (opening "abstain_gpt-5_1" 2 0 "capital of France" (harName "hars" 0)
               env startWorld).2 in
  let w3 := (GPT.newChat env
               (guarded (GPT.attempt 0 "capital of France") 0 (harName "hars" 0)
                        (answerName "responses" 0) "capital of France" env ws).2).2 in
  for_each 0 ("capital of France" :: ["largest ocean"])
    (GPT.processPrompt "abstain_gpt-5_1" "hars" "responses" 2) env startWorld
    = (Thrown "Node is detached from document", w3) /\
  (exists made, calls w3 = (calls startWorld ++ made)%list /\
     forall j, j <> 0%nat -> HarStart (harName "hars" j) ∉ made) /\
  (forall j, j <> 0%nat ->
     files w3 !! answerName "responses" j = files startWorld !! answerName "responses" j).
Proof.
  intros env ws w3.
  apply (X15_failed_new_chat_ends_the_chatgpt_batch env startWorld
           "abstain_gpt-5_1" "hars" "responses" 2 0 "capital of France" ["largest ocean"]
           ws "Node is detached from document" w3).
  - reflexivity.
  - vm_compute. reflexivity.
Defined.



(** X17.  The ChatGPT runner types the catalog queries as they are: every
    text typed into the composer during a batch is a query of the batch,
    typed with a delay of 50 ms a key. *)
Theorem X17_chatgpt_types_the_query_as_it_is env w prompts outDir :
  exists made,
    calls (GPT.processPromptsBatch prompts outDir env w).2 = (calls w ++ made)%list /\
    Forall (fun c => forall content delay, c = EditorType content delay ->
              content ∈ prompts /\ delay = 50) made.
Proof.
  set (P := fun c => forall content delay, c = EditorType content delay ->
              content ∈ prompts /\ delay = 50).
  assert (H : respects (appending P) (GPT.processPromptsBatch prompts outDir)).
  { unfold GPT.processPromptsBatch, GPT.processPrompt.
    respects_with ltac:(first
      [ apply appending_same; reflexivity
      | apply appending_call; intros content delay Heq;
        first [ discriminate Heq
              | injection Heq as <- <-; split; [eassumption|reflexivity] ] ]).
    apply appending_safeClickLoop; intros content delay Heq; discriminate Heq. }
  exact (H env w).
Qed.
(** ** The resilient click and the web-search toggle *)

Ltac all_on_selector :=
  repeat (constructor; [first [by left | by right]|]); constructor.

(** One attempt of [safeClick], run. *)
Lemma run_safeClickLoop k selector timeout env w :
  GPT.safeClickLoop (S k) selector timeout env w =
  let w1 := advance (Z.of_N (latency env (tick w)))
                    (record_call (WaitForSelector selector timeout) w) in
  let w2 := advance (Z.of_N (latency env (S (tick w)))) (record_call (Click selector) w1) in
  match failure env (tick w) with
  | Some msg =>
      if GPT.transient msg
      then GPT.safeClickLoop k selector timeout env (advance (nap 500) w1)
      else (Thrown msg, w1)
  | None =>
      match failure env (S (tick w)) with
      | Some msg =>
          if GPT.transient msg
          then GPT.safeClickLoop k selector timeout env (advance (nap 500) w2)
          else (Thrown msg, w2)
      | None => (Returned tt, w2)
      end
  end.
Proof.
  cbn [GPT.safeClickLoop]. unfold try_catch. rewrite run_bind. unfold interact at 1.
  destruct (failure env (tick w)) as [msg|].
  - destruct (GPT.transient msg); reflexivity.
  - rewrite run_bind. unfold interact at 1. cbn [tick advance record_call].
    destruct (failure env (S (tick w))) as [msg|]; [|reflexivity].
    destruct (GPT.transient msg); reflexivity.
Qed.

Lemma safeClickLoop_outcome selector timeout env : forall k w,
  exists made,
    calls (GPT.safeClickLoop k selector timeout env w).2 = (calls w ++ made)%list /\
    (length made <= 2 * k)%nat /\
    Forall (fun c => c = WaitForSelector selector timeout \/ c = Click selector) made /\
    match (GPT.safeClickLoop k selector timeout env w).1 with
    | Returned _ =>
        exists before, made = (before ++ [WaitForSelector selector timeout; Click selector])%list
    | Thrown e =>
        (e = "safeClick failed for selector " +:+ selector /\ (length made >= k)%nat) \/
        GPT.transient e = false
    | Diverged => False
    end.
Proof.
  induction k as [|k IH]; intros w.
  - exists []. cbn. rewrite app_nil_r. repeat split; [lia|constructor|]. left. split; [done|lia].
  - rewrite run_safeClickLoop. cbv zeta.
    set (w1 := advance _ (record_call (WaitForSelector selector timeout) w)).
    set (w2 := advance _ (record_call (Click selector) w1)).
    assert (Hext : forall w0 pre,
      calls w0 = (calls w ++ pre)%list -> (length pre <= 2)%nat -> (1 <= length pre)%nat ->
      Forall (fun c => c = WaitForSelector selector timeout \/ c = Click selector) pre ->
      exists made,
        calls (GPT.safeClickLoop k selector timeout env w0).2 = (calls w ++ made)%list /\
        (length made <= 2 * S k)%nat /\
        Forall (fun c => c = WaitForSelector selector timeout \/ c = Click selector) made /\
        match (GPT.safeClickLoop k selector timeout env w0).1 with
        | Returned _ =>
            exists before,
              made = (before ++ [WaitForSelector selector timeout; Click selector])%list
        | Thrown e =>
            (e = "safeClick failed for selector " +:+ selector /\ (length made >= S k)%nat) \/
            GPT.transient e = false
        | Diverged => False
        end).
    { intros w0 pre Hpre Hlen Hlen1 Hall.
      destruct (IH w0) as (made & Hm & Hl & Hf & Hres).
      exists (pre ++ made)%list. rewrite Hm, Hpre, <- app_assoc.
      split; [done|]. split; [rewrite length_app; lia|].
      split; [by apply Forall_app|].
      destruct (GPT.safeClickLoop k selector timeout env w0).1 as [[]|e|]; [| |done].
      - destruct Hres as (before & ->). exists (pre ++ before)%list. by rewrite <- app_assoc.
      - destruct Hres as [[-> Hk]|Hnt]; [left|by right].
        split; [done|]. rewrite length_app. lia. }
    destruct (failure env (tick w)) as [msg|].
    + destruct (GPT.transient msg) eqn:Ht.
      * apply (Hext _ [WaitForSelector selector timeout]);
          [done | simpl; lia | simpl; lia | all_on_selector].
      * exists [WaitForSelector selector timeout].
        split; [done|]. split; [simpl; lia|]. split; [all_on_selector|by right].
    + destruct (failure env (S (tick w))) as [msg|].
      * destruct (GPT.transient msg) eqn:Ht.
        -- apply (Hext _ [WaitForSelector selector timeout; Click selector]);
             [simpl; by rewrite <- app_assoc | simpl; lia | simpl; lia
             | all_on_selector].
        -- exists [WaitForSelector selector timeout; Click selector].
           split; [simpl; by rewrite <- app_assoc|]. split; [simpl; lia|].
           split; [all_on_selector|by right].
      * exists [WaitForSelector selector timeout; Click selector].
        split; [simpl; by rewrite <- app_assoc|]. split; [simpl; lia|].
        split; [all_on_selector|by exists []].
Qed.

(** X18.  [safeClick] makes at most three attempts, that is at most six
    calls, all of them waits for its selector and clicks on it.  When it
    returns, its last two calls are a wait and a click that succeeded;
    when it rejects, either with its own error, after three attempts, or
    with an error that is not one of the render races it retries. *)
Theorem X18_safeClick_attempts_are_bounded selector env w :
  exists made,
    calls (GPT.safeClick selector env w).2 = (calls w ++ made)%list /\
    (length made <= 6)%nat /\
    Forall (fun c => c = WaitForSelector selector 10000 \/ c = Click selector) made /\
    match (GPT.safeClick selector env w).1 with
    | Returned _ =>
        exists before, made = (before ++ [WaitForSelector selector 10000; Click selector])%list
    | Thrown e =>
        (e = "safeClick failed for selector " +:+ selector /\ (3 <= length made)%nat) \/
        GPT.transient e = false
    | Diverged => False
    end.
Proof.
  unfold GPT.safeClick.
  destruct (safeClickLoop_outcome selector 10000 env 3 w) as (made & Hm & Hl & Hf & Hres).
  exists made. repeat split; try done.
Qed.
(** ** Walking a script along a run *)

Lemma interact_ok c env w n :
  tick w = n -> failure env n = None ->
  interact c env w = (Returned n, advance (Z.of_N (latency env n)) (record_call c w)).
Proof. intros <- H. unfold interact. by rewrite H. Qed.

Lemma interact_fails c env w n e :
  tick w = n -> failure env n = Some e ->
  interact c env w = (Thrown e, advance (Z.of_N (latency env n)) (record_call c w)).
Proof. intros <- H. unfold interact. by rewrite H. Qed.

Lemma calls_advance ms w : calls (advance ms w) = calls w.
Proof. reflexivity. Qed.

Lemma calls_record c w : calls (record_call c w) = (calls w ++ [c])%list.
Proof. reflexivity. Qed.

Lemma run_sleep ms env w : sleep ms env w = (Returned tt, advance (nap ms) w).
Proof. reflexivity. Qed.

(** A call that succeeds, a call that fails, a pause; the step of the call
    is computed from the world it is made in. *)
Ltac call_ok H :=
  rewrite run_bind;
  lazymatch goal with
  | |- context [interact ?c ?env ?w0] =>
      let n := eval cbn [tick advance record_call print] in (tick w0) in
      rewrite (interact_ok c env w0 n eq_refl H)
  end;
  cbv beta iota.
Ltac call_fails H :=
  rewrite run_bind;
  lazymatch goal with
  | |- context [interact ?c ?env ?w0] =>
      let n := eval cbn [tick advance record_call print] in (tick w0) in
      rewrite (interact_fails c env w0 n _ eq_refl H)
  end;
  cbv beta iota.
Ltac pause := rewrite run_bind; rewrite run_sleep; cbv beta iota.

Lemma waitForRoleWithText_found role text timeout env w :
  failure env (tick w) = None -> present env (tick w) = true ->
  GPT.waitForRoleWithText role text timeout env w =
    (Returned tt,
     advance (Z.of_N (latency env (tick w)))
       (record_call (WaitForFunction ("[role='" +:+ role +:+ "'] " +:+ text) timeout) w)).
Proof.
  intros Hf Hp. unfold GPT.waitForRoleWithText.
  call_ok Hf. rewrite run_bind. cbn [ask]. by rewrite Hp.
Qed.

(** The same, at a step that is known. *)
Lemma waitForRoleWithText_at role text timeout env w n :
  tick w = n -> failure env n = None -> present env n = true ->
  GPT.waitForRoleWithText role text timeout env w =
    (Returned tt,
     advance (Z.of_N (latency env n))
       (record_call (WaitForFunction ("[role='" +:+ role +:+ "'] " +:+ text) timeout) w)).
Proof. intros <-. apply waitForRoleWithText_found. Qed.

Ltac role_found Hf Hp :=
  rewrite run_bind;
  lazymatch goal with
  | |- context [GPT.waitForRoleWithText ?role ?text ?timeout ?env ?w0] =>
      let n := eval cbn [tick advance record_call print] in (tick w0) in
      rewrite (waitForRoleWithText_at role text timeout env w0 n eq_refl Hf Hp)
  end;
  cbv beta iota.

(** X19.  When the hover does not open the submenu, so that the first wait
    for [aria-expanded] fails, with whatever error, [enableWebSearch]
    focuses the item, presses ArrowRight once and waits again, for 2 s;
    with every other call succeeding it then returns, having made these
    thirteen calls and slept twice for 250 ms. *)
Theorem X19_arrow_key_opens_the_submenu env w e :
  (forall k, (k < 13)%nat -> k <> 6%nat -> failure env (k + tick w)%nat = None) ->
  failure env (6 + tick w)%nat = Some e ->
  present env (3 + tick w)%nat = true ->
  present env (10 + tick w)%nat = true ->
  exists w', GPT.enableWebSearch env w = (Returned tt, w') /\
    calls w' =
      (calls w ++
       [ WaitForSelector "button[data-testid='composer-plus-btn']" 10000;
         Click "button[data-testid='composer-plus-btn']";
         WaitForSelector "[role='menu']" 10000;
         WaitForFunction "[role='menuitem'] More" 8000;
         ElementDo "scrollIntoView";
         ElementDo "hover";
         WaitForFunction "aria-expanded === 'true'" 1200;
         ElementDo "focus";
         KeyPress "ArrowRight";
         WaitForFunction "aria-expanded === 'true'" 2000;
         WaitForFunction "[role='menuitemradio'] Web search" 8000;
         ElementDo "hover";
         ElementDo "click" ])%list /\
    clock w' = clock w + 500 +
      Z.of_N (latency env (tick w)) + Z.of_N (latency env (1 + tick w)%nat) +
      Z.of_N (latency env (2 + tick w)%nat) + Z.of_N (latency env (3 + tick w)%nat) +
      Z.of_N (latency env (4 + tick w)%nat) + Z.of_N (latency env (5 + tick w)%nat) +
      Z.of_N (latency env (6 + tick w)%nat) + Z.of_N (latency env (7 + tick w)%nat) +
      Z.of_N (latency env (8 + tick w)%nat) + Z.of_N (latency env (9 + tick w)%nat) +
      Z.of_N (latency env (10 + tick w)%nat) + Z.of_N (latency env (11 + tick w)%nat) +
      Z.of_N (latency env (12 + tick w)%nat).
Proof.
  intros Hok Hfail Hmore Hweb.
  pose proof (Hok 0%nat ltac:(lia) ltac:(lia)) as F0.
  pose proof (Hok 1%nat ltac:(lia) ltac:(lia)) as F1.
  pose proof (Hok 2%nat ltac:(lia) ltac:(lia)) as F2.
  pose proof (Hok 3%nat ltac:(lia) ltac:(lia)) as F3.
  pose proof (Hok 4%nat ltac:(lia) ltac:(lia)) as F4.
  pose proof (Hok 5%nat ltac:(lia) ltac:(lia)) as F5.
  pose proof (Hok 7%nat ltac:(lia) ltac:(lia)) as F7.
  pose proof (Hok 8%nat ltac:(lia) ltac:(lia)) as F8.
  pose proof (Hok 9%nat ltac:(lia) ltac:(lia)) as F9.
  pose proof (Hok 10%nat ltac:(lia) ltac:(lia)) as F10.
  pose proof (Hok 11%nat ltac:(lia) ltac:(lia)) as F11.
  pose proof (Hok 12%nat ltac:(lia) ltac:(lia)) as F12.
  cbn [Nat.add] in *.
  unfold GPT.enableWebSearch, GPT.safeClick.
  rewrite run_bind, run_safeClickLoop. cbv zeta. rewrite F0, F1.
  call_ok F2.
  role_found F3 Hmore.
  call_ok F4. call_ok F5. pause.
  rewrite run_bind. unfold try_catch at 1.
  call_fails Hfail. call_ok F7. call_ok F8. call_ok F9. cbn [mret M_ret].
  pause.
  role_found F10 Hweb.
  call_ok F11. call_ok F12. cbn [mret M_ret].
  eexists. split; [reflexivity|]. split.
  - repeat first [rewrite calls_advance | rewrite calls_record].
    by rewrite <- !app_assoc.
  - cbn [clock advance record_call]. unfold nap.
    rewrite bool_decide_eq_true_2 by lia. lia.
Qed.

Lemma X19_witness :
  let env := detachedAt 6 quiet in
  exists w', GPT.enableWebSearch env startWorld = (Returned tt, w') /\
    calls w' =
      (calls startWorld ++
       [ WaitForSelector "button[data-testid='composer-plus-btn']" 10000;
         Click "button[data-testid='composer-plus-btn']";
         WaitForSelector "[role='menu']" 10000;
         WaitForFunction "[role='menuitem'] More" 8000;
         ElementDo "scrollIntoView";
         ElementDo "hover";
         WaitForFunction "aria-expanded === 'true'" 1200;
         ElementDo "focus";
         KeyPress "ArrowRight";
         WaitForFunction "aria-expanded === 'true'" 2000;
         WaitForFunction "[role='menuitemradio'] Web search" 8000;
         ElementDo "hover";
         ElementDo "click" ])%list /\
    clock w' = clock startWorld + 500 +
      Z.of_N (latency env (tick startWorld)) + Z.of_N (latency env (1 + tick startWorld)%nat) +
      Z.of_N (latency env (2 + tick startWorld)%nat) + Z.of_N (latency env (3 + tick startWorld)%nat) +
      Z.of_N (latency env (4 + tick startWorld)%nat) + Z.of_N (latency env (5 + tick startWorld)%nat) +
      Z.of_N (latency env (6 + tick startWorld)%nat) + Z.of_N (latency env (7 + tick startWorld)%nat) +
      Z.of_N (latency env (8 + tick startWorld)%nat) + Z.of_N (latency env (9 + tick startWorld)%nat) +
      Z.of_N (latency env (10 + tick startWorld)%nat) + Z.of_N (latency env (11 + tick startWorld)%nat) +
      Z.of_N (latency env (12 + tick startWorld)%nat).
Proof.
  apply (X19_arrow_key_opens_the_submenu (detachedAt 6 quiet) startWorld
           "Node is detached from document").
  - intros k Hk Hne. simpl. destruct (Nat.eqb_spec (k + 0) 6) as [Heq|_]; [lia|reflexivity].
  - reflexivity.
  - reflexivity.
  - reflexivity.
Defined.
(** ** The Claude runner's session reset and model menu *)

Lemma calls_grow_resetSession_body :
  respects (appending (fun _ => True))
    (Claude.newChat;; sleep 2000;; interact (WaitForSelector Claude.editor 15000);;
     catch_with (Claude.selectModel Claude.PREFERRED_MENU_LABEL) tt).
Proof.
  respects_with ltac:(first [apply appending_same; reflexivity | by apply appending_call]).
Qed.

Lemma calls_grow_reload :
  respects (appending (fun _ => True))
    (sleep 5000;; interact (WaitForSelector Claude.editor 0);;
     catch_with (Claude.selectModel Claude.PREFERRED_MENU_LABEL) tt).
Proof.
  respects_with ltac:(first [apply appending_same; reflexivity | by apply appending_call]).
Qed.

(** X20.  The session reset of the Claude runner rejects only after it has
    tried its fallback: whenever it throws, it has logged the failure of
    the new-chat click and navigated to [https://claude.ai/new]. *)
Theorem X20_claude_reset_rejects_only_after_the_reload env w e w' :
  Claude.resetSession env w = (Thrown e, w') ->
  exists first_error before after,
    calls w' = (calls w ++ before ++ Goto "https://claude.ai/new" :: after)%list /\
    exists logged_before logged_after,
      console w' =
        (logged_before ++
         (WARN, "New chat click failed; attempting fallback reload: " +:+ first_error)
         :: logged_after)%list.
Proof.
  unfold Claude.resetSession, try_catch.
  pose proof (calls_grow_resetSession_body env w) as (before & Hb & _).
  match goal with |- context [match ?m env w with _ => _ end] =>
    change (calls (m env w).2 = (calls w ++ before)%list) in Hb;
    destruct (m env w) as [[[]|e0|] w1] end; try discriminate.
  simpl in Hb.
  rewrite run_bind. cbn [console_warn modify]. rewrite run_bind.
  set (w2 := print WARN _ w1).
  unfold interact at 1. cbn [tick].
  destruct (failure env (tick w2)) as [msg|].
  - intros [= <- <-]. exists e0, before, []. split.
    + cbn [calls advance record_call]. subst w2. cbn [calls print]. by rewrite Hb, <- app_assoc.
    + exists (console w1), []. reflexivity.
  - set (w3 := advance _ (record_call _ w2)).
    pose proof (calls_grow_reload env w3) as (after & Ha & _).
    assert (Hlog : respects (fun a b => exists l, console b = (console a ++ l)%list)
              (sleep 5000;; interact (WaitForSelector Claude.editor 0);;
               catch_with (Claude.selectModel Claude.PREFERRED_MENU_LABEL) tt)).
    { assert (PreOrder (fun a b : World => exists l, console b = (console a ++ l)%list)).
      { split.
        - intros a. exists []. by rewrite app_nil_r.
        - intros a b c [l1 H1] [l2 H2]. exists (l1 ++ l2)%list. by rewrite H2, H1, app_assoc. }
      respects_with ltac:(first
        [ by (exists []; rewrite app_nil_r)
        | by (eexists [_]) ]). }
    destruct (Hlog env w3) as (logged & Hl).
    intros Hrun. rewrite Hrun in Ha, Hl. simpl in Ha, Hl.
    exists e0, before, after. split.
    + rewrite Ha. subst w3 w2. cbn [calls advance record_call print].
      by rewrite Hb, <- !app_assoc.
    + exists (console w1), logged. rewrite Hl. subst w3 w2.
      cbn [console advance record_call print]. by rewrite <- app_assoc.
Qed.

Lemma X20_witness :
  let env := failing (fun n => if (n <? 2)%nat then Some "Target closed" else None) quiet in
  exists first_error before after,
    calls (Claude.resetSession env startWorld).2
      = (calls startWorld ++ before ++ Goto "https://claude.ai/new" :: after)%list /\
    exists logged_before logged_after,
      console (Claude.resetSession env startWorld).2 =
        (logged_before ++
         (WARN, "New chat click failed; attempting fallback reload: " +:+ first_error)
         :: logged_after)%list.
Proof.
  intros env.
  apply (X20_claude_reset_rejects_only_after_the_reload env startWorld "Target closed").
  vm_compute. reflexivity.
Defined.

(** The test of the menu search: the item's text, trimmed and in lower
    case, contains the label in lower case. *)
Lemma menuIndex_from i texts needle :
  match Claude.menuIndex i texts needle with
  | Some k =>
      exists j txt, k = (i + j)%nat /\ texts !! j = Some txt /\
        includes (toLowerCase (trim txt)) (toLowerCase needle) = true /\
        forall j' t, (j' < j)%nat -> texts !! j' = Some t ->
          includes (toLowerCase (trim t)) (toLowerCase needle) = false
  | None =>
      forall t, t ∈ texts -> includes (toLowerCase (trim t)) (toLowerCase needle) = false
  end.
Proof.
  revert i. induction texts as [|txt rest IH]; intros i; cbn [Claude.menuIndex].
  - intros t Ht. by apply elem_of_nil in Ht.
  - destruct (includes (toLowerCase (trim txt)) (toLowerCase needle)) eqn:Hhit.
    + exists 0%nat, txt. repeat split; [lia|done|]. intros j' t Hj. lia.
    + specialize (IH (S i)). destruct (Claude.menuIndex (S i) rest needle) as [k|].
      * destruct IH as (j & t & -> & Hj & Ht & Hfirst).
        exists (S j), t. repeat split; [lia|done|done|].
        intros [|j'] t' Hlt Hl.
        -- injection Hl as <-. done.
        -- apply (Hfirst j'); [lia|done].
      * intros t Ht. apply elem_of_cons in Ht as [->|Ht]; [done|by apply IH].
Qed.

(** X21.  The item [selectModel] picks in the model menu, for item texts
    and a label made of ASCII characters (on which the lower-casing of the
    model is that of the page): the first one whose text, trimmed and in
    lower case, contains the label in lower case; it picks none exactly
    when no item does. *)
Theorem X21_model_menu_picks_the_first_match texts needle :
  asciiOnly needle = true ->
  Forall (fun t => asciiOnly t = true) texts ->
  match Claude.menuIndex 0 texts needle with
  | Some k =>
      exists txt, texts !! k = Some txt /\
        includes (toLowerCase (trim txt)) (toLowerCase needle) = true /\
        forall j t, (j < k)%nat -> texts !! j = Some t ->
          includes (toLowerCase (trim t)) (toLowerCase needle) = false
  | None =>
      forall t, t ∈ texts -> includes (toLowerCase (trim t)) (toLowerCase needle) = false
  end.
Proof.
  intros _ _.
  pose proof (menuIndex_from 0 texts needle) as H.
  destruct (Claude.menuIndex 0 texts needle) as [k|]; [|exact H].
  destruct H as (j & txt & -> & H). by exists txt.
Qed.

Lemma X21_witness :
  let texts := ["Claude Opus 4.1"; "  Claude SONNET 4 "; "claude sonnet 4.5"] in
  exists txt, texts !! 1%nat = Some txt /\
    includes (toLowerCase (trim txt)) (toLowerCase "Sonnet 4") = true /\
    forall j t, (j < 1)%nat -> texts !! j = Some t ->
      includes (toLowerCase (trim t)) (toLowerCase "Sonnet 4") = false.
Proof.
  exact (X21_model_menu_picks_the_first_match
           ["Claude Opus 4.1"; "  Claude SONNET 4 "; "claude sonnet 4.5"] "Sonnet 4"
           eq_refl ltac:(repeat constructor)).
Defined.
(** ** The catalog of prompts *)

Lemma includes_char_cons (sep c : ascii) (s : string) :
  includes (String c s) (String sep EmptyString) = Ascii.eqb c sep || includes s (String sep EmptyString).
Proof. cbn [includes]. by rewrite prefix_char. Qed.

Lemma includes_char_app (sep : ascii) (a b : string) :
  includes a (String sep EmptyString) = false ->
  includes b (String sep EmptyString) = false ->
  includes (a +:+ b) (String sep EmptyString) = false.
Proof.
  intros Ha Hb. induction a as [|c a IH]; [by rewrite app_nil|].
  rewrite app_cons, includes_char_cons. rewrite includes_char_cons in Ha.
  apply orb_false_iff in Ha as [-> Ha]. by rewrite IH.
Qed.

Lemma escapeChar_one_line c : includes (escapeChar c) nl = false.
Proof. destruct c as [[] [] [] [] [] [] [] []]; vm_compute; reflexivity. Qed.

(** [JSON.stringify] leaves no line feed in a string. *)
Lemma escapeString_one_line s : includes (escapeString s) nl = false.
Proof.
  induction s as [|c s IH]; [done|]. cbn [escapeString].
  apply (includes_char_app lf); [apply escapeChar_one_line|exact IH].
Qed.

Lemma pretty_N_char_one_line n : Ascii.eqb (pretty_N_char n) lf = false.
Proof. unfold pretty_N_char. repeat case_match; reflexivity. Qed.

Lemma pretty_N_go_one_line n : forall s,
  includes s nl = false -> includes (pretty_N_go n s) nl = false.
Proof.
  induction (N.lt_wf_0 n) as [n _ IH]. intros s Hs.
  destruct (decide (n = 0%N)) as [->|Hn]; [by rewrite pretty_N_go_0|].
  rewrite pretty_N_go_step by lia. apply IH.
  - apply N.div_lt; lia.
  - change nl with (String lf EmptyString). rewrite includes_char_cons.
    by rewrite pretty_N_char_one_line.
Qed.

Lemma pretty_nat_one_line (n : nat) : includes (pretty n) nl = false.
Proof.
  unfold pretty, pretty_nat, pretty, pretty_N.
  destruct (decide _); [reflexivity|]. by apply pretty_N_go_one_line.
Qed.

(** A line of [prompts.jsonl] holds no line feed, whatever the query. *)
Lemma promptJson_one_line i q : includes (promptJson i q) nl = false.
Proof.
  unfold promptJson, JSON_stringify_string.
  repeat first
    [ apply pretty_nat_one_line
    | apply escapeString_one_line
    | apply (includes_char_app lf)
    | reflexivity ].
Qed.

(** Pieces without the separator, joined and closed by it, split into
    themselves and an empty last piece. *)
Lemma split_join_closed (sep : ascii) (pieces : list string) :
  pieces <> [] ->
  Forall (fun piece => includes piece (String sep EmptyString) = false) pieces ->
  split sep (join (String sep EmptyString) pieces +:+ String sep EmptyString)
    = (pieces ++ [EmptyString])%list.
Proof.
  intros Hne Hall. induction Hall as [|p rest Hp Hrest IH]; [done|].
  destruct rest as [|q rest].
  - cbn [join app]. by rewrite (split_at_first _ _ _ Hp).
  - rewrite join_cons, !append_assoc.
    change (String sep EmptyString +:+ ?x) with (String sep x).
    rewrite (split_at_first _ _ _ Hp). cbn [app]. f_equal.
    change (String sep EmptyString +:+ ?x) with (String sep x) in IH.
    by apply IH.
Qed.

Lemma Forall_imap {A B} (P : B -> Prop) (f : nat -> A -> B) (l : list A) :
  (forall i x, P (f i x)) -> Forall P (imap f l).
Proof.
  revert f. induction l as [|x l IH]; intros f Hf; cbn [imap]; constructor; [apply Hf|].
  apply IH. intros i y. apply Hf.
Qed.

(** X22.  [prompts.jsonl] has one line per prompt, whatever the queries
    hold, line feeds included: the text written (the directory being there
    or creatable, and the write permitted), cut at its line feeds, is the
    JSON objects of the prompts in order and an empty last piece; and
    whether or not the two files written after it can be written, it stays
    as it is. *)
Theorem X22_catalog_holds_one_line_per_prompt outDir csvFile prompts env w :
  prompts <> [] ->
  denied env outDir = None ->
  denied env (path_join outDir "prompts.jsonl") = None ->
  exists content,
    files (savePromptsCatalog outDir csvFile prompts env w).2
      !! path_join outDir "prompts.jsonl" = Some (TextFile content) /\
    split (ascii_of_nat 10) content = (imap promptJson prompts ++ [EmptyString])%list.
Proof.
  intros Hne Hdir Hden.
  exists (join nl (imap promptJson prompts) +:+ nl). split.
  - unfold savePromptsCatalog. cbv zeta. rewrite run_bind.
    assert (Hensure : exists w1, ensureDir outDir env w = (Returned tt, w1) /\
              files w1 = files w).
    { cbv [ensureDir fs_existsSync fs_mkdirSync mbind M_bind mret M_ret ask get modify throw].
      destruct (_ || _); [by eexists|]. rewrite Hdir. by eexists. }
    destruct Hensure as (w1 & -> & _).
    rewrite run_bind. unfold fs_writeFileSync at 1. rewrite run_bind. cbn [ask].
    rewrite Hden. cbn [modify].
    match goal with |- files (?rest env ?w0).2 !! ?p = _ =>
      assert (Hkeep : respects (keeps (fun w => files w !! p)) rest); [|rewrite (Hkeep env w0)]
    end.
    { assert (Ht : path_join outDir "prompts.txt" <> path_join outDir "prompts.jsonl").
      { unfold path_join. intros H. do 2 apply String.app_inj in H. discriminate H. }
      assert (Hm : path_join outDir "source_meta.txt" <> path_join outDir "prompts.jsonl").
      { unfold path_join. intros H. do 2 apply String.app_inj in H. discriminate H. }
      respects_with ltac:(first
        [ reflexivity | unfold keeps; simpl; by rewrite lookup_insert_ne ]). }
    simpl. apply lookup_insert_eq.
  - apply (split_join_closed lf).
    + destruct prompts; [done|]. discriminate.
    + apply Forall_imap. intros i q. apply promptJson_one_line.
Qed.

Lemma X22_witness :
  exists content,
    files (savePromptsCatalog "abstain_gpt-5_1" "prompts.csv"
             ["capital of" +:+ nl +:+ "France"; "largest ocean"] quiet startWorld).2
      !! path_join "abstain_gpt-5_1" "prompts.jsonl" = Some (TextFile content) /\
    split (ascii_of_nat 10) content =
      (imap promptJson ["capital of" +:+ nl +:+ "France"; "largest ocean"]
       ++ [EmptyString])%list.
Proof.
  apply (X22_catalog_holds_one_line_per_prompt "abstain_gpt-5_1" "prompts.csv"
           ["capital of" +:+ nl +:+ "France"; "largest ocean"] quiet startWorld).
  - discriminate.
  - reflexivity.
  - reflexivity.
Defined.

(** X23.  A catalog that csv-parse cannot parse makes [loadCsvPrompts]
    throw an error that names the file and carries the parser's message,
    and with it the main flow of either runner, before the browser is
    launched. *)
Theorem X23_unparsable_catalog_is_fatal
    r env w (pre post : list Job) (job : Job) done w1 f msg :
  map_each loadJob pre env w = (Returned done, w1) ->
  files w1 !! file job = Some f ->
  parse env (textOf env f) = inl msg ->
  loadCsvPrompts (file job) env w1
    = (Thrown ("Failed to parse CSV (" +:+ file job +:+ "): " +:+ msg), w1) /\
  mainOf r (pre ++ job :: post) env w
    = (Thrown ("Failed to parse CSV (" +:+ file job +:+ "): " +:+ msg), w1) /\
  calls w1 = calls w.
Proof.
  intros Hpre Hf Hp.
  assert (He : loadCsvPrompts (file job) env w1
            = (Thrown ("Failed to parse CSV (" +:+ file job +:+ "): " +:+ msg), w1)).
  { run_load. rewrite Hf.
    rewrite (bool_decide_eq_true_2 (is_Some (Some f))) by eauto.
    cbn [orb negb]. rewrite Hf, run_fileText, Hp. reflexivity. }
  split; [exact He|].
  destruct r; runner_rewrite; unfold GPT.main, Claude.main;
    apply (mainFlow_aborts _ _ pre job post env w done w1 _ w1 Hpre He).
Qed.

Lemma X23_witness :
  let env := parsing (inl "Invalid Closing Quote") quiet in
  let job := mkJob "prompts.csv" "factual_opus-4.1_1" in
  loadCsvPrompts (file job) env withCatalog
    = (Thrown ("Failed to parse CSV (" +:+ file job +:+ "): " +:+ "Invalid Closing Quote"),
       withCatalog) /\
  mainOf ClaudeAI ([] ++ job :: []) env withCatalog
    = (Thrown ("Failed to parse CSV (" +:+ file job +:+ "): " +:+ "Invalid Closing Quote"),
       withCatalog) /\
  calls withCatalog = calls withCatalog.
Proof.
  intros env job.
  apply (X23_unparsable_catalog_is_fatal ClaudeAI env withCatalog [] [] job [] withCatalog
           (TextFile "id,text") "Invalid Closing Quote"); reflexivity.
Defined.
(** ** The chat remover *)

Lemma deleteOnce_total : total DeleteChats.deleteOnce.
Proof. unfold DeleteChats.deleteOnce. repeat total_step. Qed.

(** A [deleteOnce] opens with the query for the first chat row and makes no
    other such query. *)
Lemma deleteOnce_calls env w :
  exists made,
    calls (DeleteChats.deleteOnce env w).2 = (calls w ++ Query DeleteChats.chatRow :: made)%list /\
    Forall (fun c => isRowQuery c = false) made.
Proof.
  unfold DeleteChats.deleteOnce. rewrite run_bind. unfold interact at 1.
  set (w1 := advance _ (record_call _ w)).
  assert (Hw1 : calls w1 = (calls w ++ [Query DeleteChats.chatRow])%list) by reflexivity.
  destruct (failure env (tick w)) as [msg|].
  { exists []. simpl. split; [done|constructor]. }
  cbv beta.
  match goal with |- context [calls (?rest env w1).2] =>
    assert (Hrest : respects (appending (fun c => isRowQuery c = false)) rest)
  end.
  { repeat respects_step ltac:(first
      [ apply appending_same; reflexivity | apply appending_call; reflexivity ]). }
  destruct (Hrest env w1) as (made & Hm & Hf).
  exists made. split; [|done]. rewrite Hm, Hw1. by rewrite <- app_assoc.
Qed.

Lemma count_app {A} (f : A -> bool) (l1 l2 : list A) :
  length (List.filter f (l1 ++ l2)%list)
    = (length (List.filter f l1) + length (List.filter f l2))%nat.
Proof. by rewrite List.filter_app, length_app. Qed.

Lemma count_none {A} (f : A -> bool) (l : list A) :
  Forall (fun c => f c = false) l -> length (List.filter f l) = 0%nat.
Proof. induction 1 as [|x l Hx _ IH]; [done|]. cbn [List.filter]. by rewrite Hx. Qed.

Lemma deleteOnce_count env w :
  exists made,
    calls (DeleteChats.deleteOnce env w).2 = (calls w ++ made)%list /\
    length (List.filter isRowQuery made) = 1%nat.
Proof.
  destruct (deleteOnce_calls env w) as (made & Hm & Hf).
  exists (Query DeleteChats.chatRow :: made). split; [done|].
  cbn [List.filter]. unfold isRowQuery at 1.
  rewrite bool_decide_eq_true_2 by done. cbn [length]. by rewrite (count_none _ _ Hf).
Qed.

(** X24.  A turn of the remover's loop never rejects, whatever fails in the
    browser, and it tries the first chat once or twice: a second time only
    after a first try that failed with an error that mentions [detached]
    or [options-not-visible]. *)
Theorem X24_remover_retries_a_chat_at_most_once env w :
  exists stop w' made,
    DeleteChats.turn env w = (Returned stop, w') /\
    calls w' = (calls w ++ made)%list /\
    (length (List.filter isRowQuery made) = 1%nat \/
     length (List.filter isRowQuery made) = 2%nat /\
     exists e, (DeleteChats.deleteOnce env w).1 = Thrown e /\
               DeleteChats.retryable e = true).
Proof.
  unfold DeleteChats.turn, try_catch at 1. rewrite run_bind.
  destruct (deleteOnce_count env w) as (made1 & Hm1 & Hc1).
  pose proof (deleteOnce_total env w) as Ht1.
  destruct (DeleteChats.deleteOnce env w) as [[ok|e|] w1]; [| |done]; simpl in Hm1.
  - destruct ok; cbn [negb].
    + eexists _, _, made1. split; [reflexivity|]. split; [exact Hm1|by left].
    + eexists _, _, made1. split; [reflexivity|]. split; [exact Hm1|by left].
  - destruct (DeleteChats.retryable e) eqn:Hre.
    + unfold try_catch. rewrite run_bind, run_sleep. cbv beta iota. rewrite run_bind.
      destruct (deleteOnce_count env (advance (nap 150) w1)) as (made2 & Hm2 & Hc2).
      pose proof (deleteOnce_total env (advance (nap 150) w1)) as Ht2.
      destruct (DeleteChats.deleteOnce env (advance (nap 150) w1)) as [[ok|e2|] w2];
        [| |done]; simpl in Hm2.
      * destruct ok; cbn [negb]; eexists _, _, (made1 ++ made2)%list;
          (split; [reflexivity|]);
          (split; [cbn; rewrite Hm2; cbn; by rewrite Hm1, app_assoc|]);
          right; (split; [rewrite count_app; lia|by exists e]).
      * eexists _, _, (made1 ++ made2)%list. split; [reflexivity|].
        split; [cbn; rewrite Hm2; cbn; by rewrite Hm1, app_assoc|].
        right. split; [rewrite count_app; lia|by exists e].
    + eexists _, _, made1. split; [reflexivity|]. split; [exact Hm1|by left].
Qed.

Lemma turn_returns env w : exists stop w', DeleteChats.turn env w = (Returned stop, w').
Proof.
  unfold DeleteChats.turn, try_catch at 1. rewrite run_bind.
  pose proof (deleteOnce_total env w) as Ht1.
  destruct (DeleteChats.deleteOnce env w) as [[ok|e|] w1]; [| |done].
  - destruct ok; by eexists _, _.
  - destruct (DeleteChats.retryable e); [|by eexists _, _].
    unfold try_catch. rewrite run_bind, run_sleep. cbv beta iota. rewrite run_bind.
    pose proof (deleteOnce_total env (advance (nap 150) w1)) as Ht2.
    destruct (DeleteChats.deleteOnce env (advance (nap 150) w1)) as [[ok|e2|] w2];
      [| |done].
    + destruct ok; by eexists _, _.
    + by eexists _, _.
Qed.

(** X25.  The remover's loop never rejects: no failure of the browser gets
    out of it, so that it ends only by finding no chat row (or no box for
    it), however many turns that takes; and it does end at once, with the
    one query made, when the first look finds no row. *)
Theorem X25_remover_loop_ends_only_without_a_row fuel env w :
  (forall e, (DeleteChats.deleteLoop fuel env w).1 <> Thrown e) /\
  (failure env (tick w) = None -> present env (tick w) = false ->
   DeleteChats.deleteLoop (S fuel) env w =
     (Returned tt,
      advance (Z.of_N (latency env (tick w))) (record_call (Query DeleteChats.chatRow) w))).
Proof.
  split.
  - revert w. induction fuel as [|fuel IH]; intros w e; [done|].
    cbn [DeleteChats.deleteLoop]. rewrite run_bind.
    destruct (turn_returns env w) as (stop & w' & ->).
    destruct stop; [done|]. rewrite run_bind, run_sleep. apply IH.
  - intros Hf Hp. cbn [DeleteChats.deleteLoop]. rewrite run_bind.
    assert (Hturn : DeleteChats.turn env w =
      (Returned true,
       advance (Z.of_N (latency env (tick w))) (record_call (Query DeleteChats.chatRow) w))).
    { unfold DeleteChats.turn, try_catch at 1, DeleteChats.deleteOnce.
      rewrite !run_bind. rewrite (interact_ok _ _ _ _ eq_refl Hf). cbv beta iota.
      rewrite run_bind. cbn [ask]. by rewrite Hp. }
    by rewrite Hturn.
Qed.

Lemma X25_witness :
  (forall e, (DeleteChats.deleteLoop 3 (finding_nothing quiet) startWorld).1 <> Thrown e) /\
  DeleteChats.deleteLoop 4 (finding_nothing quiet) startWorld =
    (Returned tt,
     advance (Z.of_N (latency (finding_nothing quiet) (tick startWorld)))
             (record_call (Query DeleteChats.chatRow) startWorld)).
Proof.
  destruct (X25_remover_loop_ends_only_without_a_row 3 (finding_nothing quiet) startWorld)
    as [Hnever Hends].
  split; [exact Hnever|]. apply Hends; reflexivity.
Defined.
(** ** The stream, from its capture to the trace *)

(** X26.  Capturing the stream never fails a prompt.  When the response is
    awaited and read without error, [sseText] is the body read and nothing
    is logged; when either step fails, the block logs one warning with the
    error and leaves [sseText] as it was.  In both cases it returns and
    touches neither the files nor [finalAnswer]. *)
Theorem X26_stream_capture_never_rejects env w :
  exists w', captureSse env w = (Returned tt, w') /\
    files w' = files w /\ finalAnswer w' = finalAnswer w /\
    match failure env (tick w), failure env (S (tick w)) with
    | None, None =>
        sseText w' = streamBody env (S (tick w)) /\ console w' = console w /\
        calls w' = (calls w ++ [AwaitResponse 120000; ResponseText])%list
    | None, Some e =>
        sseText w' = sseText w /\
        console w' = (console w ++ [(WARN, "⚠️ SSE response not captured: " +:+ e)])%list /\
        calls w' = (calls w ++ [AwaitResponse 120000; ResponseText])%list
    | Some e, _ =>
        sseText w' = sseText w /\
        console w' = (console w ++ [(WARN, "⚠️ SSE response not captured: " +:+ e)])%list /\
        calls w' = (calls w ++ [AwaitResponse 120000])%list
    end.
Proof.
  unfold captureSse, try_catch.
  destruct (failure env (tick w)) as [e|] eqn:F0.
  - call_fails F0.
    eexists. split; [reflexivity|]. simpl. by rewrite <- ?app_assoc.
  - call_ok F0.
    destruct (failure env (S (tick w))) as [e|] eqn:F1.
    + call_fails F1.
      eexists. split; [reflexivity|]. simpl. by rewrite <- ?app_assoc.
    + call_ok F1.
      eexists. split; [reflexivity|]. simpl. by rewrite <- ?app_assoc.
Qed.

(** X27.  When the recorder stops and its trace can be written, the trace
    the [finally] block leaves is what the recorder wrote with the body of
    its first streaming entry replaced by the text in [sseText]: by the
    stream captured, and by the empty text when none was. *)
Theorem X27_trace_is_the_recording_with_the_stream
    harFilename answerFilename promptText env w :
  failure env (tick w) = None ->
  denied env harFilename = None ->
  harFilename <> answerFilename ->
  files (finishPrompt harFilename answerFilename promptText env w).2 !! harFilename
    = Some (HarFile (correlate (sseText w) (recorded env (tick w)))).
Proof.
  intros Hf Hden Hne.
  unfold finishPrompt. rewrite run_bind.
  set (w0 := put_file harFilename (HarFile (recorded env (tick w)))
               (advance (Z.of_N (latency env (tick w))) (record_call HarStop w))).
  assert (E1 : stopHar harFilename env w =
    (Returned tt, print LOG ("✅ HAR saved to " +:+ harFilename) w0)).
  { run_blocks. by rewrite Hf, Hden. }
  rewrite E1. rewrite run_bind. cbn [get]. rewrite run_bind.
  match goal with |- context [injectSseIntoHar _ _ env ?w0] => set (w1 := w0) end.
  assert (E2 : injectSseIntoHar harFilename (sseText w1) env w1 =
    (Returned tt, print LOG ("✅ HAR updated with SSE at " +:+ harFilename)
                    (put_file harFilename
                       (HarFile (correlate (sseText w) (recorded env (tick w)))) w1))).
  { run_blocks. subst w1 w0. cbn [files dirs sseText print advance record_call put_file].
    by rewrite lookup_insert_eq, Hden. }
  rewrite E2. rewrite run_bind. cbn [get].
  match goal with |- context [saveAnswer _ _ ?a env ?w0] =>
    set (ans := a); set (w2 := w0) end.
  assert (Hkeep : respects (keeps (fun w => files w !! harFilename))
                    (saveAnswer answerFilename promptText ans)).
  { respects_with ltac:(first
      [ reflexivity | unfold keeps; simpl; by rewrite lookup_insert_ne ]). }
  rewrite (Hkeep env w2). subst w2 w1. simpl. apply lookup_insert_eq.
Qed.

Lemma X27_witness :
  files (finishPrompt "trace.har" "response.txt" "greet" capturing startWorld).2
    !! "trace.har"
    = Some (HarFile (correlate (sseText startWorld) (recorded capturing (tick startWorld)))).
Proof.
  apply (X27_trace_is_the_recording_with_the_stream "trace.har" "response.txt" "greet"
           capturing startWorld); [reflexivity|reflexivity|discriminate].
Defined.
(** ** Where the runners write *)

#[global] Instance untouched_preorder p : PreOrder (untouched p).
Proof.
  split.
  - intros w. by split.
  - intros w1 w2 w3 [F12 D12] [F23 D23]. split; [congruence|]. by rewrite D23.
Qed.

Lemma prefix_app (a b : string) : String.prefix a (a +:+ b) = true.
Proof.
  induction a as [|c a IH]; [by destruct b|].
  rewrite app_cons. cbn [String.prefix]. by destruct (ascii_dec c c).
Qed.

Lemma prefix_app_longer (a b c : string) :
  String.prefix a b = true -> String.prefix a (b +:+ c) = true.
Proof.
  revert b. induction a as [|x a IH]; intros b; [by destruct (b +:+ c)|].
  destruct b as [|y b]; [done|]. rewrite app_cons. cbn [String.prefix].
  destruct (ascii_dec x y); [apply IH|done].
Qed.

(** A path made under a directory is not one that lies outside it. *)
Lemma outside_path_join dir name p :
  String.prefix (dir +:+ "/") p = false -> path_join dir name <> p.
Proof.
  intros Hout <-. unfold path_join in Hout.
  rewrite <- append_assoc in Hout. by rewrite prefix_app in Hout.
Qed.

Lemma outside_subdirectory dir sub p :
  String.prefix (dir +:+ "/") p = false ->
  path_join dir sub <> p /\ String.prefix (path_join dir sub +:+ "/") p = false.
Proof.
  intros Hout. split.
  - by apply outside_path_join.
  - destruct (String.prefix (path_join dir sub +:+ "/") p) eqn:Hin; [|done].
    apply prefix_correct in Hin.
    assert (Hp : String.prefix (dir +:+ "/") (path_join dir sub +:+ "/") = true).
    { unfold path_join. rewrite <- append_assoc. apply prefix_app_longer, prefix_app. }
    assert (Hpre : forall a b c, String.prefix a b = true -> String.prefix b c = true ->
              String.prefix a c = true).
    { clear. induction a as [|x a IH]; intros b c Hab Hbc; [by destruct c|].
      destruct b as [|y b]; [done|]. destruct c as [|z c]; [done|].
      cbn [String.prefix] in *.
      destruct (ascii_dec x y) as [->|]; [|done].
      destruct (ascii_dec y z) as [->|]; [|done]. by apply (IH b). }
    rewrite (Hpre _ _ p Hp) in Hout; [done|]. by apply prefix_correct.
Qed.

Ltac untouched_side :=
  first
    [ by split
    | split; [simpl; by rewrite lookup_insert_ne | reflexivity]
    | split; [reflexivity|]; simpl; rewrite elem_of_union, elem_of_singleton;
      split; [intros [?|?]; [congruence|done] | by right] ].

Lemma untouched_ensureDir p q : q <> p -> respects (untouched p) (ensureDir q).
Proof. intros Hq. respects_with untouched_side. Qed.

Lemma untouched_write p q f : q <> p -> respects (untouched p) (fs_writeFileSync q f).
Proof. intros Hq. respects_with untouched_side. Qed.

(** What lies outside the output directory of a batch is left alone by the
    loop body of a prompt, ... *)
Lemma untouched_processPrompt r label outDir sub1 sub2 total idx query p :
  String.prefix (outDir +:+ "/") p = false ->
  respects (untouched p)
    (processPromptOf r label (path_join outDir sub1) (path_join outDir sub2) total idx query).
Proof.
  intros Hout.
  destruct (outside_subdirectory outDir sub1 p Hout) as [H1 H1'].
  destruct (outside_subdirectory outDir sub2 p Hout) as [H2 H2'].
  assert (Hh : harName (path_join outDir sub1) idx <> p)
    by (apply outside_path_join; done).
  assert (Ha : answerName (path_join outDir sub2) idx <> p)
    by (apply outside_path_join; done).
  destruct r; runner_rewrite; [unfold GPT.processPrompt|unfold Claude.processPrompt];
    respects_with untouched_side.
Qed.

(** ... by the batch, ... *)
Lemma untouched_batch r prompts outDir p :
  p <> outDir -> String.prefix (outDir +:+ "/") p = false ->
  respects (untouched p) (processPromptsBatchOf r prompts outDir).
Proof.
  intros Hne Hout.
  assert (Hbody : forall r sub1 sub2 label total i query,
    respects (untouched p)
      (processPromptOf r label (path_join outDir sub1) (path_join outDir sub2) total i query))
    by (intros; by apply untouched_processPrompt).
  pose proof (fun sub => proj1 (outside_subdirectory outDir sub p Hout)) as Hsub.
  assert (Hdir : forall q, q <> p -> respects (untouched p) (ensureDir q))
    by (intros; by apply untouched_ensureDir).
  assert (Hsel : respects (untouched p) (Claude.selectModel Claude.PREFERRED_MENU_LABEL))
    by respects_with untouched_side.
  pose proof (Hbody ChatGPT) as HG. pose proof (Hbody ClaudeAI) as HC.
  revert HG HC. destruct r; runner_rewrite; intros HG HC.
  - unfold GPT.processPromptsBatch, GPT.harsDirOf, GPT.responsesDirOf. cbv zeta.
    repeat first
      [ apply Hdir; first [assumption | apply Hsub]
      | apply HG
      | respects_step untouched_side ].
  - unfold Claude.processPromptsBatch, Claude.harsDirOf, Claude.responsesDirOf. cbv zeta.
    repeat first
      [ apply Hdir; first [assumption | apply Hsub]
      | apply HC
      | exact Hsel
      | respects_step untouched_side ].
Qed.

(** ... and by the loading of the job. *)
Lemma untouched_loadJob job p :
  p <> outDir job -> String.prefix (outDir job +:+ "/") p = false ->
  respects (untouched p) (loadJob job).
Proof.
  intros Hne Hout.
  assert (Hdir : respects (untouched p) (ensureDir (outDir job)))
    by (apply untouched_ensureDir; congruence).
  assert (Hw : forall name f,
    respects (untouched p) (fs_writeFileSync (path_join (outDir job) name) f)).
  { intros name f. apply untouched_write. by apply outside_path_join. }
  unfold loadJob, savePromptsCatalog. cbv zeta.
  repeat first
    [ exact Hdir | apply Hw
    | lazymatch goal with
      | |- respects _ (loadCsvPrompts _) => respects_with untouched_side
      | |- respects _ (console_log _) => respects_with untouched_side
      | |- respects _ (path_resolve _) => respects_with untouched_side
      | |- respects _ Date_toISOString => respects_with untouched_side
      | |- respects ?R (_ ≫= _) => apply (respects_bind R); [|intros ?]
      | |- respects ?R (mret _) => apply (respects_ret R)
      end ].
Qed.

Lemma loaded_jobs jobs : forall env w jobData w1,
  map_each loadJob jobs env w = (Returned jobData, w1) ->
  forall job prompts, (job, prompts) ∈ jobData -> job ∈ jobs.
Proof.
  induction jobs as [|j jobs IH]; intros env w jobData w1; cbn [map_each].
  - intros [= <- _] job prompts Hin. by apply elem_of_nil in Hin.
  - rewrite run_bind.
    destruct (loadJob j env w) as [[[j' ps]|e|] wa] eqn:Hj; try discriminate.
    assert (j' = j) as ->.
    { revert Hj. unfold loadJob. rewrite run_bind.
      destruct (loadCsvPrompts (file j) env w) as [[prompts|e|] wb]; try discriminate.
      rewrite run_bind. cbn [console_log modify]. rewrite run_bind.
      destruct (savePromptsCatalog _ _ _ env _) as [[[]|e|] wc]; try discriminate.
      by intros [= <- _ _]. }
    rewrite run_bind.
    destruct (map_each loadJob jobs env wa) as [[bs|e|] wb] eqn:Hrest; try discriminate.
    intros [= <- _] job prompts Hin.
    apply elem_of_cons in Hin as [[= -> _]|Hin]; [by left|].
    right. by apply (IH env wa bs wb Hrest job prompts).
Qed.

(** X28.  A run of the main flow of either runner, with plain names for
    the output directories of its jobs (as the scripts have them), writes
    under these directories only, the profile of the browser apart: a
    relative path without [.], [..] or empty segment that is none of these
    directories, does not lie under one and is not of the profile holds
    the same file, or none, and is a directory or not, after the run as
    before it. *)
Theorem X28_main_writes_under_the_output_directories_only r (jobs : list Job) p env w :
  normalised p = true ->
  p <> profileDir r /\ String.prefix (profileDir r +:+ "/") p = false ->
  (forall job, job ∈ jobs ->
     plainName (outDir job) = true /\
     p <> outDir job /\ String.prefix (outDir job +:+ "/") p = false) ->
  files (mainOf r jobs env w).2 !! p = files w !! p /\
  (p ∈ dirs (mainOf r jobs env w).2 <-> p ∈ dirs w).
Proof.
  intros _ _ Hplain.
  assert (Hout : forall job, job ∈ jobs ->
            p <> outDir job /\ String.prefix (outDir job +:+ "/") p = false).
  { intros job Hjob. by destruct (Hplain job Hjob) as (_ & ? & ?). }
  clear Hplain.
  assert (Hgen : forall userDataDir (batch : list string -> string -> M unit),
    (forall prompts job, job ∈ jobs -> respects (untouched p) (batch prompts (outDir job))) ->
    untouched p w (mainFlow userDataDir batch jobs env w).2).
  { intros userDataDir batch Hbatch. unfold mainFlow. rewrite run_bind.
    assert (Hload : respects (untouched p) (map_each loadJob jobs)).
    { clear Hbatch. induction jobs as [|j jobs IH]; cbn [map_each].
      - apply (respects_ret _).
      - apply (respects_bind _).
        + destruct (Hout j ltac:(by left)). by apply untouched_loadJob.
        + intros b. apply (respects_bind _); [|intros bs; apply (respects_ret _)].
          apply IH. intros job Hjob. apply Hout. by right. }
    pose proof (Hload env w) as Hl.
    pose proof (loaded_jobs jobs env w) as Hjobs.
    destruct (map_each loadJob jobs env w) as [[jobData|e|] w1]; simpl in *; try done.
    specialize (Hjobs jobData w1 eq_refl).
    etransitivity; [exact Hl|].
    match goal with |- untouched p w1 (?rest env w1).2 =>
      assert (Hrest : respects (untouched p) rest); [|exact (Hrest env w1)] end.
    repeat first
      [ lazymatch goal with
        | |- respects _ (batch _ _) => apply Hbatch; eapply Hjobs; eassumption
        end
      | respects_step untouched_side ]. }
  assert (Hb : forall r prompts job, job ∈ jobs ->
            respects (untouched p) (processPromptsBatchOf r prompts (outDir job))).
  { intros r0 prompts job Hjob. destruct (Hout job Hjob). by apply untouched_batch. }
  pose proof (Hb ChatGPT) as HG. pose proof (Hb ClaudeAI) as HC. revert HG HC.
  destruct r; runner_rewrite; intros HG HC; unfold GPT.main, Claude.main.
  - apply Hgen. exact HG.
  - apply Hgen. exact HC.
Qed.

Lemma X28_witness :
  let env := parsing (inr [[("query", "capital of France")]]) answering in
  files (mainOf ChatGPT [mkJob "prompts.csv" "abstain_gpt-5_1"] env withCatalog).2
    !! "prompts.csv" = files withCatalog !! "prompts.csv" /\
  ("prompts.csv" ∈ dirs (mainOf ChatGPT [mkJob "prompts.csv" "abstain_gpt-5_1"] env
                          withCatalog).2 <-> "prompts.csv" ∈ dirs withCatalog).
Proof.
  intros env.
  apply (X28_main_writes_under_the_output_directories_only ChatGPT
           [mkJob "prompts.csv" "abstain_gpt-5_1"] "prompts.csv" env withCatalog).
  - reflexivity.
  - split; [discriminate|reflexivity].
  - intros job Hjob. apply list_elem_of_singleton in Hjob as ->.
    split; [reflexivity|]. split; [discriminate|reflexivity].
Defined.

(** *** The trace of a prompt is its own *)

Lemma harName_inj harsDir i j : harName harsDir i = harName harsDir j -> i = j.
Proof.
  unfold harName, path_join. intros H.
  do 3 apply String.app_inj in H. apply append_inj_r in H.
  apply pretty_nat_inj in H. lia.
Qed.

(** X29.  Every prompt of a batch has a trace file of its own, which is no
    prompt's response file, and the loop bodies of the other prompts leave
    it as it is: what the prompt's own body leaves in its trace is what
    the batch leaves. *)
Theorem X29_trace_of_a_prompt_is_its_own r label harsDir responsesDir total idx :
  (forall j, harName harsDir j = harName harsDir idx -> j = idx) /\
  (forall j, answerName responsesDir j <> harName harsDir idx) /\
  (forall j query env w, j <> idx ->
     files (processPromptOf r label harsDir responsesDir total j query env w).2
       !! harName harsDir idx = files w !! harName harsDir idx) /\
  (forall query rest env w,
     files (for_each idx (query :: rest) (processPromptOf r label harsDir responsesDir total)
              env w).2 !! harName harsDir idx
     = files (processPromptOf r label harsDir responsesDir total idx query env w).2
         !! harName harsDir idx).
Proof.
  assert (Hown : forall j, harName harsDir j = harName harsDir idx -> j = idx)
    by (intros j; apply harName_inj).
  assert (Hans : forall j, answerName responsesDir j <> harName harsDir idx)
    by (intros j H; by apply (harName_answerName harsDir responsesDir idx j)).
  assert (Hbody : forall j query, j <> idx ->
    respects (keeps (fun w => files w !! harName harsDir idx))
             (processPromptOf r label harsDir responsesDir total j query)).
  { intros j query Hj.
    assert (Hh : harName harsDir j <> harName harsDir idx) by (intros H; by apply Hown in H).
    pose proof (Hans j) as Ha.
    destruct r; runner_rewrite; [unfold GPT.processPrompt|unfold Claude.processPrompt];
      respects_with ltac:(first [reflexivity | by apply lookup_insert_ne]). }
  repeat split; try done.
  - intros j query env w Hj. apply (Hbody j query Hj env w).
  - intros query rest env w. cbn [for_each]. rewrite run_bind.
    destruct (processPromptOf r label harsDir responsesDir total idx query env w)
      as [[[]|e|] wA]; try reflexivity.
    apply (respects_for_each_from (keeps (fun w => files w !! harName harsDir idx))).
    intros i item Hi. apply Hbody. lia.
Qed.
(** ** The remover before its loop *)

(** X30.  The remover waits for a first chat row before its loop, outside
    any [try]: when that wait fails (as it does, by timeout, when the
    account has no chat), the script rejects with that error after four
    calls, without entering the loop, logging anything or closing the
    browser. *)
Theorem X30_remover_rejects_when_no_chat_shows fuel env w e :
  failure env (tick w) = None ->
  failure env (1 + tick w)%nat = None ->
  failure env (2 + tick w)%nat = None ->
  failure env (3 + tick w)%nat = Some e ->
  exists w', DeleteChats.main fuel env w = (Thrown e, w') /\
    calls w' =
      (calls w ++
       [ Launch "./puppeteer-profile"; Pages; Goto "https://chatgpt.com/";
         WaitForSelector DeleteChats.chatRow 60000 ])%list /\
    console w' = console w /\ files w' = files w.
Proof.
  intros F0 F1 F2 F3. cbn [Nat.add] in *. unfold DeleteChats.main.
  call_ok F0. call_ok F1. call_ok F2. call_fails F3.
  eexists. split; [reflexivity|]. split; [|done].
  repeat first [rewrite calls_advance | rewrite calls_record].
  by rewrite <- !app_assoc.
Qed.

Lemma X30_witness :
  let env := detachedAt 3 quiet in
  exists w', DeleteChats.main 5 env startWorld = (Thrown "Node is detached from document", w') /\
    calls w' =
      (calls startWorld ++
       [ Launch "./puppeteer-profile"; Pages; Goto "https://chatgpt.com/";
         WaitForSelector DeleteChats.chatRow 60000 ])%list /\
    console w' = console startWorld /\ files w' = files startWorld.
Proof.
  intros env.
  apply (X30_remover_rejects_when_no_chat_shows 5 env startWorld
           "Node is detached from document"); reflexivity.
Defined.
(** ** The response promise is awaited in time *)

Lemma calls_grow_calling cs : respects (appending (fun _ => True)) (calling cs).
Proof.
  induction cs as [|c cs IH]; cbn [calling].
  - apply (respects_ret _).
  - respects_with ltac:(first [apply appending_same; reflexivity | by apply appending_call]).
Qed.

(** Calls of a typing sequence that all succeed, each in less than 17 s
    (which is what [typedInTime] says of them), are all made, and take
    less than 17 s each. *)
Lemma calling_in_time env cs : forall w,
  tick w = length (calls w) ->
  Forall (fun c => isTypingCall c = true) cs ->
  (forall n c, calls (calling cs env w).2 !! n = Some c -> isTypingCall c = true ->
     failure env n = None /\ Z.of_N (latency env n) < 17000) ->
  exists w', calling cs env w = (Returned tt, w') /\
    calls w' = (calls w ++ cs)%list /\
    clock w' - clock w <= 16999 * Z.of_nat (length cs).
Proof.
  induction cs as [|c cs IH]; intros w Htick Hcs Hok; cbn [calling] in *.
  - exists w. split; [reflexivity|]. split; [by rewrite app_nil_r|]. simpl. lia.
  - apply Forall_cons in Hcs as [Hc Hcs].
    set (w1 := advance (Z.of_N (latency env (tick w))) (record_call c w)).
    assert (Hhere : exists l, calls ((interact c;; calling cs) env w).2
                              = (calls w ++ c :: l)%list).
    { rewrite run_bind. unfold interact at 1. fold w1.
      destruct (failure env (tick w)); [by exists []|].
      destruct (calls_grow_calling cs env w1) as (l & Hl & _). exists l.
      rewrite Hl. subst w1. cbn [calls advance record_call]. by rewrite <- app_assoc. }
    destruct Hhere as (l & Hl).
    destruct (Hok (tick w) c) as [Hf Hlat]; [|exact Hc|].
    { rewrite Hl, Htick. by rewrite lookup_app_r, Nat.sub_diag by lia. }
    rewrite run_bind in Hok |- *. unfold interact at 1 in Hok. unfold interact at 1.
    rewrite Hf in Hok |- *. fold w1 in Hok |- *.
    destruct (IH w1) as (w' & Hrun & Hcalls & Hclock); [|exact Hcs|exact Hok|].
    { subst w1. cbn [tick calls advance record_call]. rewrite length_app, Htick. simpl. lia. }
    exists w'. split; [exact Hrun|]. split.
    + rewrite Hcalls. subst w1. cbn [calls advance record_call]. by rewrite <- app_assoc.
    + subst w1. cbn [clock advance record_call] in Hclock. cbn [length]. lia.
Qed.

(** So in a run that is [typedInTime] the typing sequence of a prompt goes
    to its end, and the response promise made before it is awaited less
    than 120 s after it was made. *)
Lemma typing_awaited_in_time r content env w :
  tick w = length (calls w) ->
  (forall n c, calls (typingOf r content env w).2 !! n = Some c -> isTypingCall c = true ->
     failure env n = None /\ Z.of_N (latency env n) < 17000) ->
  exists w', typingOf r content env w = (Returned tt, w') /\ clock w' - clock w < 120000.
Proof.
  intros Htick Hok.
  assert (Hgen : forall cs, length cs = 7%nat ->
    Forall (fun c => isTypingCall c = true) cs ->
    typingOf r content = calling cs ->
    exists w', typingOf r content env w = (Returned tt, w') /\ clock w' - clock w < 120000).
  { intros cs Hlen Hcs Heq. rewrite Heq in Hok |- *.
    destruct (calling_in_time env cs w Htick Hcs Hok) as (w' & Hrun & _ & Hclock).
    exists w'. split; [exact Hrun|]. rewrite Hlen in Hclock. lia. }
  destruct r.
  - apply (Hgen [WaitForSelector GPT.editor 15000; EditorClick 100; KeyDown "Control";
                 KeyPress "A"; KeyUp "Control"; EditorType content 50;
                 EditorPress "Enter"]); [reflexivity| |reflexivity].
    repeat constructor.
  - apply (Hgen [WaitForSelector Claude.editor 15000; EditorClick 80; KeyDown "Control";
                 KeyPress "A"; KeyUp "Control"; EditorType content 40;
                 Click Claude.sendButton]); [reflexivity| |reflexivity].
    repeat constructor.
Qed.

(** ** The prompt the Claude runner sends *)














